(** * video2mesh: correspondence extraction and camera geometry

    A shallow embedding of [Video2mesh/pose_refinement.py] and
    [Video2mesh/geometry.py].  Frame indices and counts are [nat].  Image
    coordinates and depths, which the extractor only compares, rounds to
    integers and copies, are exact rationals ([Q]) standing for the finite
    floating-point values of the program.  Descriptor distances, which the
    ratio test multiplies by [0.7], are binary64 numbers ([float]) with the
    arithmetic of the machine.  The camera geometry is stated over exact
    rationals: it gives the formulas of the program without the rounding of
    binary64.  Python exceptions are values of [PyError], and the calls
    into OpenCV are parameters of the development whose invocations are
    recorded in a trace. *)

From Stdlib Require Import PrimFloat SpecFloat FloatOps.
From Stdlib Require Import List Arith PeanoNat Lia Bool ZArith QArith Qround Qfield FinFun Lqa.
Import ListNotations.

Set Implicit Arguments.
Local Open Scope nat_scope.

(** ** Python exceptions and built-ins *)

Inductive PyError : Type :=
| ValueError
| RuntimeError
| IndexError
| AttributeError
| OverflowError
| ZeroDivisionError
| TypeError
| LinAlgError
| ShapeError.

Module Py.

(** [range(n)] *)
Definition range (n : nat) : list nat := seq 0 n.

(** [range(a, b)] *)
Definition range2 (a b : nat) : list nat := seq a (b - a).

(** [range(start, stop, step)] for a positive [step]: CPython computes the
    length [ceil((stop - start) / step)] and item [k] is [start + k * step]. *)
Definition range3 (start stop step : nat) : list nat :=
  map (fun k => start + k * step) (seq 0 ((stop - start + (step - 1)) / step)).

(** [for x in xs: body] over a loop state [s]. *)
Definition for_each {S A : Type} (xs : list A) (body : S -> A -> S) (s : S) : S :=
  fold_left body xs s.

(** [1 << level] *)
Definition shl1 (level : nat) : nat := Nat.shiftl 1 level.

End Py.

(** ** Frame pair sampling ([PoseOptimiser.sample_frame_pairs]) *)

Inductive FrameSamplingMode : Type :=
| EXHAUSTIVE
| CONSECUTIVE
| HIERARCHICAL.

Definition FramePair : Type := (nat * nat)%type.
Definition FramePairs : Type := list FramePair.

Module Sampler.

(** [int(np.floor(np.log2(num_frames - 1)))].  [np.log2] of [-1] is NaN and
    of [0] is [-inf]; [int] refuses both. *)
Definition max_level (num_frames : nat) : PyError + nat :=
  match num_frames with
  | 0 => inl ValueError
  | 1 => inl OverflowError
  | _ => inr (Nat.log2 (num_frames - 1))
  end.

Definition exhaustive (num_frames : nat) : FramePairs :=
  Py.for_each (Py.range num_frames)
    (fun frame_pairs i =>
       Py.for_each (Py.range2 (i + 1) num_frames)
         (fun frame_pairs j => frame_pairs ++ [(i, j)])
         frame_pairs)
    [].

Definition consecutive (num_frames : nat) : FramePairs :=
  Py.for_each (Py.range (num_frames - 1))
    (fun frame_pairs i => frame_pairs ++ [(i, i + 1)])
    [].

Definition hierarchical_levels (num_frames max_level : nat) : FramePairs :=
  Py.for_each (Py.range (max_level + 1))
    (fun frame_pairs level =>
       let step := Py.shl1 level in
       Py.for_each (Py.range3 0 num_frames step)
         (fun frame_pairs start =>
            let end_ := start + step in
            if num_frames <=? end_ then frame_pairs
            else frame_pairs ++ [(start, end_)])
         frame_pairs)
    [].

Definition hierarchical (num_frames : nat) : PyError + FramePairs :=
  match max_level num_frames with
  | inl e => inl e
  | inr l => inr (hierarchical_levels num_frames l)
  end.

(** The mode argument is [Some m] for a member of the enumeration and [None]
    for any other Python value. *)
Definition sample_frame_pairs (num_frames : nat)
           (frame_sampling_mode : option FrameSamplingMode) : PyError + FramePairs :=
  match frame_sampling_mode with
  | Some EXHAUSTIVE => inr (exhaustive num_frames)
  | Some CONSECUTIVE => inr (consecutive num_frames)
  | Some HIERARCHICAL => hierarchical num_frames
  | None => inl RuntimeError
  end.

(** The sampling modes as the specification words them: list comprehensions. *)
Definition exhaustive_spec (n : nat) : FramePairs :=
  flat_map (fun i => map (fun j => (i, j)) (seq (i + 1) (n - (i + 1)))) (seq 0 n).

Definition level_spec (n level : nat) : FramePairs :=
  map (fun start => (start, start + 2 ^ level))
      (filter (fun start => start + 2 ^ level <? n) (Py.range3 0 n (2 ^ level))).

Definition hierarchical_spec (n : nat) : FramePairs :=
  flat_map (level_spec n) (seq 0 (Nat.log2 (n - 1) + 1)).

End Sampler.


(** ** Numbers, indexing and error handling *)

Definition Exc (A : Type) : Type := (PyError + A)%type.

Definition exc_bind {A B : Type} (m : Exc A) (k : A -> Exc B) : Exc B :=
  match m with
  | inl e => inl e
  | inr a => k a
  end.

Notation "'let?' x ':=' m 'in' k" := (exc_bind m (fun x => k))
  (at level 10, x pattern, m at level 100, k at level 200).

Module Num.

(** Python's [round(x)] and [np.round]: to the nearest integer, ties to the
    even one. *)
Definition round_half_even (x : Q) : Z :=
  let f := Qfloor x in
  match Qcompare (x - inject_Z f) (1 # 2) with
  | Lt => f
  | Gt => (f + 1)%Z
  | Eq => if Z.even f then f else (f + 1)%Z
  end.

(** [a > b] on numbers. *)
Definition gt (a b : Q) : bool := negb (Qle_bool a b).

(** [a == 0.0] *)
Definition is_zero (a : Q) : bool := Qeq_bool a 0.

(** The literal [0.7]: the binary64 number nearest to seven tenths,
    about 0.69999999999999996. *)
Definition seven_tenths : float := 0x1.6666666666666p-1%float.

(** The number a binary64 value stands for; infinities and NaN stand for
    none. *)
Definition value (x : float) : option Q :=
  match Prim2SF x with
  | S754_zero _ => Some 0%Q
  | S754_finite s m e =>
      Some (Qred (inject_Z (if s then Z.neg m else Z.pos m) * Qpower 2 e))
  | S754_infinity _ => None
  | S754_nan => None
  end.

End Num.

Module Seq.

(** [l[i]] for a Python sequence or one axis of an array: a negative index
    counts from the end, an index out of range raises [IndexError]. *)
Definition index {A : Type} (l : list A) (i : Z) : Exc A :=
  let n := Z.of_nat (length l) in
  let i' := if (i <? 0)%Z then (i + n)%Z else i in
  if ((0 <=? i') && (i' <? n))%Z
  then match nth_error l (Z.to_nat i') with
       | Some a => inr a
       | None => inl IndexError
       end
  else inl IndexError.

(** [enumerate(l)] *)
Definition enumerate {A : Type} (l : list A) : list (nat * A) :=
  combine (seq 0 (length l)) l.

(** [l[k] = f(l[k])] for [k] in range. *)
Fixpoint update {A : Type} (k : nat) (f : A -> A) (l : list A) : list A :=
  match l, k with
  | [], _ => []
  | a :: l', 0 => f a :: l'
  | a :: l', S k' => a :: update k' f l'
  end.

(** [arr[mask]] with a boolean mask over the first axis: the lengths must
    agree, the selected rows are returned in order. *)
Fixpoint select {A : Type} (l : list A) (mask : list bool) : list A :=
  match l, mask with
  | a :: l', b :: mask' => if b then a :: select l' mask' else select l' mask'
  | _, _ => []
  end.

Definition bool_index {A : Type} (l : list A) (mask : list bool) : Exc (list A) :=
  if length l =? length mask then inr (select l mask) else inl IndexError.

(** [np.argwhere(p(arr))] over the first axis. *)
Definition argwhere {A : Type} (p : A -> bool) (l : list A) : list nat :=
  map fst (filter (fun kx => p (snd kx)) (enumerate l)).

(** A loop whose body may raise. *)
Fixpoint for_each_exc {S A : Type} (xs : list A) (body : S -> A -> Exc S) (s : S) : Exc S :=
  match xs with
  | [] => inr s
  | x :: xs' => let? s' := body s x in for_each_exc xs' body s'
  end.

(** A comprehension whose items may raise. *)
Fixpoint exc_map {A B : Type} (f : A -> Exc B) (xs : list A) : Exc (list B) :=
  match xs with
  | [] => inr []
  | x :: xs' =>
      let? y := f x in
      let? ys := exc_map f xs' in
      inr (y :: ys)
  end.

End Seq.

(** ** Data of the correspondence extractor *)

(** [KeyPoint.pt]: sub-pixel image coordinates [(x, y)]. *)
Definition Point : Type := (Q * Q)%type.

(** A depth map is a 2D array of depths, indexed [row, column]. *)
Definition DepthMap : Type := list (list Q).

(** A mask is a 2D array of unsigned bytes. *)
Definition Mask : Type := list (list Z).

(** [cv2.DMatch]; [distance] is the Python [float] read from the attribute. *)
Record DMatch : Type := mkDMatch {
  queryIdx : Z;
  trainIdx : Z;
  distance : float
}.

(** [FeatureData = namedtuple('FeatureData', ['index', 'points', 'depth'])];
    [index] is one frame index for a frame pair and a list of them in the
    aggregate. *)
Record FeatureData (I : Type) : Type := mkFeatureData {
  index : I;
  points : list Point;
  depth : list Q
}.

(** [FeatureSet = namedtuple('FeatureSet', ['frame_i', 'frame_j'])] *)
Record FeatureSet (I : Type) : Type := mkFeatureSet {
  frame_i : FeatureData I;
  frame_j : FeatureData I
}.

(** An entry of [matches_mask]: a two-element list. *)
Definition MaskEntry : Type := (Z * Z)%type.

Definition is_accepted_entry (e : MaskEntry) : bool :=
  ((fst e =? 1) && (snd e =? 0))%Z.

(** The statistics [_print_results_stats] logs. *)
Record ResultsStats : Type := mkResultsStats {
  good_frame_pairs : nat;
  total_frame_pairs : nat;
  coverage : Q;
  groups : nat
}.

(** ** The OpenCV interface *)

Class Vision : Type := {
  Image : Type;
  Frame : Type;
  Descriptors : Type;
  (** [cv2.SIFT_create(nfeatures=max_features)]: the binding refuses an
      [int] that does not fit the C type of the argument, with an exception
      of its own. *)
  SIFT_create : option Z -> Exc unit;
  (** [cv2.cvtColor(image, cv2.COLOR_RGB2GRAY)] *)
  cvtColor_gray : Image -> Frame;
  (** [self.sift.detectAndCompute(frame, mask)], for the detector made with
      [nfeatures] *)
  detectAndCompute : option Z -> Frame -> option Mask -> list Point * Descriptors;
  (** [cv2.FlannBasedMatcher(...).knnMatch(descriptors_i, descriptors_j, k=2)] *)
  knnMatch : Descriptors -> Descriptors -> list (DMatch * DMatch);
  (** [cv2.findHomography(points_i, points_j, cv2.RANSAC)[1]]: the inlier
      mask, [None] when no homography is found. *)
  findHomography : list Point -> list Point -> Exc (option (list Z))
}.

(** What one run does to the outside world, in order. *)
Inductive Event : Type :=
| EvSetupDebugFolder
| EvDetectAndCompute (frame_index : nat)
| EvKnnMatch
| EvFindHomography
| EvSaveVisualisation (i j : nat) (matches_mask : list MaskEntry) (frame_accepted : bool)
| EvLogStats (stats : ResultsStats).

Definition Trace : Type := list Event.

(** Computations that may raise and that extend the trace. *)
Definition M (A : Type) : Type := Trace -> Exc A * Trace.

Definition ret {A : Type} (a : A) : M A := fun tr => (inr a, tr).

Definition bind {A B : Type} (m : M A) (k : A -> M B) : M B :=
  fun tr =>
    match m tr with
    | (inl e, tr') => (inl e, tr')
    | (inr a, tr') => k a tr'
    end.

Definition lift {A : Type} (r : Exc A) : M A := fun tr => (r, tr).

Definition emit (ev : Event) : M unit := fun tr => (inr tt, tr ++ [ev]).

Notation "x <- m ;; k" := (bind m (fun x => k))
  (at level 100, m at next level, right associativity).
Notation "' p <- m ;; k" := (bind m (fun x => match x with p => k end))
  (at level 100, p pattern, m at next level, right associativity).
Notation "m ;; k" := (bind m (fun _ => k))
  (at level 100, right associativity).

(** Modelled from the spec: [Video2mesh.utils.tqdm_imap] is not among the
    sources; the aggregator "drives CorrespondenceExtractor over all sampled
    FramePairs, independently", and the results are consumed as one sequence,
    a result per input. *)
Fixpoint tqdm_imap {A B : Type} (f : A -> M B) (xs : list A) : M (list B) :=
  match xs with
  | [] => ret []
  | x :: xs' =>
      y <- f x ;;
      ys <- tqdm_imap f xs' ;;
      ret (y :: ys)
  end.

(** ** The correspondence extractor ([FeatureExtractor]) *)

(** The dataset as the extractor reads it. *)
Record Dataset `{Vision} : Type := mkDataset {
  num_frames : nat;
  rgb_dataset : nat -> Image;
  depth_dataset : nat -> DepthMap;
  mask_dataset : nat -> Mask
}.

(** The attributes [__init__] stores. *)
Record FeatureExtractor `{Vision} : Type := mkFeatureExtractor {
  dataset : Dataset;
  frame_pairs : FramePairs;
  min_features : Z;
  max_features : option Z;
  ignore_dynamic_objects : bool
}.

(** The attributes [extract_feature_points] sets before the sweep. *)
Record FrameData `{Vision} : Type := mkFrameData {
  debug_path_set : bool;
  frames : list Frame;
  depth_maps : list DepthMap;
  masks : option (list Mask)
}.

Arguments mkDataset {_} _ _ _ _.
Arguments mkFeatureExtractor {_} _ _ _ _ _.
Arguments mkFrameData {_} _ _ _ _.

(** The lists [_filter_matches] and [_filter_matches_ransac] return. *)
Record Filtered : Type := mkFiltered {
  f_points_i : list Point;
  f_points_j : list Point;
  f_depth_i : list Q;
  f_depth_j : list Q;
  f_matches_mask : list MaskEntry
}.

(** A Python argument of [__init__]: an [int], [None] or anything else. *)
Inductive PyArg : Type :=
| PyInt (z : Z)
| PyNone
| PyOther.

Inductive Warning : Type :=
| WarnMinFeaturesBelow20
| WarnMaxFeaturesBelowTwiceMin.

Module Extractor.
Section WithVision.
Context `{V : Vision}.

Definition when_warn (b : bool) (w : Warning) : list Warning :=
  if b then [w] else [].

(** [FeatureExtractor.__init__]: the object and the warnings issued, or the
    exception raised.  The matcher is constructed from literals. *)
Definition init (ds : Dataset) (pairs : FramePairs)
         (min_features_arg max_features_arg : PyArg)
         (ignore_dynamic : bool) : Exc (FeatureExtractor * list Warning) :=
  match min_features_arg with
  | PyInt mn =>
      if (mn <? 5)%Z then inl ValueError
      else
        let? mx :=
          match max_features_arg with
          | PyNone => inr None
          | PyInt mx => if (mx <=? mn)%Z then inl ValueError else inr (Some mx)
          | PyOther => inl ValueError
          end in
        let? _ := SIFT_create mx in
        inr (mkFeatureExtractor ds pairs mn mx ignore_dynamic,
             when_warn (mn <? 20)%Z WarnMinFeaturesBelow20
             ++ when_warn match mx with
                          | Some mx => (mx <? 2 * mn)%Z
                          | None => false
                          end WarnMaxFeaturesBelowTwiceMin)
  | _ => inl ValueError
  end.

(** [get_mask]: [mask[mask > 0] = 255; mask = ~mask] *)
Definition get_mask (mask : Mask) : Mask :=
  map (map (fun v => if (0 <? v)%Z then 0%Z else 255%Z)) mask.

(** [_get_frame_data]: the frames, depth maps and masks, kept with the debug
    path that [_setup_debug_folder] has set by then (a non-empty string). *)
Definition _get_frame_data (self : FeatureExtractor) : FrameData :=
  let n := num_frames (dataset self) in
  mkFrameData true
    (map (fun i => cvtColor_gray (rgb_dataset (dataset self) i)) (Py.range n))
    (map (depth_dataset (dataset self)) (Py.range n))
    (if ignore_dynamic_objects self
     then Some (map (fun i => get_mask (mask_dataset (dataset self) i)) (Py.range n))
     else None).

Definition _get_key_points_and_descriptors (self : FeatureExtractor) (fd : FrameData)
         (idx : nat) : M (list Point * Descriptors) :=
  mask <- lift (if ignore_dynamic_objects self
                then match masks fd with
                     | Some ms => let? m := Seq.index ms (Z.of_nat idx) in inr (Some m)
                     | None => inl TypeError
                     end
                else inr None) ;;
  frame <- lift (Seq.index (frames fd) (Z.of_nat idx)) ;;
  emit (EvDetectAndCompute idx) ;;
  ret (detectAndCompute (max_features self) frame mask).

(** [depth_map[round(point[1]), round(point[0])]] *)
Definition depth_at (depth_map : DepthMap) (point : Point) : Exc Q :=
  let? row := Seq.index depth_map (Num.round_half_even (snd point)) in
  Seq.index row (Num.round_half_even (fst point)).

(** The two endpoints of a candidate match and the depths looked up at their
    rounded pixel locations: [(point_i, point_j, the_depth_i, the_depth_j)]. *)
Definition Endpoints : Type := (Point * Point * Q * Q)%type.

Definition ep_point_i (e : Endpoints) : Point := fst (fst (fst e)).
Definition ep_point_j (e : Endpoints) : Point := snd (fst (fst e)).
Definition ep_depth_i (e : Endpoints) : Q := snd (fst e).
Definition ep_depth_j (e : Endpoints) : Q := snd e.

Definition endpoints (fd : FrameData) (i j : nat) (key_points_i key_points_j : list Point)
         (m : DMatch) : Exc Endpoints :=
  let? point_i := Seq.index key_points_i (queryIdx m) in
  let? depth_map_i := Seq.index (depth_maps fd) (Z.of_nat i) in
  let? the_depth_i := depth_at depth_map_i point_i in
  let? point_j := Seq.index key_points_j (trainIdx m) in
  let? depth_map_j := Seq.index (depth_maps fd) (Z.of_nat j) in
  let? the_depth_j := depth_at depth_map_j point_j in
  inr (point_i, point_j, the_depth_i, the_depth_j).

(** The ratio filter as the loop has it: [m.distance > 0.7 * n.distance] is
    false.  The product is rounded to binary64, and the comparison is false
    where a distance is NaN. *)
Definition passes_ratio (m n : DMatch) : Prop :=
  (Num.seven_tenths * distance n <? distance m)%float = false.

(** The ratio filter as the specification words it, [d1 <= 0.7 * d2], over
    the numbers the distances stand for. *)
Definition within_ratio (m n : DMatch) : Prop :=
  exists d1 d2 : Q,
    Num.value (distance m) = Some d1
    /\ Num.value (distance n) = Some d2
    /\ (d1 <= (7 # 10) * d2)%Q.

Definition nonzero_depths (e : Endpoints) : Prop :=
  ~ (ep_depth_i e == 0)%Q /\ ~ (ep_depth_j e == 0)%Q.

(** [d] is the depth of frame [idx] at the rounded location of [p]. *)
Definition measured (fd : FrameData) (idx : nat) (p : Point) (d : Q) : Prop :=
  exists depth_map,
    Seq.index (depth_maps fd) (Z.of_nat idx) = inr depth_map
    /\ depth_at depth_map p = inr d.

(** What the loop body of [_filter_matches] decides for one candidate. *)
Definition classify (fd : FrameData) (i j : nat) (key_points_i key_points_j : list Point)
         (mn : DMatch * DMatch) : Exc (option Endpoints) :=
  if (Num.seven_tenths * distance (snd mn) <? distance (fst mn))%float then inr None
  else
    let? e := endpoints fd i j key_points_i key_points_j (fst mn) in
    if Num.is_zero (ep_depth_i e) || Num.is_zero (ep_depth_j e) then inr None
    else inr (Some e).

Definition mask_entry_of (c : option Endpoints) : MaskEntry :=
  match c with
  | Some _ => (1%Z, 0%Z)
  | None => (0%Z, 0%Z)
  end.

Fixpoint somes {A : Type} (l : list (option A)) : list A :=
  match l with
  | [] => []
  | Some a :: l' => a :: somes l'
  | None :: l' => somes l'
  end.

(** The loop state after candidate [k] was classified as [c]. *)
Definition record_match (st : Filtered) (k : nat) (c : option Endpoints) : Filtered :=
  match c with
  | None => st
  | Some e =>
      mkFiltered
        (f_points_i st ++ [ep_point_i e])
        (f_points_j st ++ [ep_point_j e])
        (f_depth_i st ++ [ep_depth_i e])
        (f_depth_j st ++ [ep_depth_j e])
        (Seq.update k (fun e => (1%Z, snd e)) (f_matches_mask st))
  end.

(** One iteration of the loop of [_filter_matches]. *)
Definition filter_step (fd : FrameData) (i j : nat) (key_points_i key_points_j : list Point)
         (st : Filtered) (kmn : nat * (DMatch * DMatch)) : Exc Filtered :=
  let '(k, (m, n)) := kmn in
  if (Num.seven_tenths * distance n <? distance m)%float then inr st
  else
    let? point_i := Seq.index key_points_i (queryIdx m) in
    let? depth_map_i := Seq.index (depth_maps fd) (Z.of_nat i) in
    let? the_depth_i := depth_at depth_map_i point_i in
    let? point_j := Seq.index key_points_j (trainIdx m) in
    let? depth_map_j := Seq.index (depth_maps fd) (Z.of_nat j) in
    let? the_depth_j := depth_at depth_map_j point_j in
    if Num.is_zero the_depth_i || Num.is_zero the_depth_j then inr st
    else
      inr (mkFiltered
             (f_points_i st ++ [point_i])
             (f_points_j st ++ [point_j])
             (f_depth_i st ++ [the_depth_i])
             (f_depth_j st ++ [the_depth_j])
             (Seq.update k (fun e => (1%Z, snd e)) (f_matches_mask st))).

Definition _filter_matches (fd : FrameData) (i j : nat)
         (key_points_i key_points_j : list Point)
         (matches : list (DMatch * DMatch)) : Exc Filtered :=
  Seq.for_each_exc (Seq.enumerate matches)
    (filter_step fd i j key_points_i key_points_j)
    (mkFiltered [] [] [] [] (map (fun _ => (0%Z, 0%Z)) matches)).

(** [_filter_matches_ransac], on the non-empty lists the sufficiency check
    before it lets through. *)
Definition _filter_matches_ransac (st : Filtered) : M Filtered :=
  emit EvFindHomography ;;
  found <- lift (findHomography (f_points_i st) (f_points_j st)) ;;
  match found with
  | None => lift (inl AttributeError)
  | Some mask =>
      let is_inlier := map (fun v => (0 <? v)%Z) mask in
      let is_outlier := map negb is_inlier in
      let accepted_match_indices := Seq.argwhere is_accepted_entry (f_matches_mask st) in
      rejected <- lift (Seq.bool_index accepted_match_indices is_outlier) ;;
      let matches_mask :=
        Py.for_each rejected
          (fun mm k => Seq.update k (fun _ => (0%Z, 0%Z)) mm) (f_matches_mask st) in
      points_i <- lift (Seq.bool_index (f_points_i st) is_inlier) ;;
      points_j <- lift (Seq.bool_index (f_points_j st) is_inlier) ;;
      depth_i <- lift (Seq.bool_index (f_depth_i st) is_inlier) ;;
      depth_j <- lift (Seq.bool_index (f_depth_j st) is_inlier) ;;
      ret (mkFiltered points_i points_j depth_i depth_j matches_mask)
  end.

Definition _save_matches_visualisation (fd : FrameData) (i j : nat)
         (matches_mask : list MaskEntry) (frame_accepted : bool) : M unit :=
  if debug_path_set fd
  then emit (EvSaveVisualisation i j matches_mask frame_accepted)
  else ret tt.

Definition too_few (self : FeatureExtractor) (n : nat) : bool :=
  (Z.of_nat n <? min_features self)%Z.

Definition _get_image_features (self : FeatureExtractor) (fd : FrameData)
         (frame_pair : FramePair) : M (option (FeatureSet nat)) :=
  let '(i, j) := frame_pair in
  '(key_points_i, descriptors_i) <- _get_key_points_and_descriptors self fd i ;;
  '(key_points_j, descriptors_j) <- _get_key_points_and_descriptors self fd j ;;
  if too_few self (Nat.min (length key_points_i) (length key_points_j))
  then ret None
  else
    emit EvKnnMatch ;;
    let matches := knnMatch descriptors_i descriptors_j in
    st <- lift (_filter_matches fd i j key_points_i key_points_j matches) ;;
    if too_few self (length (f_points_i st))
    then
      _save_matches_visualisation fd i j (f_matches_mask st) false ;;
      ret None
    else
      st <- _filter_matches_ransac st ;;
      if too_few self (length (f_points_i st))
      then
        _save_matches_visualisation fd i j (f_matches_mask st) false ;;
        ret None
      else
        _save_matches_visualisation fd i j (f_matches_mask st) true ;;
        ret (Some (mkFeatureSet
                     (mkFeatureData i (f_points_i st) (f_depth_i st))
                     (mkFeatureData j (f_points_j st) (f_depth_j st)))).

(** The chunking loop of [_print_results_stats]: state [(chunks, chunk)]. *)
Definition chunk_step (covered : nat -> bool) (st : list (list nat) * list nat)
         (frame_index : nat) : list (list nat) * list nat :=
  let '(chunks, chunk) := st in
  if covered frame_index then (chunks, chunk ++ [frame_index])
  else match chunk with
       | [] => (chunks, chunk)
       | _ :: _ => (chunks ++ [chunk], [])
       end.

Definition frame_chunks (covered : nat -> bool) (n : nat) : list (list nat) :=
  let '(chunks, chunk) := Py.for_each (Py.range n) (chunk_step covered) ([], []) in
  match chunk with
  | [] => chunks
  | _ :: _ => chunks ++ [chunk]
  end.

(** The groups as the specification words them: a maximal run of covered
    indices starts at a covered index whose predecessor is not covered. *)
Definition starts_run (covered : nat -> bool) (k : nat) : bool :=
  covered k && match k with
               | 0 => true
               | S k' => negb (covered k')
               end.

Definition run_starts (covered : nat -> bool) (n : nat) : list nat :=
  filter (starts_run covered) (seq 0 n).

(** [chunk] is the run [a, a + 1, ..., a + len - 1] of covered indices, not
    preceded by a covered index. *)
Definition run_from (covered : nat -> bool) (chunk : list nat) (a len : nat) : Prop :=
  chunk = seq a len /\ 0 < len /\ starts_run covered a = true
  /\ forall k, In k chunk -> covered k = true.

(** The state of the chunking loop after the indices below [n]. *)
Record chunk_inv (covered : nat -> bool) (n : nat)
       (chunks : list (list nat)) (chunk : list nat) : Prop := {
  inv_concat : concat chunks ++ chunk = filter covered (seq 0 n);
  inv_closed :
    Forall (fun c => exists a len,
                run_from covered c a len
                /\ a + len < n /\ covered (a + len) = false) chunks;
  inv_open :
    (chunk = [] /\ match n with 0 => True | S n' => covered n' = false end)
    \/ (exists a len, run_from covered chunk a len /\ a + len = n);
  inv_count :
    length chunks + (match chunk with [] => 0 | _ :: _ => 1 end)
    = length (run_starts covered n)
}.

(** [set(index_i + index_j)], and membership in it. *)
Definition frames_with_matched_features (index_i index_j : list nat) : list nat :=
  nodup Nat.eq_dec (index_i ++ index_j).

Definition in_set (s : list nat) (x : nat) : bool :=
  if in_dec Nat.eq_dec x s then true else false.

(** [_print_results_stats]: the logged numbers; the division raises on an
    empty dataset. *)
Definition _print_results_stats (n_frames n_pairs : nat) (index_i index_j : list nat)
         (num_good_frame_pairs : nat) : Exc ResultsStats :=
  let matched := frames_with_matched_features index_i index_j in
  if n_frames =? 0 then inl ZeroDivisionError
  else
    inr (mkResultsStats num_good_frame_pairs n_pairs
           (inject_Z (Z.of_nat (length matched)) / inject_Z (Z.of_nat n_frames))%Q
           (length (frame_chunks (in_set matched) n_frames))).

(** The accumulation loop of [extract_feature_points]. *)
Record Accum : Type := mkAccum {
  index_i : list nat;
  points_i : list Point;
  depth_i : list Q;
  index_j : list nat;
  points_j : list Point;
  depth_j : list Q;
  num_good_frame_pairs : nat
}.

Definition accumulate (acc : Accum) (feature_set : option (FeatureSet nat)) : Accum :=
  match feature_set with
  | None => acc
  | Some fs =>
      let num_points := length (points (frame_i fs)) in
      mkAccum
        (index_i acc ++ repeat (index (frame_i fs)) num_points)
        (points_i acc ++ points (frame_i fs))
        (depth_i acc ++ depth (frame_i fs))
        (index_j acc ++ repeat (index (frame_j fs)) num_points)
        (points_j acc ++ points (frame_j fs))
        (depth_j acc ++ depth (frame_j fs))
        (num_good_frame_pairs acc + 1)
  end.

(** One accepted correspondence of the aggregate: the frame pair it was
    found in and its endpoints. *)
Definition Correspondence : Type := (FramePair * Endpoints)%type.

Definition feature_set_of_correspondences (cs : list Correspondence)
  : FeatureSet (list nat) :=
  mkFeatureSet
    (mkFeatureData (map (fun c => fst (fst c)) cs)
                   (map (fun c => ep_point_i (snd c)) cs)
                   (map (fun c => ep_depth_i (snd c)) cs))
    (mkFeatureData (map (fun c => snd (fst c)) cs)
                   (map (fun c => ep_point_j (snd c)) cs)
                   (map (fun c => ep_depth_j (snd c)) cs)).

(** Position [k] of a per-pair feature set holds the endpoints [e]. *)
Definition at_position (fs : FeatureSet nat) (k : nat) (e : Endpoints) : Prop :=
  nth_error (points (frame_i fs)) k = Some (ep_point_i e)
  /\ nth_error (depth (frame_i fs)) k = Some (ep_depth_i e)
  /\ nth_error (points (frame_j fs)) k = Some (ep_point_j e)
  /\ nth_error (depth (frame_j fs)) k = Some (ep_depth_j e).

(** What an accepted frame pair contributes: endpoints with non-zero depths
    that were looked up in the depth maps of the two frames. *)
Definition sound_endpoints (fd : FrameData) (i j : nat) (e : Endpoints) : Prop :=
  nonzero_depths e
  /\ measured fd i (ep_point_i e) (ep_depth_i e)
  /\ measured fd j (ep_point_j e) (ep_depth_j e).

Definition sound_correspondence (fd : FrameData) (c : Correspondence) : Prop :=
  sound_endpoints fd (fst (fst c)) (snd (fst c)) (snd c).

(** The four lists of a per-pair feature set are the projections of [es]. *)
Definition made_of (fs : FeatureSet nat) (es : list Endpoints) : Prop :=
  points (frame_i fs) = map ep_point_i es
  /\ depth (frame_i fs) = map ep_depth_i es
  /\ points (frame_j fs) = map ep_point_j es
  /\ depth (frame_j fs) = map ep_depth_j es.

(** An entry of the aggregate: found in a sampled pair that was accepted, at
    one position of that pair's feature set. *)
Definition accepted_correspondence (self : FeatureExtractor) (fd : FrameData)
         (c : Correspondence) : Prop :=
  In (fst c) (frame_pairs self)
  /\ exists tr0 fs tr1 k,
      _get_image_features self fd (fst c) tr0 = (inr (Some fs), tr1)
      /\ index (frame_i fs) = fst (fst c)
      /\ index (frame_j fs) = snd (fst c)
      /\ at_position fs k (snd c).

Definition feature_set_of (acc : Accum) : FeatureSet (list nat) :=
  mkFeatureSet
    (mkFeatureData (index_i acc) (points_i acc) (depth_i acc))
    (mkFeatureData (index_j acc) (points_j acc) (depth_j acc)).

Definition extract_feature_points (self : FeatureExtractor) : M (FeatureSet (list nat)) :=
  emit EvSetupDebugFolder ;;
  let fd := _get_frame_data self in
  results <- tqdm_imap (_get_image_features self fd) (frame_pairs self) ;;
  let acc := Py.for_each results accumulate (mkAccum [] [] [] [] [] [] 0) in
  stats <- lift (_print_results_stats (num_frames (dataset self))
                   (length (frame_pairs self))
                   (index_i acc) (index_j acc) (num_good_frame_pairs acc)) ;;
  emit (EvLogStats stats) ;;
  ret (feature_set_of acc).

End WithVision.
End Extractor.

(** ** Camera geometry ([Video2mesh/geometry.py]) *)

Module Geometry.

Local Open Scope Q_scope.

Definition Vec3 : Type := (Q * Q * Q)%type.

(** A (3, 3) array, by rows. *)
Definition Mat3 : Type := (Vec3 * Vec3 * Vec3)%type.

Inductive DType : Type :=
| Int32
| Float64.

Definition is_integer (dtype : DType) : bool :=
  match dtype with
  | Int32 => true
  | Float64 => false
  end.

Definition dot (a b : Vec3) : Q :=
  let '(a0, a1, a2) := a in
  let '(b0, b1, b2) := b in
  a0 * b0 + a1 * b1 + a2 * b2.

(** [A @ v] *)
Definition mat_vec (A : Mat3) (v : Vec3) : Vec3 :=
  let '(r0, r1, r2) := A in
  (dot r0 v, dot r1 v, dot r2 v).

(** [A.T] *)
Definition transpose (A : Mat3) : Mat3 :=
  let '((a00, a01, a02), (a10, a11, a12), (a20, a21, a22)) := A in
  ((a00, a10, a20), (a01, a11, a21), (a02, a12, a22)).

(** [A @ B] *)
Definition mat_mul (A B : Mat3) : Mat3 :=
  let '(c0, c1, c2) := transpose B in
  let '(r0, r1, r2) := A in
  ((dot r0 c0, dot r0 c1, dot r0 c2),
   (dot r1 c0, dot r1 c1, dot r1 c2),
   (dot r2 c0, dot r2 c1, dot r2 c2)).

Definition identity : Mat3 := ((1, 0, 0), (0, 1, 0), (0, 0, 1)).

Definition vec_add (a b : Vec3) : Vec3 :=
  let '(a0, a1, a2) := a in
  let '(b0, b1, b2) := b in
  (a0 + b0, a1 + b1, a2 + b2).

Definition vec_sub (a b : Vec3) : Vec3 :=
  let '(a0, a1, a2) := a in
  let '(b0, b1, b2) := b in
  (a0 - b0, a1 - b1, a2 - b2).

Definition vec_scale (c : Q) (a : Vec3) : Vec3 :=
  let '(a0, a1, a2) := a in
  (c * a0, c * a1, c * a2).

Definition det (A : Mat3) : Q :=
  let '((a, b, c), (d, e, f), (g, h, i)) := A in
  a * (e * i - f * h) - b * (d * i - f * g) + c * (d * h - e * g).

(** [np.linalg.inv(A)] over exact arithmetic: [LinAlgError] on a singular
    matrix, the inverse otherwise.  numpy inverts in binary64 and raises at
    an exactly zero pivot of the factorisation, which rounding makes differ
    from [det A == 0] in either direction; what is stated about the failure
    of the inversion therefore takes the inversion as a parameter
    ([image2world_with]). *)
Definition inv (A : Mat3) : Exc Mat3 :=
  let '((a, b, c), (d, e, f), (g, h, i)) := A in
  let dt := det A in
  if Qeq_bool dt 0 then inl LinAlgError
  else inr (((e * i - f * h) / dt, (c * h - b * i) / dt, (b * f - c * e) / dt),
            ((f * g - d * i) / dt, (a * i - c * g) / dt, (c * d - a * f) / dt),
            ((d * h - e * g) / dt, (b * g - a * h) / dt, (a * e - b * d) / dt)).

(** Equality of arrays is component-wise equality of numbers. *)
Definition vec_eq (a b : Vec3) : Prop :=
  let '(a0, a1, a2) := a in
  let '(b0, b1, b2) := b in
  a0 == b0 /\ a1 == b1 /\ a2 == b2.

Definition mat_eq (A B : Mat3) : Prop :=
  let '(a0, a1, a2) := A in
  let '(b0, b1, b2) := B in
  vec_eq a0 b0 /\ vec_eq a1 b1 /\ vec_eq a2 b2.

(** A rotation matrix: [R.T @ R] is the identity. *)
Definition orthonormal (R : Mat3) : Prop :=
  mat_eq (mat_mul (transpose R) R) identity.

(** [K @ (R @ points.T + t)], one column. *)
Definition camera_space (K R : Mat3) (t p : Vec3) : Vec3 :=
  mat_vec K (vec_add (mat_vec R p) t).

Definition depth_of (K R : Mat3) (t p : Vec3) : Q :=
  snd (camera_space K R t p).

(** The cast of a rounded float64 to [np.int32].  Outside the range of the
    type the conversion is undefined in C; numpy on x86-64 yields the least
    integer, [-2**31]. *)
Definition int32_cast (z : Z) : Z :=
  if ((- 2 ^ 31 <=? z) && (z <? 2 ^ 31))%Z then z else (- 2 ^ 31)%Z.

(** [np.round] followed by the cast to the integer type. *)
Definition to_dtype (dtype : DType) (x : Q) : Q :=
  if is_integer dtype then inject_Z (int32_cast (Num.round_half_even x)) else x.

(** [world2image]: the pixel coordinates and the depths.  The divisions are
    those of the field; where [depth] or [scale_factor] is zero numpy yields
    infinities or NaN instead. *)
Definition world2image (points : list Vec3) (K R : Mat3) (t : Vec3)
           (scale_factor : Q) (dtype : DType) : list (Q * Q) * list Q :=
  let camera_space_coords := map (camera_space K R t) points in
  let depth := map (fun c : Vec3 => snd c) camera_space_coords in
  let pixel_coords :=
    map (fun c : Vec3 =>
           let '(x, y, d) := c in (x / d / scale_factor, y / d / scale_factor))
        camera_space_coords in
  (map (fun xy : Q * Q => (to_dtype dtype (fst xy), to_dtype dtype (snd xy))) pixel_coords,
   depth).

(** Modelled from the spec: [Video2mesh.utils.validate_shape] is not among
    the sources; imageToWorld "requires len(depths) == len(points2d); fails
    with ShapeError otherwise". *)
Definition validate_depth_shape (points : list (Q * Q)) (depth : list Q) : Exc unit :=
  if (length depth =? length points)%nat then inr tt else inl ShapeError.

(** [image2world], with [np.linalg.inv] as the parameter [linalg_inv]. *)
Definition image2world_with (linalg_inv : Mat3 -> Exc Mat3)
           (points : list (Q * Q)) (depth : list Q) (K R : Mat3) (t : Vec3)
           (scale_factor : Q) : Exc (list Vec3) :=
  let? _ := validate_depth_shape points depth in
  let points2d := map (fun xy : Q * Q => (fst xy * scale_factor, snd xy * scale_factor, 1)) points in
  let? K_inv := linalg_inv K in
  let pixel_i := map (mat_vec K_inv) points2d in
  let pixel_world :=
    map (fun dp : Q * Vec3 =>
           mat_vec (transpose R) (vec_sub (vec_scale (fst dp) (snd dp)) t))
        (combine depth pixel_i) in
  inr pixel_world.

(** [image2world] over exact arithmetic. *)
Definition image2world (points : list (Q * Q)) (depth : list Q) (K R : Mat3) (t : Vec3)
           (scale_factor : Q) : Exc (list Vec3) :=
  image2world_with inv points depth K R t scale_factor.

(** What [image2world] computes from one column [c] of the camera space
    coordinates of [world2image], for the statements below. *)
Definition back_projected (K_inv R : Mat3) (t : Vec3) (s : Q) (c : Vec3) : Vec3 :=
  mat_vec (transpose R)
    (vec_sub
       (vec_scale (snd c)
                  (mat_vec K_inv (fst (fst c) / snd c / s * s, snd (fst c) / snd c / s * s, 1)))
       t).

End Geometry.

(** A camera and a small point cloud to run the projections on. *)
Module GeometryScene.
Import Geometry.
Local Open Scope Q_scope.

Definition K : Mat3 := ((2, 0, 1), (0, 2, 1), (0, 0, 1)).
Definition R : Mat3 := ((0, -1, 0), (1, 0, 0), (0, 0, 1)).
Definition t : Vec3 := (1, 2, 3).
Definition cloud : list Vec3 := [(1, 1, 1); (0, 2, 5)].

End GeometryScene.

(** ** A small scene to run the extractor on

    Three frames; frames 0 and 1 show eight key points each, frame 2 only two.
    The matcher pairs key point [k] with key point [k]; candidate 3 is
    ambiguous, key point 5 lies on a pixel without depth, and the homography
    fit rejects the fourth of the six surviving matches. *)
Module Scene.

Local Open Scope Q_scope.

Definition key_points8 : list Point :=
  [(2 # 10, 1 # 10); (14 # 10, 0); (2, 4 # 10); (3, 0);
   (0, 1); (1, 1); (5 # 2, 12 # 10); (3, 16 # 10)].

Definition key_points2 : list Point := [(0, 0); (1, 1)].

Definition depth_map : DepthMap :=
  [[1; 2; 3; 4]; [5; 0; 7; 8]; [9; 10; 11; 12]].

Definition candidates : list (DMatch * DMatch) :=
  map (fun k : nat =>
         (mkDMatch (Z.of_nat k) (Z.of_nat k) (if (k =? 3)%nat then 3 else 1)%float,
          mkDMatch (Z.of_nat k) (Z.of_nat ((k + 1) mod 8))
                   (if (k =? 3)%nat then 4 else 2)%float))
      (seq 0 8).

(** A candidate at the boundary of the ratio test, between key points 0: the
    distances are 63 and 90. *)
Definition boundary_candidate : DMatch * DMatch :=
  (mkDMatch 0 0 63%float, mkDMatch 0 1 90%float).

#[local] Instance vision : Vision := {|
  Image := nat;
  Frame := nat;
  Descriptors := nat;
  SIFT_create := fun nfeatures =>
    match nfeatures with
    | Some n => if (n <? 2 ^ 31)%Z then inr tt else inl OverflowError
    | None => inr tt
    end;
  cvtColor_gray := fun image => image;
  detectAndCompute := fun _ frame _ =>
    (if (frame <? 2)%nat then key_points8 else key_points2, frame);
  knnMatch := fun _ _ => candidates;
  findHomography := fun _ _ => inr (Some [1; 1; 1; 0; 1; 1]%Z)
|}.

Definition data : Dataset :=
  mkDataset 3 (fun index => index) (fun _ => depth_map) (fun _ => [[0; 1]; [0; 0]]%Z).

Definition extractor_and_warnings : Exc (FeatureExtractor * list Warning) :=
  Extractor.init data [(0, 1); (1, 2)]%nat (PyInt 5) PyNone true.

Definition extractor : FeatureExtractor :=
  mkFeatureExtractor data [(0, 1); (1, 2)]%nat 5 None true.

(** The same scene with a negative entry in the depth maps, under key
    point 6. *)
Definition signed_depth_map : DepthMap :=
  [[1; 2; 3; 4]; [5; 0; -7; 8]; [9; 10; 11; 12]].

Definition signed_data : Dataset :=
  mkDataset 3 (fun index => index) (fun _ => signed_depth_map)
            (fun _ => [[0; 1]; [0; 0]]%Z).

Definition signed_extractor : FeatureExtractor :=
  mkFeatureExtractor signed_data [(0, 1); (1, 2)]%nat 5 None true.

Definition kept_points : list Point :=
  [(2 # 10, 1 # 10); (14 # 10, 0); (2, 4 # 10); (5 # 2, 12 # 10); (3, 16 # 10)].

Definition events (mask : list MaskEntry) : Trace :=
  [EvSetupDebugFolder; EvDetectAndCompute 0; EvDetectAndCompute 1; EvKnnMatch;
   EvFindHomography; EvSaveVisualisation 0 1 mask true;
   EvDetectAndCompute 1; EvDetectAndCompute 2;
   EvLogStats (mkResultsStats 1 2 (2 # 3) 1)].

Definition final_mask : list MaskEntry :=
  [(1, 0); (1, 0); (1, 0); (0, 0); (0, 0); (0, 0); (1, 0); (1, 0)]%Z.

Definition aggregate (d : Q) : FeatureSet (list nat) :=
  mkFeatureSet
    (mkFeatureData [0; 0; 0; 0; 0]%nat kept_points [1; 2; 3; d; 12])
    (mkFeatureData [1; 1; 1; 1; 1]%nat kept_points [1; 2; 3; d; 12]).

End Scene.

(** ** What the extractor does around one pair *)

Module Pair.

(** The event [_save_matches_visualisation] adds, if any. *)
Definition viz_events `{Vision} (fd : FrameData) (i j : nat)
           (matches_mask : list MaskEntry) (frame_accepted : bool) : list Event :=
  if debug_path_set fd
  then [EvSaveVisualisation i j matches_mask frame_accepted]
  else [].

(** The number of entries of [matches_mask] that mark a good match. *)
Definition good_matches (matches_mask : list MaskEntry) : nat :=
  length (filter is_accepted_entry matches_mask).

(** The number of inliers of a homography mask. *)
Definition inliers (mask : list Z) : nat :=
  length (filter (fun v => (0 <? v)%Z) mask).

(** [matches_mask] with its good matches marked one by one as the inlier
    flags say, for the statements below. *)
Fixpoint undo_outliers (matches_mask : list MaskEntry) (is_inlier : list bool)
  : list MaskEntry :=
  match matches_mask with
  | [] => []
  | e :: rest =>
      if is_accepted_entry e
      then match is_inlier with
           | b :: is_inlier' =>
               (if b then e else (0%Z, 0%Z)) :: undo_outliers rest is_inlier'
           | [] => e :: rest
           end
      else e :: undo_outliers rest is_inlier
  end.

End Pair.

(** The steps of the extractor on the pair [(0, 1)] of the scene. *)
Module SceneSteps.

Local Open Scope Q_scope.

Definition survivors : list Point :=
  [(2 # 10, 1 # 10); (14 # 10, 0); (2, 4 # 10); (0, 1); (5 # 2, 12 # 10); (3, 16 # 10)].

Definition filtered : Filtered :=
  mkFiltered survivors survivors [1; 2; 3; 5; 7; 12] [1; 2; 3; 5; 7; 12]
             [(1, 0); (1, 0); (1, 0); (0, 0); (1, 0); (0, 0); (1, 0); (1, 0)]%Z.

Definition inliers : Filtered :=
  mkFiltered Scene.kept_points Scene.kept_points [1; 2; 3; 7; 12] [1; 2; 3; 7; 12]
             Scene.final_mask.

Definition accepted : FeatureSet nat :=
  mkFeatureSet (mkFeatureData 0%nat Scene.kept_points [1; 2; 3; 7; 12])
               (mkFeatureData 1%nat Scene.kept_points [1; 2; 3; 7; 12]).

Definition accepted_events : Trace :=
  [EvDetectAndCompute 0; EvDetectAndCompute 1; EvKnnMatch; EvFindHomography;
   EvSaveVisualisation 0 1 Scene.final_mask true].

End SceneSteps.

(** ** The sweep over all pairs *)

Module Sweep.

(** The state of the accumulation loop after [c] results. *)
Record sweep_inv `{Vision} (self : FeatureExtractor) (c : nat) (acc : Extractor.Accum) : Prop := {
  sweep_good : Extractor.num_good_frame_pairs acc <= c;
  sweep_size :
    (min_features self * Z.of_nat (Extractor.num_good_frame_pairs acc)
     <= Z.of_nat (length (Extractor.index_i acc)))%Z;
  sweep_index_i : Forall (fun i => i < num_frames (dataset self)) (Extractor.index_i acc);
  sweep_index_j : Forall (fun j => j < num_frames (dataset self)) (Extractor.index_j acc)
}.

End Sweep.

(** Extractors on the scene's camera for the edge cases: a dataset without
    frames, and no frame pairs. *)
Module EdgeScenes.

Definition unloaded : FeatureExtractor :=
  mkFeatureExtractor
    (mkDataset (H := Scene.vision) 0 (fun index => index) (fun _ => Scene.depth_map)
               (fun _ => []))
    [(0, 1)] 5 None true.

Definition idle : FeatureExtractor :=
  mkFeatureExtractor Scene.data [] 5 None true.

End EdgeScenes.

(** ** The driver ([PoseOptimiser]) *)

(** The arguments pass the two checks of [__init__], and [mx] is what is
    then stored as [max_features], for the statements below. *)
Module Checks.

Definition checked_arguments (min_arg max_arg : PyArg) (mn : Z) (mx : option Z) : Prop :=
  min_arg = PyInt mn
  /\ (5 <= mn)%Z
  /\ (max_arg = PyNone /\ mx = None
      \/ exists z, max_arg = PyInt z /\ (mn < z)%Z /\ mx = Some z).

End Checks.

Module Optimiser.
Section WithVision.
Context `{V : Vision}.

(** [PoseOptimiser.extract_feature_points]: the feature set, and the warnings
    the constructor issued. *)
Definition extract_feature_points (ds : Dataset) (frame_pairs : FramePairs)
           (min_features max_features : PyArg) (mask_features : bool)
  : M (FeatureSet (list nat) * list Warning) :=
  '(feature_extractor, warnings) <-
    lift (Extractor.init ds frame_pairs min_features max_features mask_features) ;;
  feature_set <- Extractor.extract_feature_points feature_extractor ;;
  ret (feature_set, warnings).

(** [PoseOptimiser.run]: [get_fixed_parameters], [get_optimisation_parameters]
    and [optimise_pose_data] are empty, so the camera matrix and trajectory of
    the dataset, [camera], are returned as they are. *)
Definition run {Camera : Type} (camera : Camera) (ds : Dataset)
           (frame_sampling : option FrameSamplingMode) (mask_features : bool)
           (min_features_per_frame max_features_per_frame : PyArg)
  : M (Camera * list Warning) :=
  frame_pairs <- lift (Sampler.sample_frame_pairs (num_frames ds) frame_sampling) ;;
  '(feature_set, warnings) <-
    extract_feature_points ds frame_pairs min_features_per_frame max_features_per_frame
                           mask_features ;;
  ret (camera, warnings).

End WithVision.
End Optimiser.

(** ** Poses and point clouds ([Video2mesh/geometry.py]) *)

Module Pose.

Local Open Scope Q_scope.

(** A 2D array, by rows. *)
Definition Array2 : Type := list (list Q).

Definition rows (A : Geometry.Mat3) : Array2 :=
  let '((a, b, c), (d, e, f), (g, h, i)) := A in
  [[a; b; c]; [d; e; f]; [g; h; i]].

(** Modelled from the spec: [Video2mesh.utils.validate_shape] is not among
    the sources; poseVectorToMatrix "Fails with `ShapeError` if the input is
    not length 6", and decomposePose fails with it for a matrix that is not
    4 by 4. *)
Definition validate_shape_6 (pose : list Q) : Exc unit :=
  if (length pose =? 6)%nat then inr tt else inl ShapeError.

(** Modelled from the spec: see [validate_shape_6]. *)
Definition validate_shape_4x4 (pose : Array2) : Exc unit :=
  if (length pose =? 4)%nat && forallb (fun row => (length row =? 4)%nat) pose
  then inr tt else inl ShapeError.

(** [np.hstack((a, b))] of two 2D arrays: they must have as many rows. *)
Definition hstack (a b : Array2) : Exc Array2 :=
  if (length a =? length b)%nat
  then inr (map (fun rs : list Q * list Q => fst rs ++ snd rs) (combine a b))
  else inl ValueError.

(** [np.vstack((a, row))] of a 2D array and a 1D array: the rows of [a] must
    be as long as [row]. *)
Definition vstack (a : Array2) (row : list Q) : Exc Array2 :=
  if forallb (fun r => (length r =? length row)%nat) a
  then inr (a ++ [row])
  else inl ValueError.

(** [a[-1, -1] = v] *)
Definition set_last (a : Array2) (v : Q) : Exc Array2 :=
  match rev a with
  | [] => inl IndexError
  | last_row :: front =>
      match rev last_row with
      | [] => inl IndexError
      | _ :: row_front => inr (rev front ++ [rev row_front ++ [v]])
      end
  end.

(** [pose_vec2mat]; [Rodrigues] is [cv2.Rodrigues(r)[0]], the (3, 3) rotation
    matrix of a rotation vector. *)
Definition pose_vec2mat (Rodrigues : list Q -> Geometry.Mat3) (pose : list Q) : Exc Array2 :=
  let? _ := validate_shape_6 pose in
  let R := rows (Rodrigues (firstn 3 pose)) in
  let t := map (fun x => [x]) (skipn 3 pose) in
  let? M := hstack R t in
  let? M := vstack M [0; 0; 0; 0] in
  set_last M 1.

(** [get_pose_components]: [(pose[:3, :3], pose[:3, 3:])] *)
Definition get_pose_components (pose : Array2) : Exc (Array2 * Array2) :=
  let? _ := validate_shape_4x4 pose in
  inr (map (firstn 3) (firstn 3 pose), map (skipn 3) (firstn 3 pose)).

End Pose.

Module BackProjection.

Local Open Scope Q_scope.

(** The point [image2world] returns for the pixel [uv] with depth [d], given
    the inverse of [K], for the statements below. *)
Definition unprojected (K_inv R : Geometry.Mat3) (t : Geometry.Vec3) (s d : Q) (uv : Q * Q)
  : Geometry.Vec3 :=
  Geometry.mat_vec (Geometry.transpose R)
    (Geometry.vec_sub
       (Geometry.vec_scale d (Geometry.mat_vec K_inv (fst uv * s, snd uv * s, 1)))
       t).

End BackProjection.

Module Cloud.

Local Open Scope Q_scope.

(** [mask & (depth > 0.0)], for a boolean mask and a depth map of one
    shape. *)
Definition valid_pixels (depth : list (list Q)) (mask : list (list bool))
  : list (list bool) :=
  map (fun md : list bool * list Q =>
         map (fun m_d : bool * Q => fst m_d && Num.gt (snd m_d) 0)
             (combine (fst md) (snd md)))
      (combine mask depth).

(** [V, U = valid_pixels.nonzero()]: the [(row, column)] pairs of the true
    entries, row by row. *)
Definition nonzero (a : list (list bool)) : list (nat * nat) :=
  flat_map (fun v_row : nat * list bool =>
              map (fun u => (fst v_row, u)) (Seq.argwhere (fun b : bool => b) (snd v_row)))
           (Seq.enumerate a).

(** [depth[valid_pixels]]: the entries at the true positions, row by row. *)
Definition masked (depth : list (list Q)) (valid : list (list bool)) : list Q :=
  flat_map (fun dv : list Q * list bool => Seq.select (fst dv) (snd dv))
           (combine depth valid).

(** [points2d = np.array([U, V]).T] *)
Definition points2d (valid : list (list bool)) : list (Q * Q) :=
  map (fun vu : nat * nat => (inject_Z (Z.of_nat (snd vu)), inject_Z (Z.of_nat (fst vu))))
      (nonzero valid).

(** [point_cloud_from_depth], with [np.linalg.inv] as the parameter
    [linalg_inv]. *)
Definition point_cloud_from_depth_with (linalg_inv : Geometry.Mat3 -> Exc Geometry.Mat3)
           (depth : list (list Q)) (mask : list (list bool))
           (K R : Geometry.Mat3) (t : Geometry.Vec3) (scale_factor : Q)
  : Exc (list Geometry.Vec3) :=
  let valid := valid_pixels depth mask in
  Geometry.image2world_with linalg_inv (points2d valid) (masked depth valid)
                            K R t scale_factor.


(** The two arrays have one shape. *)
Definition same_shape (depth : list (list Q)) (mask : list (list bool)) : Prop :=
  Forall2 (fun (d : list Q) (m : list bool) => length d = length m) depth mask.

End Cloud.

Module Pixel.

Local Open Scope Q_scope.

(** Equality of pixel coordinates. *)
Definition pixel_eq (a b : Q * Q) : Prop := fst a == fst b /\ snd a == snd b.

(** [z] is an integer nearest to [x]. *)
Definition nearest (z : Z) (x : Q) : Prop :=
  x - (1 # 2) <= inject_Z z <= x + (1 # 2).

(** The rounded coordinate is in the range of [np.int32]. *)
Definition fits_int32 (x : Q) : Prop :=
  (- 2 ^ 31 <= Num.round_half_even x < 2 ^ 31)%Z.

(** [x] lies halfway between two integers. *)
Definition halfway (x : Q) : Prop := x - inject_Z (Qfloor x) == 1 # 2.

End Pixel.

(** A pose vector, a stand-in for [cv2.Rodrigues] (the quarter turn of the
    scene's camera whatever the rotation vector), a singular camera matrix
    and a small depth map with its mask. *)
Module GeometryEdges.

Local Open Scope Q_scope.

Definition pose : list Q := [0; 0; 1; 1; 2; 3].

Definition quarter_turn (r : list Q) : Geometry.Mat3 := GeometryScene.R.

Definition singular : Geometry.Mat3 := ((1, 2, 3), (2, 4, 6), (0, 0, 1)).

Definition pixels : list (Q * Q) := [(2, 5); (3 # 2, 3)].

Definition depths : list Q := [4; 8].

Definition depth : list (list Q) := [[1; 0; 2]; [-1; 3; 4]].

Definition mask : list (list bool) := [[true; true; false]; [true; true; true]].

End GeometryEdges.
(** ** Facts about loops that append *)

Section AppendLoops.
Context {A B : Type}.

Lemma for_each_append_one (g : A -> B) (xs : list A) (acc : list B) :
  Py.for_each xs (fun acc x => acc ++ [g x]) acc = acc ++ map g xs.
Proof.
  unfold Py.for_each. revert acc.
  induction xs as [|x xs IH]; intro acc; simpl.
  - now rewrite app_nil_r.
  - rewrite IH, <- app_assoc. reflexivity.
Qed.

Lemma for_each_append_many (f : A -> list B) (xs : list A) (acc : list B) :
  Py.for_each xs (fun acc x => acc ++ f x) acc = acc ++ flat_map f xs.
Proof.
  unfold Py.for_each. revert acc.
  induction xs as [|x xs IH]; intro acc; simpl.
  - now rewrite app_nil_r.
  - rewrite IH, <- app_assoc. reflexivity.
Qed.

Lemma for_each_append_if (keep : A -> bool) (g : A -> B) (xs : list A) (acc : list B) :
  Py.for_each xs (fun acc x => if keep x then acc ++ [g x] else acc) acc
  = acc ++ map g (filter keep xs).
Proof.
  unfold Py.for_each. revert acc.
  induction xs as [|x xs IH]; intro acc; simpl.
  - now rewrite app_nil_r.
  - rewrite IH. destruct (keep x); simpl; [rewrite <- app_assoc|]; reflexivity.
Qed.

Lemma for_each_ext {S : Type} (f g : S -> A -> S) (xs : list A) (s : S) :
  (forall s x, In x xs -> f s x = g s x) ->
  Py.for_each xs f s = Py.for_each xs g s.
Proof.
  unfold Py.for_each. revert s.
  induction xs as [|x xs IH]; intros s H; simpl; [reflexivity|].
  rewrite (H s x (or_introl eq_refl)). apply IH.
  intros; apply H; now right.
Qed.

Lemma NoDup_flat_map (f : A -> list B) (xs : list A) :
  NoDup xs ->
  (forall x, In x xs -> NoDup (f x)) ->
  (forall x y z, In x xs -> In y xs -> In z (f x) -> In z (f y) -> x = y) ->
  NoDup (flat_map f xs).
Proof.
  induction xs as [|x xs IH]; intros Hnd Hf Hdisj; simpl.
  - constructor.
  - inversion Hnd as [|? ? Hnotin Hnd']; subst.
    apply NoDup_app.
    + apply Hf; now left.
    + apply IH; auto.
      * intros; apply Hf; now right.
      * intros a b z Ha Hb; apply Hdisj; now right.
    + intros z Hz Hz'. apply in_flat_map in Hz' as [y [Hy Hzy]].
      assert (x = y) by (apply (Hdisj x y z); auto; [now left | now right]).
      subst. contradiction.
Qed.

End AppendLoops.

(** ** The frame pair sampler *)

Section SamplerFacts.

Lemma shl1_pow (level : nat) : Py.shl1 level = 2 ^ level.
Proof. unfold Py.shl1. apply Nat.shiftl_1_l. Qed.

Lemma pow2_pos (level : nat) : 0 < 2 ^ level.
Proof. apply Nat.neq_0_lt_0, Nat.pow_nonzero. discriminate. Qed.

(** The items of [range(0, n, step)] are the multiples of [step] below [n]. *)
Lemma in_range3 (n step x : nat) :
  0 < step ->
  In x (Py.range3 0 n step) <-> exists k, x = k * step /\ x < n.
Proof.
  intro Hstep. unfold Py.range3. rewrite in_map_iff. rewrite Nat.sub_0_r.
  split.
  - intros [k [Hx Hk]]. apply in_seq in Hk. exists k. split; [lia|].
    destruct Hk as [_ Hk]. simpl in Hk.
    assert (Hle : S k <= (n + (step - 1)) / step) by lia.
    apply (Nat.mul_le_mono_l _ _ step) in Hle.
    pose proof (Nat.Div0.mul_div_le (n + (step - 1)) step) as Hd.
    nia.
  - intros [k [Hx Hlt]]. exists k. split; [lia|].
    apply in_seq. split; [lia|]. simpl.
    apply Nat.div_le_lower_bound with (q := S k); [lia|]. nia.
Qed.

Lemma range3_NoDup (n step : nat) : 0 < step -> NoDup (Py.range3 0 n step).
Proof.
  intro Hstep. unfold Py.range3.
  apply Injective_map_NoDup; [|apply seq_NoDup].
  intros a b Hab. nia.
Qed.

Lemma exhaustive_eq (n : nat) : Sampler.exhaustive n = Sampler.exhaustive_spec n.
Proof.
  unfold Sampler.exhaustive, Sampler.exhaustive_spec, Py.range, Py.range2.
  rewrite (for_each_ext _
             (fun acc i => acc ++ map (fun j => (i, j)) (seq (i + 1) (n - (i + 1))))).
  - now rewrite for_each_append_many.
  - intros s i _. apply for_each_append_one.
Qed.

Lemma consecutive_eq (n : nat) :
  Sampler.consecutive n = map (fun i => (i, i + 1)) (seq 0 (n - 1)).
Proof.
  unfold Sampler.consecutive, Py.range. now rewrite for_each_append_one.
Qed.

Lemma hierarchical_levels_eq (n l : nat) :
  Sampler.hierarchical_levels n l = flat_map (Sampler.level_spec n) (seq 0 (l + 1)).
Proof.
  unfold Sampler.hierarchical_levels, Py.range.
  rewrite (for_each_ext _ (fun acc level => acc ++ Sampler.level_spec n level)).
  - now rewrite for_each_append_many.
  - intros s level _. cbv zeta. rewrite shl1_pow. unfold Sampler.level_spec.
    rewrite <- for_each_append_if. apply for_each_ext.
    intros acc start _.
    destruct (Nat.leb_spec n (start + 2 ^ level)), (Nat.ltb_spec (start + 2 ^ level) n);
      try reflexivity; lia.
Qed.

Lemma hierarchical_eq (n : nat) :
  2 <= n -> Sampler.hierarchical n = inr (Sampler.hierarchical_spec n).
Proof.
  intro Hn. unfold Sampler.hierarchical, Sampler.max_level.
  destruct n as [|[|n]]; try lia.
  now rewrite hierarchical_levels_eq.
Qed.

Lemma in_exhaustive (n i j : nat) :
  In (i, j) (Sampler.exhaustive n) <-> i < j < n.
Proof.
  rewrite exhaustive_eq. unfold Sampler.exhaustive_spec.
  rewrite in_flat_map. split.
  - intros [a [Ha Hin]]. apply in_map_iff in Hin as [b [Hb Hin]].
    inversion Hb; subst. apply in_seq in Ha, Hin. lia.
  - intros H. exists i. split; [apply in_seq; lia|].
    apply in_map_iff. exists j. split; [reflexivity|]. apply in_seq. lia.
Qed.

Lemma exhaustive_NoDup (n : nat) : NoDup (Sampler.exhaustive n).
Proof.
  rewrite exhaustive_eq. unfold Sampler.exhaustive_spec.
  apply NoDup_flat_map.
  - apply seq_NoDup.
  - intros i _. apply Injective_map_NoDup; [|apply seq_NoDup].
    intros a b Hab. now inversion Hab.
  - intros x y [a b] _ _ Hx Hy.
    apply in_map_iff in Hx as [? [Hx _]], Hy as [? [Hy _]].
    inversion Hx; inversion Hy; subst. congruence.
Qed.

Lemma exhaustive_rows_length (n k a : nat) :
  a + k = n ->
  2 * length (flat_map (fun i => map (fun j => (i, j)) (seq (i + 1) (n - (i + 1))))
                       (seq a k)) = k * (k - 1).
Proof.
  revert a. induction k as [|k IH]; intros a Hn; simpl; [reflexivity|].
  rewrite length_app, length_map, length_seq.
  specialize (IH (S a) ltac:(lia)). nia.
Qed.

Lemma exhaustive_length (n : nat) : length (Sampler.exhaustive n) = n * (n - 1) / 2.
Proof.
  rewrite exhaustive_eq. unfold Sampler.exhaustive_spec.
  pose proof (@exhaustive_rows_length n n 0 eq_refl) as H.
  rewrite <- H, Nat.mul_comm. symmetry. apply Nat.div_mul. discriminate.
Qed.

Lemma in_level_spec (n level a b : nat) :
  In (a, b) (Sampler.level_spec n level) <->
  exists k, a = k * 2 ^ level /\ b = a + 2 ^ level /\ b < n.
Proof.
  unfold Sampler.level_spec. rewrite in_map_iff. split.
  - intros [s [Hs Hin]]. inversion Hs; subst.
    apply filter_In in Hin as [Hin Hlt].
    apply in_range3 in Hin as [k [Hk _]]; [|apply pow2_pos].
    apply Nat.ltb_lt in Hlt. exists k. auto.
  - intros [k [Ha [Hb Hlt]]]. exists a. split; [now subst|].
    apply filter_In. split.
    + apply in_range3; [apply pow2_pos|]. exists k. split; [assumption|lia].
    + apply Nat.ltb_lt. lia.
Qed.

Lemma level_spec_NoDup (n level : nat) : NoDup (Sampler.level_spec n level).
Proof.
  unfold Sampler.level_spec.
  apply Injective_map_NoDup.
  - intros a b Hab. now inversion Hab.
  - apply NoDup_filter, range3_NoDup, pow2_pos.
Qed.

Lemma in_hierarchical_spec (n a b : nat) :
  In (a, b) (Sampler.hierarchical_spec n) <->
  exists level k,
    level <= Nat.log2 (n - 1) /\ a = k * 2 ^ level /\ b = a + 2 ^ level /\ b < n.
Proof.
  unfold Sampler.hierarchical_spec. rewrite in_flat_map. split.
  - intros [level [Hl Hin]]. apply in_seq in Hl.
    apply in_level_spec in Hin as [k Hk]. exists level, k. split; [lia|assumption].
  - intros [level [k [Hl Hk]]]. exists level. split; [apply in_seq; lia|].
    apply in_level_spec. now exists k.
Qed.

Lemma hierarchical_spec_NoDup (n : nat) : NoDup (Sampler.hierarchical_spec n).
Proof.
  unfold Sampler.hierarchical_spec. apply NoDup_flat_map.
  - apply seq_NoDup.
  - intros; apply level_spec_NoDup.
  - intros x y [a b] _ _ Hx Hy.
    apply in_level_spec in Hx as [k [_ [Hx _]]], Hy as [k' [_ [Hy _]]].
    apply (Nat.pow_inj_r 2); lia.
Qed.

Lemma hierarchical_spec_lt (n a b : nat) :
  In (a, b) (Sampler.hierarchical_spec n) -> a < b < n.
Proof.
  intro H. apply in_hierarchical_spec in H as [level [k [_ [_ [Hb Hlt]]]]].
  pose proof (pow2_pos level). lia.
Qed.

End SamplerFacts.

(** ** Claims about the frame pair sampler *)

(** C2: for every frame count [n >= 2] the HIERARCHICAL mode returns exactly
    the pairs [(start, start + s)], level by level for the levels [0] to
    [floor(log2(n - 1))], with [s = 2 ^ level] and [start] running over the
    multiples of [s] below [n], without the pairs whose second index is [>= n].
    A pair is in the output exactly when it has this shape; [(0, 1)] is in it
    and no second index reaches [n] (so for [n = 9], none is [>= 9]). *)
Theorem C2_hierarchical_pairs (n : nat) :
  2 <= n ->
  exists pairs,
    Sampler.sample_frame_pairs n (Some HIERARCHICAL) = inr pairs
    /\ pairs = Sampler.hierarchical_spec n
    /\ (forall a b,
           In (a, b) pairs <->
           exists level k,
             level <= Nat.log2 (n - 1) /\ a = k * 2 ^ level /\ b = a + 2 ^ level /\ b < n)
    /\ In (0, 1) pairs
    /\ (forall a b, In (a, b) pairs -> b < n).
Proof.
  intro Hn. exists (Sampler.hierarchical_spec n).
  split; [apply hierarchical_eq; assumption|].
  split; [reflexivity|].
  split; [intros; apply in_hierarchical_spec|].
  split.
  - apply in_hierarchical_spec. exists 0, 0. simpl. lia.
  - intros a b H. apply hierarchical_spec_lt in H. lia.
Qed.

Lemma C2_hierarchical_pairs_witness :
  2 <= 9 /\
  exists pairs,
    Sampler.sample_frame_pairs 9 (Some HIERARCHICAL) = inr pairs
    /\ pairs = Sampler.hierarchical_spec 9
    /\ (forall a b,
           In (a, b) pairs <->
           exists level k,
             level <= Nat.log2 (9 - 1) /\ a = k * 2 ^ level /\ b = a + 2 ^ level /\ b < 9)
    /\ In (0, 1) pairs
    /\ (forall a b, In (a, b) pairs -> b < 9).
Proof. split; [lia | apply (C2_hierarchical_pairs (n := 9)); lia]. Defined.

Example hierarchical_9 :
  Sampler.sample_frame_pairs 9 (Some HIERARCHICAL)
  = inr [(0, 1); (1, 2); (2, 3); (3, 4); (4, 5); (5, 6); (6, 7); (7, 8);
         (0, 2); (2, 4); (4, 6); (6, 8);
         (0, 4); (4, 8);
         (0, 8)].
Proof. reflexivity. Qed.

Example consecutive_5 :
  Sampler.sample_frame_pairs 5 (Some CONSECUTIVE) = inr [(0, 1); (1, 2); (2, 3); (3, 4)].
Proof. reflexivity. Qed.

(** C5: for every frame count [n >= 2] and each of the three sampling modes,
    the sampler returns a list of pairs in which every pair [(i, j)] has
    [i < j] and no pair occurs twice. *)
Theorem C5_pairs_ordered_and_distinct (n : nat) (mode : FrameSamplingMode) :
  2 <= n ->
  exists pairs,
    Sampler.sample_frame_pairs n (Some mode) = inr pairs
    /\ (forall i j, In (i, j) pairs -> i < j)
    /\ NoDup pairs.
Proof.
  intro Hn. destruct mode; simpl.
  - exists (Sampler.exhaustive n). split; [reflexivity|]. split.
    + intros i j H. apply in_exhaustive in H. lia.
    + apply exhaustive_NoDup.
  - exists (Sampler.consecutive n). split; [reflexivity|].
    rewrite consecutive_eq. split.
    + intros i j H. apply in_map_iff in H as [k [Hk _]]. inversion Hk. lia.
    + apply Injective_map_NoDup; [|apply seq_NoDup].
      intros a b Hab. now inversion Hab.
  - exists (Sampler.hierarchical_spec n). split; [now apply hierarchical_eq|]. split.
    + intros i j H. apply hierarchical_spec_lt in H. lia.
    + apply hierarchical_spec_NoDup.
Qed.

Lemma C5_pairs_ordered_and_distinct_witness :
  2 <= 9 /\
  exists pairs,
    Sampler.sample_frame_pairs 9 (Some HIERARCHICAL) = inr pairs
    /\ (forall i j, In (i, j) pairs -> i < j)
    /\ NoDup pairs.
Proof.
  split; [lia | apply (C5_pairs_ordered_and_distinct (n := 9) HIERARCHICAL); lia].
Defined.

(** C6: for every frame count [n >= 2] the EXHAUSTIVE mode yields exactly
    [n (n - 1) / 2] pairs, without duplicates, and a pair [(i, j)] is among
    them exactly when [i < j < n]: all unordered pairs over [0 .. n - 1]. *)
Theorem C6_exhaustive_all_pairs (n : nat) :
  2 <= n ->
  exists pairs,
    Sampler.sample_frame_pairs n (Some EXHAUSTIVE) = inr pairs
    /\ length pairs = n * (n - 1) / 2
    /\ (forall i j, In (i, j) pairs <-> i < j < n)
    /\ NoDup pairs.
Proof.
  intros _. exists (Sampler.exhaustive n). split; [reflexivity|].
  split; [apply exhaustive_length|].
  split; [intros; apply in_exhaustive | apply exhaustive_NoDup].
Qed.

Lemma C6_exhaustive_all_pairs_witness :
  2 <= 4 /\
  exists pairs,
    Sampler.sample_frame_pairs 4 (Some EXHAUSTIVE) = inr pairs
    /\ length pairs = 4 * (4 - 1) / 2
    /\ (forall i j, In (i, j) pairs <-> i < j < 4)
    /\ NoDup pairs.
Proof. split; [lia | apply (C6_exhaustive_all_pairs (n := 4)); lia]. Defined.

Example exhaustive_4 :
  Sampler.sample_frame_pairs 4 (Some EXHAUSTIVE)
  = inr [(0, 1); (0, 2); (0, 3); (1, 2); (1, 3); (2, 3)].
Proof. reflexivity. Qed.

(** ** The coverage statistics *)

Section Chunks.
Variable covered : nat -> bool.

Lemma for_each_range_S {S : Type} (f : S -> nat -> S) (s : S) (n : nat) :
  Py.for_each (Py.range (Datatypes.S n)) f s = f (Py.for_each (Py.range n) f s) n.
Proof.
  unfold Py.for_each, Py.range. rewrite seq_S, fold_left_app. reflexivity.
Qed.

Lemma run_starts_S (n : nat) :
  Extractor.run_starts covered (S n)
  = Extractor.run_starts covered n
    ++ (if Extractor.starts_run covered n then [n] else []).
Proof.
  unfold Extractor.run_starts. rewrite seq_S, filter_app. reflexivity.
Qed.

Lemma chunk_loop_inv (n : nat) :
  let '(chunks, chunk) :=
    Py.for_each (Py.range n) (Extractor.chunk_step covered) ([], []) in
  Extractor.chunk_inv covered n chunks chunk.
Proof.
  induction n as [|n IH].
  - simpl. constructor; simpl; auto.
  - rewrite for_each_range_S.
    destruct (Py.for_each (Py.range n) (Extractor.chunk_step covered) ([], []))
      as [chunks chunk].
    destruct IH as [Hcat Hclosed Hopen Hcount].
    unfold Extractor.chunk_step.
    destruct (covered n) eqn:Hn.
    + (* the index is appended to the open chunk *)
      constructor.
      * rewrite seq_S, filter_app, <- Hcat, app_assoc. simpl. now rewrite Hn.
      * eapply Forall_impl; [|exact Hclosed].
        intros c [a [len [Hr [Hlt Hc]]]]. exists a, len.
           split; [exact Hr | split; [lia | auto]].
      * right. destruct Hopen as [[Hnil Hprev] | [a [len [[Hc [Hlen [Hst Hall]]] Hend]]]].
        -- subst chunk. exists n, 1. split; [|lia].
           repeat split; simpl; auto.
           ++ unfold Extractor.starts_run. rewrite Hn. destruct n; simpl; auto.
              now rewrite Hprev.
           ++ intros k [Hk|[]]. now subst.
        -- exists a, (S len). split; [|lia].
           repeat split; auto; try lia.
           ++ rewrite seq_S, Hc. now subst.
           ++ intros k Hk. apply in_app_or in Hk as [Hk|[Hk|[]]]; [auto | now subst].
      * rewrite run_starts_S, length_app, <- Hcount.
        unfold Extractor.starts_run. rewrite Hn. simpl.
        destruct Hopen as [[Hnil Hprev] | [a [len [[Hc [Hlen [Hst Hall]]] Hend]]]].
        -- subst chunk. simpl. destruct n; simpl; [lia|]. rewrite Hprev. simpl. lia.
        -- assert (Hlast : covered (a + len - 1) = true).
           { apply Hall. rewrite Hc. apply in_seq. lia. }
           destruct chunk as [|c0 chunk'].
           { symmetry in Hc. apply length_zero_iff_nil in Hc.
             rewrite length_seq in Hc. lia. }
           destruct n as [|n']; [lia|].
           replace (a + len - 1) with n' in Hlast by lia.
           rewrite Hlast. simpl. lia.
    + (* the open chunk, if any, is closed *)
      assert (Hstarts : length (Extractor.run_starts covered (S n))
                        = length (Extractor.run_starts covered n)).
      { rewrite run_starts_S, length_app. unfold Extractor.starts_run.
        rewrite Hn. simpl. lia. }
      destruct chunk as [|c0 chunk'].
      * constructor.
        -- rewrite seq_S, filter_app, <- Hcat. simpl. rewrite Hn.
           now rewrite !app_nil_r.
        -- eapply Forall_impl; [|exact Hclosed].
           intros c [a [len [Hr [Hlt Hc]]]]. exists a, len.
           split; [exact Hr | split; [lia | auto]].
        -- left. auto.
        -- rewrite Hstarts. exact Hcount.
      * constructor.
        -- rewrite seq_S, filter_app, <- Hcat. simpl. rewrite Hn.
           rewrite concat_app. simpl. now rewrite !app_nil_r.
        -- apply Forall_app. split.
           ++ eapply Forall_impl; [|exact Hclosed].
              intros c [a [len [Hr [Hlt Hc]]]]. exists a, len.
           split; [exact Hr | split; [lia | auto]].
           ++ constructor; [|constructor].
              destruct Hopen as [[Hnil _] | [a [len [Hr Hend]]]]; [discriminate|].
              exists a, len. subst n. split; [exact Hr | split; [lia | exact Hn]].
        -- left. auto.
        -- rewrite Hstarts, <- Hcount, length_app. simpl. lia.
Qed.

(** The groups of [_print_results_stats] are the maximal runs of covered
    indices below [n], in increasing order, one per run start. *)
Lemma frame_chunks_runs (n : nat) :
  concat (Extractor.frame_chunks covered n) = filter covered (seq 0 n)
  /\ Forall (fun c => exists a len,
                 Extractor.run_from covered c a len
                 /\ a + len <= n
                 /\ (a + len = n \/ covered (a + len) = false))
            (Extractor.frame_chunks covered n)
  /\ length (Extractor.frame_chunks covered n)
     = length (Extractor.run_starts covered n).
Proof.
  unfold Extractor.frame_chunks.
  pose proof (chunk_loop_inv n) as H.
  destruct (Py.for_each (Py.range n) (Extractor.chunk_step covered) ([], []))
    as [chunks chunk].
  destruct H as [Hcat Hclosed Hopen Hcount].
  assert (Hclosed' :
            Forall (fun c => exists a len,
                        Extractor.run_from covered c a len
                        /\ a + len <= n
                        /\ (a + len = n \/ covered (a + len) = false)) chunks).
  { eapply Forall_impl; [|exact Hclosed].
    intros c [a [len [Hr [Hlt Hc]]]]. exists a, len.
           split; [exact Hr | split; [lia | auto]]. }
  destruct chunk as [|c0 chunk'].
  - rewrite app_nil_r in Hcat. simpl in Hcount. rewrite Nat.add_0_r in Hcount. auto.
  - split; [|split].
    + rewrite concat_app. simpl. now rewrite app_nil_r.
    + apply Forall_app. split; [exact Hclosed'|].
      constructor; [|constructor].
      destruct Hopen as [[Hnil _] | [a [len [Hr Hend]]]]; [discriminate|].
      exists a, len. split; [exact Hr | split; [lia | left; exact Hend]].
    + rewrite length_app. simpl. exact Hcount.
Qed.

End Chunks.

Lemma in_set_spec (s : list nat) (x : nat) : Extractor.in_set s x = true <-> In x s.
Proof.
  unfold Extractor.in_set. destruct (in_dec Nat.eq_dec x s); split; auto; discriminate.
Qed.

(** C4: the logged coverage is the number of distinct frame indices on either
    side of the accepted correspondences divided by the frame count, and the
    logged group count is the number of maximal runs of covered indices met
    when scanning [0 .. n - 1] in order: the groups are runs of consecutive
    covered indices, none extendable on either side, they hold every covered
    index below [n], and there is one per run start. *)
Theorem C4_coverage_statistics (n_frames n_pairs : nat) (index_i index_j : list nat)
        (num_good : nat) :
  0 < n_frames ->
  let matched := Extractor.frames_with_matched_features index_i index_j in
  let covered := Extractor.in_set matched in
  exists stats,
    Extractor._print_results_stats n_frames n_pairs index_i index_j num_good = inr stats
    /\ NoDup matched
    /\ (forall x, In x matched <-> In x index_i \/ In x index_j)
    /\ (coverage stats == inject_Z (Z.of_nat (length matched)) / inject_Z (Z.of_nat n_frames))%Q
    /\ groups stats = length (Extractor.frame_chunks covered n_frames)
    /\ groups stats = length (Extractor.run_starts covered n_frames)
    /\ concat (Extractor.frame_chunks covered n_frames) = filter covered (seq 0 n_frames)
    /\ Forall (fun c => exists a len,
                   Extractor.run_from covered c a len
                   /\ a + len <= n_frames
                   /\ (a + len = n_frames \/ covered (a + len) = false))
              (Extractor.frame_chunks covered n_frames).
Proof.
  intros Hn matched covered.
  unfold Extractor._print_results_stats.
  destruct (Nat.eqb_spec n_frames 0) as [->|_]; [lia|].
  eexists. split; [reflexivity|]. simpl.
  destruct (frame_chunks_runs covered n_frames) as [Hcat [Hruns Hlen]].
  split; [apply NoDup_nodup|].
  split.
  { intro x. unfold matched, Extractor.frames_with_matched_features.
    rewrite nodup_In. apply in_app_iff. }
  split; [reflexivity|].
  repeat split; assumption.
Qed.

Lemma C4_coverage_statistics_witness :
  0 < 8 /\
  exists stats,
    Extractor._print_results_stats 8 4 [0; 1; 5; 5] [1; 2; 6; 6] 3 = inr stats
    /\ (coverage stats == 5 # 8)%Q
    /\ groups stats = 2
    /\ Extractor.frame_chunks
         (Extractor.in_set (Extractor.frames_with_matched_features [0; 1; 5; 5] [1; 2; 6; 6])) 8
       = [[0; 1; 2]; [5; 6]].
Proof.
  split; [lia|].
  destruct (@C4_coverage_statistics 8 4 [0; 1; 5; 5] [1; 2; 6; 6] 3 ltac:(lia))
    as [stats [Hstats [_ [_ [Hcov [Hgroups _]]]]]].
  exists stats. split; [exact Hstats|].
  split; [rewrite Hcov; reflexivity|].
  split; [rewrite Hgroups; reflexivity | reflexivity].
Defined.

(** ** Projection and back-projection *)

Module GeometryFacts.
Import Geometry.
Local Open Scope Q_scope.

Lemma vec_eq_trans (a b c : Vec3) : vec_eq a b -> vec_eq b c -> vec_eq a c.
Proof.
  destruct a as [[a0 a1] a2], b as [[b0 b1] b2], c as [[c0 c1] c2]; simpl.
  intros [H0 [H1 H2]] [G0 [G1 G2]].
  repeat split; etransitivity; eassumption.
Qed.

Lemma vec_sub_eq (a b t : Vec3) : vec_eq a b -> vec_eq (vec_sub a t) (vec_sub b t).
Proof.
  destruct a as [[a0 a1] a2], b as [[b0 b1] b2], t as [[t0 t1] t2]; simpl.
  intros [H0 [H1 H2]]. rewrite H0, H1, H2. repeat split; reflexivity.
Qed.

Lemma mat_vec_eq (A : Mat3) (a b : Vec3) : vec_eq a b -> vec_eq (mat_vec A a) (mat_vec A b).
Proof.
  destruct A as [[[[a00 a01] a02] [[a10 a11] a12]] [[a20 a21] a22]].
  destruct a as [[a0 a1] a2], b as [[b0 b1] b2]; simpl.
  intros [H0 [H1 H2]]. rewrite H0, H1, H2. repeat split; reflexivity.
Qed.

(** One coordinate of [depth * (inv(K) @ points2d)]: [a0, a1, a2] is a row
    of the adjugate of [K], [dt] its determinant. *)
Lemma unproject_coordinate (a0 a1 a2 x y d s dt c : Q) :
  ~ s == 0 -> ~ d == 0 -> ~ dt == 0 ->
  a0 * x + a1 * y + a2 * d == dt * c ->
  d * ((a0 / dt) * (x / d / s * s) + (a1 / dt) * (y / d / s * s) + (a2 / dt) * 1) == c.
Proof.
  intros Hs Hd Hdt Hadj.
  transitivity ((a0 * x + a1 * y + a2 * d) / dt).
  - field. auto.
  - rewrite Hadj. field. assumption.
Qed.

(** Scaling, [inv(K)] and the depth undo the projection by [K]. *)
Lemma unproject_camera_space (K K_inv : Mat3) (c : Vec3) (s : Q) :
  inv K = inr K_inv -> ~ s == 0 -> ~ snd (mat_vec K c) == 0 ->
  vec_eq (vec_scale (snd (mat_vec K c))
                    (mat_vec K_inv
                             (fst (fst (mat_vec K c)) / snd (mat_vec K c) / s * s,
                              snd (fst (mat_vec K c)) / snd (mat_vec K c) / s * s,
                              1)))
         c.
Proof.
  destruct K as [[[[k00 k01] k02] [[k10 k11] k12]] [[k20 k21] k22]].
  destruct c as [[c0 c1] c2].
  unfold inv.
  set (dt := det _).
  destruct (Qeq_bool dt 0) eqn:Hdt; [discriminate|].
  apply Qeq_bool_neq in Hdt.
  intros HK Hs Hd. inversion HK; subst K_inv; clear HK.
  cbn [mat_vec dot vec_scale vec_eq fst snd] in *.
  repeat split; apply unproject_coordinate; auto; unfold dt, det; ring.
Qed.

(** The transpose of a rotation undoes it. *)
Lemma unrotate (R : Mat3) (t p : Vec3) :
  orthonormal R ->
  vec_eq (mat_vec (transpose R) (vec_sub (vec_add (mat_vec R p) t) t)) p.
Proof.
  destruct R as [[[[r00 r01] r02] [[r10 r11] r12]] [[r20 r21] r22]].
  destruct t as [[t0 t1] t2], p as [[p0 p1] p2].
  unfold orthonormal.
  cbn [mat_mul transpose identity mat_eq vec_eq dot mat_vec vec_sub vec_add].
  intros [[H00 [H01 H02]] [[H10 [H11 H12]] [H20 [H21 H22]]]].
  repeat split.
  - match type of H00 with ?e0 == _ =>
    match type of H01 with ?e1 == _ =>
    match type of H02 with ?e2 == _ =>
      transitivity (e0 * p0 + e1 * p1 + e2 * p2);
        [ring | rewrite H00, H01, H02; ring]
    end end end.
  - match type of H10 with ?e0 == _ =>
    match type of H11 with ?e1 == _ =>
    match type of H12 with ?e2 == _ =>
      transitivity (e0 * p0 + e1 * p1 + e2 * p2);
        [ring | rewrite H10, H11, H12; ring]
    end end end.
  - match type of H20 with ?e0 == _ =>
    match type of H21 with ?e1 == _ =>
    match type of H22 with ?e2 == _ =>
      transitivity (e0 * p0 + e1 * p1 + e2 * p2);
        [ring | rewrite H20, H21, H22; ring]
    end end end.
Qed.

Lemma back_projected_point (K K_inv R : Mat3) (t p : Vec3) (s : Q) :
  inv K = inr K_inv -> orthonormal R -> ~ s == 0 -> 0 < depth_of K R t p ->
  vec_eq (back_projected K_inv R t s (camera_space K R t p)) p.
Proof.
  intros HK HR Hs Hd. unfold back_projected, depth_of, camera_space in *.
  eapply vec_eq_trans; [|apply (@unrotate R t p HR)].
  apply mat_vec_eq, vec_sub_eq.
  apply unproject_camera_space; auto.
  intro H0. rewrite H0 in Hd. discriminate.
Qed.

Lemma image2world_world2image (points : list Vec3) (K K_inv R : Mat3) (t : Vec3) (s : Q) :
  inv K = inr K_inv ->
  let '(pixels, depths) := world2image points K R t s Float64 in
  image2world pixels depths K R t s
  = inr (map (fun p => back_projected K_inv R t s (camera_space K R t p)) points).
Proof.
  intro HK. unfold world2image, image2world, image2world_with, validate_depth_shape.
  rewrite !length_map, Nat.eqb_refl. cbn [exc_bind]. rewrite HK. cbn [exc_bind].
  f_equal. rewrite !map_map.
  induction points as [|p points IH]; [reflexivity|].
  cbn [map combine]. rewrite IH. f_equal.
  unfold back_projected, to_dtype. cbn [is_integer fst snd].
  destruct (camera_space K R t p) as [[x y] d]. reflexivity.
Qed.

End GeometryFacts.

(** C3: with an invertible intrinsics matrix [K], a rotation [R] and a
    non-zero scale factor, projecting points of strictly positive depth with
    [world2image] (no rounding: a floating dtype) and back-projecting the
    result with [image2world] under the same [K], [R], [t] and scale factor
    succeeds and returns the original points, exactly over the rationals. *)
Theorem C3_world2image_image2world_roundtrip
        (points : list Geometry.Vec3) (K R : Geometry.Mat3) (t : Geometry.Vec3) (s : Q) :
  ~ (Geometry.det K == 0)%Q ->
  Geometry.orthonormal R ->
  ~ (s == 0)%Q ->
  Forall (fun p => (0 < Geometry.depth_of K R t p)%Q) points ->
  exists recovered,
    (let '(pixels, depths) := Geometry.world2image points K R t s Geometry.Float64 in
     Geometry.image2world pixels depths K R t s) = inr recovered
    /\ Forall2 Geometry.vec_eq recovered points.
Proof.
  intros HK HR Hs Hpos.
  assert (Hinv : exists K_inv, Geometry.inv K = inr K_inv).
  { unfold Geometry.inv.
    destruct K as [[[[k00 k01] k02] [[k10 k11] k12]] [[k20 k21] k22]].
    destruct (Qeq_bool _ 0) eqn:E; [|eexists; reflexivity].
    apply Qeq_bool_eq in E. contradiction. }
  destruct Hinv as [K_inv Hinv].
  pose proof (@GeometryFacts.image2world_world2image points K K_inv R t s Hinv) as Hrun.
  destruct (Geometry.world2image points K R t s Geometry.Float64) as [pixels depths].
  eexists. split; [exact Hrun|].
  clear Hrun. induction Hpos as [|p points Hp Hpos IH]; simpl; constructor; auto.
  apply GeometryFacts.back_projected_point; assumption.
Qed.

Module GeometryExample.
Import Geometry GeometryScene.
Local Open Scope Q_scope.

Example project_cloud :
  world2image cloud K R t (1 # 2) Float64 = ([(8 # 4, 20 # 4); (12 # 8, 24 # 8)], [4; 8]).
Proof. reflexivity. Qed.

Example project_cloud_rounded :
  world2image cloud K R t (1 # 2) Int32 = ([(2, 5); (2, 3)], [4; 8]).
Proof. reflexivity. Qed.

Example round_ties_to_even :
  map Num.round_half_even [1 # 2; 3 # 2; 5 # 2; - (1 # 2); - (3 # 2); 7 # 4; 9 # 4]
  = [0; 2; 2; 0; -2; 2; 2]%Z.
Proof. reflexivity. Qed.

End GeometryExample.

Lemma C3_world2image_image2world_roundtrip_witness :
  (~ (Geometry.det GeometryScene.K == 0)%Q)
  /\ Geometry.orthonormal GeometryScene.R
  /\ (~ (1 # 2 == 0)%Q)
  /\ Forall (fun p => (0 < Geometry.depth_of GeometryScene.K GeometryScene.R
                                            GeometryScene.t p)%Q)
            GeometryScene.cloud
  /\ exists recovered,
      (let '(pixels, depths) :=
         Geometry.world2image GeometryScene.cloud GeometryScene.K GeometryScene.R
                              GeometryScene.t (1 # 2) Geometry.Float64 in
       Geometry.image2world pixels depths GeometryScene.K GeometryScene.R
                            GeometryScene.t (1 # 2)) = inr recovered
      /\ Forall2 Geometry.vec_eq recovered GeometryScene.cloud.
Proof.
  assert (HK : ~ (Geometry.det GeometryScene.K == 0)%Q) by (intro H; vm_compute in H; discriminate).
  assert (HR : Geometry.orthonormal GeometryScene.R) by (vm_compute; repeat split).
  assert (Hs : ~ (1 # 2 == 0)%Q) by (intro H; vm_compute in H; discriminate).
  assert (Hd : Forall (fun p => (0 < Geometry.depth_of GeometryScene.K GeometryScene.R
                                                       GeometryScene.t p)%Q)
                      GeometryScene.cloud) by (repeat constructor).
  repeat (split; [assumption|]).
  exact (@C3_world2image_image2world_roundtrip
           GeometryScene.cloud GeometryScene.K GeometryScene.R GeometryScene.t
           (1 # 2) HK HR Hs Hd).
Defined.


(** ** The computations of the extractor *)

Section MonadFacts.

Lemma bind_inr {A B : Type} (m : M A) (k : A -> M B) (tr : Trace) (b : B) (tr' : Trace) :
  bind m k tr = (inr b, tr') ->
  exists a tr1, m tr = (inr a, tr1) /\ k a tr1 = (inr b, tr').
Proof.
  unfold bind. destruct (m tr) as [[e|a] tr1]; [discriminate|]. eauto.
Qed.

Lemma lift_inr {A : Type} (r : Exc A) (tr : Trace) (a : A) (tr' : Trace) :
  lift r tr = (inr a, tr') -> r = inr a /\ tr' = tr.
Proof. unfold lift. intro H. inversion H. auto. Qed.

Lemma emit_inr (ev : Event) (tr : Trace) (u : unit) (tr' : Trace) :
  emit ev tr = (inr u, tr') -> tr' = tr ++ [ev].
Proof. unfold emit. intro H. now inversion H. Qed.

Lemma ret_inr {A : Type} (a b : A) (tr tr' : Trace) :
  ret a tr = (inr b, tr') -> b = a /\ tr' = tr.
Proof. unfold ret. intro H. inversion H. auto. Qed.

Lemma exc_map_inr {A B : Type} (f : A -> Exc B) (xs : list A) (ys : list B) :
  Seq.exc_map f xs = inr ys -> Forall2 (fun x y => f x = inr y) xs ys.
Proof.
  revert ys. induction xs as [|x xs IH]; simpl; intros ys H.
  - inversion H. constructor.
  - destruct (f x) as [e|y] eqn:Hx; [discriminate|]. simpl in H.
    destruct (Seq.exc_map f xs) as [e|ys'] eqn:Hxs; [discriminate|]. simpl in H.
    inversion H; subst. constructor; auto.
Qed.

Lemma exc_map_inl {A B : Type} (f : A -> Exc B) (xs : list A) (e : PyError) :
  Seq.exc_map f xs = inl e -> exists x, In x xs /\ f x = inl e.
Proof.
  induction xs as [|x xs IH]; simpl; intro H; [discriminate|].
  destruct (f x) as [e'|y] eqn:Hx; simpl in H.
  - inversion H; subst. exists x. auto.
  - destruct (Seq.exc_map f xs) as [e'|ys'] eqn:Hxs; simpl in H; [|discriminate].
    inversion H; subst. destruct (IH eq_refl) as [x' [Hin Hf]]. exists x'. auto.
Qed.

Lemma index_error {A : Type} (l : list A) (i : Z) (e : PyError) :
  Seq.index l i = inl e -> e = IndexError.
Proof.
  unfold Seq.index.
  destruct (_ && _); [destruct (nth_error _ _)|]; intro H; now inversion H.
Qed.

Lemma index_In {A : Type} (l : list A) (i : Z) (a : A) :
  Seq.index l i = inr a -> In a l.
Proof.
  unfold Seq.index.
  destruct (_ && _); [|discriminate].
  destruct (nth_error _ _) eqn:E; [|discriminate].
  intro H. inversion H; subst. eapply nth_error_In; eassumption.
Qed.

Lemma update_app_length {A : Type} (f : A -> A) (done : list A) (a : A) (rest : list A) :
  Seq.update (length done) f (done ++ a :: rest) = done ++ f a :: rest.
Proof. induction done as [|d done IH]; simpl; [reflexivity|]. now rewrite IH. Qed.

Lemma select_map {A B : Type} (f : A -> B) (l : list A) (mask : list bool) :
  Seq.select (map f l) mask = map f (Seq.select l mask).
Proof.
  revert mask. induction l as [|a l IH]; intros [|b mask]; simpl; auto.
  destruct b; simpl; now rewrite IH.
Qed.

Lemma select_Forall {A : Type} (P : A -> Prop) (l : list A) (mask : list bool) :
  Forall P l -> Forall P (Seq.select l mask).
Proof.
  intro H. revert mask. induction H as [|a l Ha Hl IH]; intros [|b mask]; simpl; auto.
  destruct b; auto.
Qed.

Lemma bool_index_inr {A : Type} (l : list A) (mask : list bool) (l' : list A) :
  Seq.bool_index l mask = inr l' -> l' = Seq.select l mask.
Proof.
  unfold Seq.bool_index. destruct (_ =? _); intro H; now inversion H.
Qed.

Lemma gt_false (a b : Q) : Num.gt a b = false <-> (a <= b)%Q.
Proof.
  unfold Num.gt. rewrite negb_false_iff. apply Qle_bool_iff.
Qed.

Lemma is_zero_false (a : Q) : Num.is_zero a = false <-> ~ (a == 0)%Q.
Proof.
  unfold Num.is_zero. rewrite <- Qeq_bool_iff. destruct (Qeq_bool a 0); intuition congruence.
Qed.

End MonadFacts.

Ltac step_m :=
  match goal with
  | H : bind _ _ _ = (inr _, _) |- _ =>
      let a := fresh "a" in
      let tr := fresh "tr" in
      let Hm := fresh "Hm" in
      apply bind_inr in H; destruct H as [a [tr [Hm H]]]
  | H : lift _ _ = (inr _, _) |- _ =>
      let E := fresh "E" in apply lift_inr in H; destruct H as [H E]; subst
  | H : emit _ _ = (inr _, _) |- _ => apply emit_inr in H; subst
  | H : ret _ _ = (inr _, _) |- _ =>
      let E := fresh "E" in apply ret_inr in H; destruct H as [H E]; subst
  end.

Section FilterFacts.
Context `{V : Vision}.
Import Extractor.

Variables (fd : FrameData) (i j : nat) (key_points_i key_points_j : list Point).

Lemma filter_step_classify (st : Filtered) (k : nat) (mn : DMatch * DMatch) :
  filter_step fd i j key_points_i key_points_j st (k, mn)
  = let? c := classify fd i j key_points_i key_points_j mn in inr (record_match st k c).
Proof.
  destruct mn as [m n]. unfold filter_step, classify, endpoints. cbn [fst snd].
  destruct (_ <? _)%float; [reflexivity|].
  repeat match goal with
         | |- context [exc_bind ?x _] =>
             match x with
             | exc_bind _ _ => fail 1
             | _ => destruct x as [?e|?a]; cbn [exc_bind]; [reflexivity|]
             end
         end.
  unfold ep_depth_i, ep_depth_j. cbn [fst snd].
  destruct (_ || _); reflexivity.
Qed.

Lemma filter_loop (matches : list (DMatch * DMatch)) :
  forall (done : list MaskEntry) (st : Filtered),
    f_matches_mask st = done ++ map (fun _ => (0%Z, 0%Z)) matches ->
    Seq.for_each_exc (combine (seq (length done) (length matches)) matches)
                     (filter_step fd i j key_points_i key_points_j) st
    = let? cs := Seq.exc_map (classify fd i j key_points_i key_points_j) matches in
      inr (mkFiltered
             (f_points_i st ++ map ep_point_i (somes cs))
             (f_points_j st ++ map ep_point_j (somes cs))
             (f_depth_i st ++ map ep_depth_i (somes cs))
             (f_depth_j st ++ map ep_depth_j (somes cs))
             (done ++ map mask_entry_of cs)).
Proof.
  induction matches as [|mn matches IH]; intros done st Hmask.
  - simpl. rewrite !app_nil_r. simpl in Hmask. rewrite app_nil_r in Hmask.
    rewrite <- Hmask. now destruct st.
  - cbn [length seq combine Seq.for_each_exc Seq.exc_map].
    rewrite filter_step_classify.
    destruct (classify fd i j key_points_i key_points_j mn) as [e|c]; [reflexivity|].
    cbn [exc_bind].
    specialize (IH (done ++ [mask_entry_of c]) (record_match st (length done) c)).
    rewrite length_app, Nat.add_1_r in IH. rewrite IH.
    + destruct (Seq.exc_map _ matches) as [e|cs]; [reflexivity|]. cbn [exc_bind].
      destruct c as [e|]; cbn [record_match somes map f_points_i f_points_j f_depth_i f_depth_j];
        rewrite <- ?app_assoc; reflexivity.
    + destruct c as [e|]; cbn [record_match f_matches_mask mask_entry_of].
      * rewrite Hmask. cbn [map]. rewrite update_app_length, <- app_assoc. reflexivity.
      * rewrite Hmask. cbn [map]. rewrite <- app_assoc. reflexivity.
Qed.

(** [_filter_matches] classifies every candidate, in order. *)
Lemma filter_matches_classified (matches : list (DMatch * DMatch)) :
  _filter_matches fd i j key_points_i key_points_j matches
  = let? cs := Seq.exc_map (classify fd i j key_points_i key_points_j) matches in
    inr (mkFiltered
           (map ep_point_i (somes cs)) (map ep_point_j (somes cs))
           (map ep_depth_i (somes cs)) (map ep_depth_j (somes cs))
           (map mask_entry_of cs)).
Proof.
  unfold _filter_matches, Seq.enumerate.
  apply (filter_loop matches [] (mkFiltered [] [] [] [] _)).
  reflexivity.
Qed.

Lemma classify_inr (m n : DMatch) (c : option Endpoints) :
  classify fd i j key_points_i key_points_j (m, n) = inr c ->
  forall e, c = Some e <->
            passes_ratio m n
            /\ endpoints fd i j key_points_i key_points_j m = inr e
            /\ nonzero_depths e.
Proof.
  unfold classify, passes_ratio, nonzero_depths. cbn [fst snd].
  destruct (_ <? _)%float eqn:Hgt.
  - intros H e. inversion H; subst. split; [discriminate|].
    intros [Hle _]. congruence.
  - destruct (endpoints _ _ _ _ _ m) as [err|e0]; cbn [exc_bind]; [discriminate|].
    destruct (Num.is_zero (ep_depth_i e0)) eqn:Zi; cbn [orb].
    + intros H e. inversion H; subst. split; [discriminate|].
      intros [_ [He [Hi _]]]. inversion He; subst.
      apply is_zero_false in Hi. congruence.
    + destruct (Num.is_zero (ep_depth_j e0)) eqn:Zj.
      * intros H e. inversion H; subst. split; [discriminate|].
        intros [_ [He [_ Hj]]]. inversion He; subst.
        apply is_zero_false in Hj. congruence.
      * intros H e. inversion H; subst. apply is_zero_false in Zi, Zj. split.
        -- intro He. inversion He; subst. auto.
        -- intros [_ [He _]]. congruence.
Qed.

Lemma endpoints_error (m : DMatch) (err : PyError) :
  endpoints fd i j key_points_i key_points_j m = inl err -> err = IndexError.
Proof.
  unfold endpoints, depth_at.
  repeat match goal with
         | |- context [exc_bind ?x _] =>
             match x with
             | exc_bind _ _ => fail 1
             | _ => let E := fresh "E" in
                    destruct x as [?e|?a] eqn:E; cbn [exc_bind];
                    [apply index_error in E; intro H; inversion H; congruence|]
             end
         end.
  discriminate.
Qed.

Lemma classify_inl (m n : DMatch) (err : PyError) :
  classify fd i j key_points_i key_points_j (m, n) = inl err ->
  err = IndexError
  /\ passes_ratio m n
  /\ endpoints fd i j key_points_i key_points_j m = inl IndexError.
Proof.
  unfold classify, passes_ratio. cbn [fst snd].
  destruct (_ <? _)%float eqn:Hgt; [discriminate|].
  destruct (endpoints _ _ _ _ _ m) as [err'|e0] eqn:He; cbn [exc_bind].
  - intro H. inversion H; subst. apply endpoints_error in He. subst. auto.
  - destruct (_ || _); discriminate.
Qed.

Lemma endpoints_measured (m : DMatch) (e : Endpoints) :
  endpoints fd i j key_points_i key_points_j m = inr e ->
  measured fd i (ep_point_i e) (ep_depth_i e)
  /\ measured fd j (ep_point_j e) (ep_depth_j e).
Proof.
  unfold endpoints, measured.
  repeat match goal with
         | |- context [exc_bind ?x _] =>
             match x with
             | exc_bind _ _ => fail 1
             | _ => let E := fresh "E" in
                    destruct x as [?e|?a] eqn:E; cbn [exc_bind]; [discriminate|]
             end
         end.
  intro H. inversion H; subst. unfold ep_point_i, ep_point_j, ep_depth_i, ep_depth_j.
  cbn [fst snd]. split; eexists; (split; [reflexivity | eassumption]).
Qed.

End FilterFacts.

(** C8: a candidate match with best distance [d1] and second-best distance
    [d2] is kept by [_filter_matches] (its points and depths are appended, its
    mask entry is set) exactly when the comparison [d1 > 0.7 * d2] of the
    loop, evaluated in binary64 with the product rounded, is false and both
    looked-up depths are non-zero; the candidates are classified one by one,
    in order.  The threshold is the literal [0.7]: the function reads no
    setting of the extractor.  The only way the filter fails is an
    [IndexError] in the look-up of a candidate that passed the ratio test. *)
Theorem C8_ratio_filter `{V : Vision} (fd : FrameData) (i j : nat)
        (key_points_i key_points_j : list Point) (matches : list (DMatch * DMatch)) :
  match Extractor._filter_matches fd i j key_points_i key_points_j matches with
  | inr res =>
      exists kept : list (option Extractor.Endpoints),
        Forall2 (fun mn c =>
                   forall e, c = Some e <->
                             (Num.seven_tenths * distance (snd mn) <? distance (fst mn))%float
                             = false
                             /\ Extractor.endpoints fd i j key_points_i key_points_j (fst mn)
                                = inr e
                             /\ Extractor.nonzero_depths e)
                matches kept
        /\ f_points_i res = map Extractor.ep_point_i (Extractor.somes kept)
        /\ f_points_j res = map Extractor.ep_point_j (Extractor.somes kept)
        /\ f_depth_i res = map Extractor.ep_depth_i (Extractor.somes kept)
        /\ f_depth_j res = map Extractor.ep_depth_j (Extractor.somes kept)
        /\ f_matches_mask res = map Extractor.mask_entry_of kept
  | inl err =>
      err = IndexError
      /\ exists m n,
          In (m, n) matches
          /\ (Num.seven_tenths * distance n <? distance m)%float = false
          /\ Extractor.endpoints fd i j key_points_i key_points_j m = inl IndexError
  end.
Proof.
  rewrite filter_matches_classified.
  destruct (Seq.exc_map _ matches) as [err|cs] eqn:E; cbn [exc_bind].
  - apply exc_map_inl in E as [[m n] [Hin Hc]].
    apply classify_inl in Hc as [-> [Hr He]]. split; [reflexivity|].
    exists m, n. auto.
  - exists cs. cbn [f_points_i f_points_j f_depth_i f_depth_j f_matches_mask].
    split; [|repeat split; reflexivity].
    apply exc_map_inr in E.
    eapply Forall2_impl; [|exact E].
    intros [m n] c Hc e. cbn [fst snd]. exact (classify_inr _ _ _ _ _ _ _ Hc e).
Qed.

(** The product [0.7 * 90.0] is rounded below 63: the binary64 number nearest
    to seven tenths is less than seven tenths. *)
Example seven_tenths_of_90 :
  Num.value Num.seven_tenths = Some (3152519739159347 # 4503599627370496)%Q
  /\ Num.value (Num.seven_tenths * 90)%float
     = Some (8866461766385663 # 140737488355328)%Q
  /\ (8866461766385663 # 140737488355328 < 63)%Q
  /\ (Num.seven_tenths * 90 <? 63)%float = true.
Proof. repeat split. Qed.

(** A candidate match with distances 63 and 90 satisfies [d1 <= 0.7 * d2]
    over the numbers and has non-zero depth at both endpoints, and
    [_filter_matches] drops it. *)
Lemma C8_boundary_match_dropped :
  exists (m n : DMatch) (e : Extractor.Endpoints),
    Num.value (distance m) = Some 63%Q
    /\ Num.value (distance n) = Some 90%Q
    /\ Extractor.within_ratio m n
    /\ Extractor.endpoints (Extractor._get_frame_data Scene.extractor) 0 1
                           Scene.key_points8 Scene.key_points8 m = inr e
    /\ Extractor.nonzero_depths e
    /\ Extractor._filter_matches (Extractor._get_frame_data Scene.extractor) 0 1
                                 Scene.key_points8 Scene.key_points8 [(m, n)]
       = inr (mkFiltered [] [] [] [] [(0, 0)%Z]).
Proof.
  exists (fst Scene.boundary_candidate), (snd Scene.boundary_candidate).
  eexists. split; [reflexivity|]. split; [reflexivity|].
  split.
  - exists 63%Q, 90%Q. repeat split; try reflexivity. discriminate.
  - split; [reflexivity|]. split; [|reflexivity].
    split; cbn; discriminate.
Qed.

Example filter_matches_scene :
  Extractor._filter_matches (Extractor._get_frame_data Scene.extractor) 0 1
                            Scene.key_points8 Scene.key_points8 Scene.candidates
  = inr (mkFiltered
           [(2 # 10, 1 # 10); (14 # 10, 0); (2, 4 # 10); (0, 1); (5 # 2, 12 # 10); (3, 16 # 10)]%Q
           [(2 # 10, 1 # 10); (14 # 10, 0); (2, 4 # 10); (0, 1); (5 # 2, 12 # 10); (3, 16 # 10)]%Q
           [1; 2; 3; 5; 7; 12]%Q
           [1; 2; 3; 5; 7; 12]%Q
           [(1, 0); (1, 0); (1, 0); (0, 0); (1, 0); (0, 0); (1, 0); (1, 0)]%Z).
Proof. reflexivity. Qed.

(** ** One frame pair, and the sweep over all pairs *)

Section PairFacts.
Context `{V : Vision}.
Import Extractor.

Variables (self : FeatureExtractor) (fd : FrameData).

Lemma filter_matches_sound (i j : nat) (key_points_i key_points_j : list Point)
      (matches : list (DMatch * DMatch)) (st : Filtered) :
  _filter_matches fd i j key_points_i key_points_j matches = inr st ->
  exists es,
    f_points_i st = map ep_point_i es /\ f_depth_i st = map ep_depth_i es
    /\ f_points_j st = map ep_point_j es /\ f_depth_j st = map ep_depth_j es
    /\ Forall (sound_endpoints fd i j) es.
Proof.
  rewrite filter_matches_classified.
  destruct (Seq.exc_map _ matches) as [err|cs] eqn:E; cbn [exc_bind]; [discriminate|].
  intro H. inversion H; subst; clear H. exists (somes cs).
  cbn [f_points_i f_points_j f_depth_i f_depth_j]. repeat split.
  apply exc_map_inr in E.
  induction E as [|[m n] c matches cs Hc _ IH]; cbn [somes]; [constructor|].
  destruct c as [e|]; [|exact IH].
  constructor; [|exact IH].
  destruct (proj1 (classify_inr _ _ _ _ _ _ _ Hc e) eq_refl) as [_ [He Hnz]].
  apply endpoints_measured in He. unfold sound_endpoints. tauto.
Qed.

Lemma filter_matches_ransac_sound (i j : nat) (st st' : Filtered) (es : list Endpoints)
      (tr tr' : Trace) :
  f_points_i st = map ep_point_i es -> f_depth_i st = map ep_depth_i es ->
  f_points_j st = map ep_point_j es -> f_depth_j st = map ep_depth_j es ->
  Forall (sound_endpoints fd i j) es ->
  _filter_matches_ransac st tr = (inr st', tr') ->
  exists es',
    f_points_i st' = map ep_point_i es' /\ f_depth_i st' = map ep_depth_i es'
    /\ f_points_j st' = map ep_point_j es' /\ f_depth_j st' = map ep_depth_j es'
    /\ Forall (sound_endpoints fd i j) es'.
Proof.
  intros Hpi Hdi Hpj Hdj Hes H. unfold _filter_matches_ransac in H.
  repeat step_m. destruct a0 as [mask|]; [|discriminate].
  repeat step_m.
  repeat match goal with
         | H : Seq.bool_index _ _ = inr _ |- _ => apply bool_index_inr in H
         end.
  subst. cbn [f_points_i f_points_j f_depth_i f_depth_j].
  exists (Seq.select es (map (fun v => (0 <? v)%Z) mask)).
  rewrite Hpi, Hdi, Hpj, Hdj, !select_map. repeat split.
  now apply select_Forall.
Qed.

(** An accepted frame pair yields its two frame indices and as many points
    and depths on either side, position by position from one match. *)
Lemma get_image_features_accepted (i j : nat) (tr : Trace) (fs : FeatureSet nat)
      (tr' : Trace) :
  _get_image_features self fd (i, j) tr = (inr (Some fs), tr') ->
  index (frame_i fs) = i /\ index (frame_j fs) = j
  /\ exists es, made_of fs es /\ Forall (sound_endpoints fd i j) es.
Proof.
  unfold _get_image_features. intro H.
  step_m. destruct a as [key_points_i descriptors_i].
  step_m. destruct a as [key_points_j descriptors_j].
  destruct (too_few self (Nat.min _ _)); [step_m; discriminate|].
  do 2 step_m.
  destruct (too_few self (length (f_points_i a0))); [repeat step_m; discriminate|].
  step_m.
  destruct (too_few self (length (f_points_i a1))); [repeat step_m; discriminate|].
  step_m.
  match goal with
  | H : ret _ _ = _ |- _ => apply ret_inr in H; destruct H as [H _]; inversion H; subst
  end.
  match goal with
  | H : lift _ _ = _ |- _ => apply lift_inr in H; destruct H as [H _]
  end.
  match goal with
  | H : _filter_matches _ _ _ _ _ _ = inr _ |- _ =>
      apply filter_matches_sound in H; destruct H as [es [Hpi [Hdi [Hpj [Hdj Hes]]]]]
  end.
  match goal with
  | H : _filter_matches_ransac _ _ = _ |- _ =>
      eapply filter_matches_ransac_sound in H; [|eassumption..];
      destruct H as [es' [Hpi' [Hdi' [Hpj' [Hdj' Hes']]]]]
  end.
  cbn [index frame_i frame_j]. repeat split.
  exists es'. unfold made_of. cbn [points depth frame_i frame_j]. tauto.
Qed.

Lemma tqdm_imap_inr {A B : Type} (f : A -> M B) (xs : list A) (tr : Trace)
      (ys : list B) (tr' : Trace) :
  tqdm_imap f xs tr = (inr ys, tr') ->
  Forall2 (fun x y => exists tr0 tr1, f x tr0 = (inr y, tr1)) xs ys.
Proof.
  revert tr ys. induction xs as [|x xs IH]; intros tr ys H; cbn [tqdm_imap] in H.
  - step_m. constructor.
  - repeat step_m. constructor; eauto.
Qed.

Lemma made_of_at_position (fs : FeatureSet nat) (es : list Endpoints) (e : Endpoints) :
  made_of fs es -> In e es -> exists k, at_position fs k e.
Proof.
  intros [Hpi [Hdi [Hpj Hdj]]] Hin.
  apply In_nth_error in Hin as [k Hk]. exists k.
  unfold at_position. rewrite Hpi, Hdi, Hpj, Hdj.
  repeat split; now apply map_nth_error.
Qed.

Lemma map_const_repeat {A B : Type} (b : B) (l : list A) :
  map (fun _ => b) l = repeat b (length l).
Proof. induction l as [|a l IH]; simpl; [reflexivity|]. now rewrite IH. Qed.

Lemma accumulate_correspondences (pairs : list FramePair)
      (results : list (option (FeatureSet nat))) :
  Forall2 (fun p r => exists tr0 tr1, _get_image_features self fd p tr0 = (inr r, tr1))
          pairs results ->
  (forall p, In p pairs -> In p (frame_pairs self)) ->
  forall (acc : Accum) (cs0 : list Correspondence),
    feature_set_of acc = feature_set_of_correspondences cs0 ->
    exists cs,
      feature_set_of (Py.for_each results accumulate acc)
      = feature_set_of_correspondences (cs0 ++ cs)
      /\ Forall (accepted_correspondence self fd) cs
      /\ Forall (sound_correspondence fd) cs.
Proof.
  induction 1 as [|p r pairs results [tr0 [tr1 Hp]] _ IH]; intros Hsub acc cs0 Hacc.
  - exists []. rewrite app_nil_r. cbn. auto.
  - assert (Hsub' : forall q, In q pairs -> In q (frame_pairs self))
      by (intros; apply Hsub; now right).
    unfold Py.for_each. cbn [fold_left]. fold (Py.for_each results accumulate (accumulate acc r)).
    destruct r as [fs|].
    + destruct p as [i j].
      destruct (get_image_features_accepted _ _ _ Hp) as [Hi [Hj [es [Hmade Hes]]]].
      set (new := map (fun e => ((i, j), e)) es).
      destruct (IH Hsub' (accumulate acc (Some fs)) (cs0 ++ new)) as [cs [Hcs [Hacc' Hsound]]].
      { unfold feature_set_of, feature_set_of_correspondences in *.
        inversion Hacc as [[Hii Hpi Hdi Hij Hpj Hdj]].
        destruct Hmade as [Mpi [Mdi [Mpj Mdj]]].
        cbn [accumulate index_i points_i depth_i index_j points_j depth_j].
        rewrite Hii, Hpi, Hdi, Hij, Hpj, Hdj, Mpi, Mdi, Mpj, Mdj, Hi, Hj.
        unfold new. rewrite !map_app, !map_map. cbn [fst snd].
        rewrite !length_map, <- !map_const_repeat. reflexivity. }
      exists (new ++ cs). rewrite app_assoc. split; [exact Hcs|].
      split; apply Forall_app; split; auto; unfold new; apply Forall_forall;
        intros c Hc; apply in_map_iff in Hc as [e [<- He]].
      * unfold accepted_correspondence. cbn [fst snd].
        split; [apply Hsub; now left|].
        destruct (@made_of_at_position fs es e Hmade He) as [k Hk].
        exists tr0, fs, tr1, k. auto.
      * unfold sound_correspondence. cbn [fst snd].
        eapply Forall_forall in Hes; eassumption.
    + cbn [accumulate]. apply IH; assumption.
Qed.

End PairFacts.

(** The aggregate returned by [extract_feature_points] lists, side by side,
    the endpoints of accepted correspondences of accepted frame pairs. *)
Lemma extract_feature_points_correspondences `{V : Vision} (self : FeatureExtractor)
      (tr : Trace) (out : FeatureSet (list nat)) (tr' : Trace) :
  Extractor.extract_feature_points self tr = (inr out, tr') ->
  exists cs,
    out = Extractor.feature_set_of_correspondences cs
    /\ Forall (Extractor.accepted_correspondence self (Extractor._get_frame_data self)) cs
    /\ Forall (Extractor.sound_correspondence (Extractor._get_frame_data self)) cs.
Proof.
  unfold Extractor.extract_feature_points. intro H.
  repeat step_m.
  match goal with
  | H : tqdm_imap _ _ _ = _ |- _ => apply tqdm_imap_inr in H; rename H into Hsweep
  end.
  destruct (@accumulate_correspondences V self (Extractor._get_frame_data self)
              (frame_pairs self) _ Hsweep (fun p Hp => Hp)
              (Extractor.mkAccum [] [] [] [] [] [] 0) [] eq_refl)
    as [cs [Hcs [Hacc Hsound]]].
  exists cs. auto.
Qed.

(** ** Claims about the correspondence extractor *)

Example extract_scene :
  Extractor.extract_feature_points Scene.extractor []
  = (inr (Scene.aggregate 7), Scene.events Scene.final_mask).
Proof. vm_compute. reflexivity. Qed.

Example extract_signed_scene :
  Extractor.extract_feature_points Scene.signed_extractor []
  = (inr (Scene.aggregate (-7)), Scene.events Scene.final_mask).
Proof. vm_compute. reflexivity. Qed.

(** A correspondence with a negative depth is emitted: the depth filter only
    discards depths that are exactly zero. *)
Lemma C1_negative_depth_emitted :
  exists out tr',
    Extractor.extract_feature_points Scene.signed_extractor [] = (inr out, tr')
    /\ In (-7)%Q (depth (frame_i out))
    /\ ~ (0 < -7)%Q.
Proof.
  exists (Scene.aggregate (-7)), (Scene.events Scene.final_mask).
  split; [vm_compute; reflexivity|].
  split; [cbn; tauto | discriminate].
Qed.

Lemma depth_at_In (depth_map : DepthMap) (p : Point) (d : Q) :
  Extractor.depth_at depth_map p = inr d -> exists row, In row depth_map /\ In d row.
Proof.
  unfold Extractor.depth_at.
  destruct (Seq.index depth_map _) as [e|row] eqn:E; cbn [exc_bind]; [discriminate|].
  intro H. exists row. split; eapply index_In; eassumption.
Qed.

Lemma measured_nonnegative `{V : Vision} (fd : FrameData) (idx : nat) (p : Point) (d : Q) :
  (forall depth_map row x, In depth_map (depth_maps fd) -> In row depth_map -> In x row ->
                           (0 <= x)%Q) ->
  Extractor.measured fd idx p d -> (0 <= d)%Q.
Proof.
  intros Hnn [depth_map [Hdm Hd]].
  apply index_In in Hdm. apply depth_at_In in Hd as [row [Hrow Hin]]. eauto.
Qed.

Lemma nonzero_nonnegative_positive (d : Q) : ~ (d == 0)%Q -> (0 <= d)%Q -> (0 < d)%Q.
Proof.
  intros Hnz Hle. apply Qle_lt_or_eq in Hle as [Hlt|Heq]; [assumption|].
  exfalso. apply Hnz. now symmetry.
Qed.

(** C1 (amended): every correspondence in the returned feature set has
    non-zero depth at both endpoints, each depth being the entry of the
    frame's depth map at the rounded pixel location of its point; a match
    with a zero depth at either endpoint is discarded.  The depths are
    strictly positive whenever the depth maps hold no negative entry. *)
Theorem C1_emitted_depths_nonzero `{V : Vision} (self : FeatureExtractor)
        (tr : Trace) (out : FeatureSet (list nat)) (tr' : Trace) :
  Extractor.extract_feature_points self tr = (inr out, tr') ->
  let fd := Extractor._get_frame_data self in
  Forall (fun d => ~ (d == 0)%Q) (depth (frame_i out))
  /\ Forall (fun d => ~ (d == 0)%Q) (depth (frame_j out))
  /\ (exists cs,
         out = Extractor.feature_set_of_correspondences cs
         /\ Forall (fun c =>
                      Extractor.nonzero_depths (snd c)
                      /\ Extractor.measured fd (fst (fst c))
                           (Extractor.ep_point_i (snd c)) (Extractor.ep_depth_i (snd c))
                      /\ Extractor.measured fd (snd (fst c))
                           (Extractor.ep_point_j (snd c)) (Extractor.ep_depth_j (snd c)))
                   cs)
  /\ ((forall depth_map row x,
          In depth_map (depth_maps fd) -> In row depth_map -> In x row -> (0 <= x)%Q) ->
      Forall (fun d => (0 < d)%Q) (depth (frame_i out))
      /\ Forall (fun d => (0 < d)%Q) (depth (frame_j out))).
Proof.
  intros H fd.
  apply extract_feature_points_correspondences in H as [cs [-> [_ Hsound]]].
  fold fd in Hsound.
  cbn [Extractor.feature_set_of_correspondences frame_i frame_j depth].
  rewrite !Forall_map.
  split; [|split; [|split]].
  - eapply Forall_impl; [|exact Hsound]. intros c [[Hi _] _]. exact Hi.
  - eapply Forall_impl; [|exact Hsound]. intros c [[_ Hj] _]. exact Hj.
  - exists cs. split; [reflexivity|exact Hsound].
  - intro Hnn. split.
    + eapply Forall_impl; [|exact Hsound]. intros c [[Hi _] [Hm _]].
      apply nonzero_nonnegative_positive; [exact Hi|].
      eapply measured_nonnegative; eassumption.
    + eapply Forall_impl; [|exact Hsound]. intros c [[_ Hj] [_ Hm]].
      apply nonzero_nonnegative_positive; [exact Hj|].
      eapply measured_nonnegative; eassumption.
Qed.

Lemma C1_emitted_depths_nonzero_witness :
  Extractor.extract_feature_points Scene.extractor []
  = (inr (Scene.aggregate 7), Scene.events Scene.final_mask)
  /\ Forall (fun d => ~ (d == 0)%Q) (depth (frame_i (Scene.aggregate 7)))
  /\ Forall (fun d => ~ (d == 0)%Q) (depth (frame_j (Scene.aggregate 7))).
Proof.
  assert (H : Extractor.extract_feature_points Scene.extractor []
              = (inr (Scene.aggregate 7), Scene.events Scene.final_mask))
    by (vm_compute; reflexivity).
  split; [exact H|].
  destruct (@C1_emitted_depths_nonzero Scene.vision Scene.extractor [] _ _ H)
    as [Hi [Hj _]].
  split; assumption.
Defined.

(** C7: the six lists of the returned feature set have one length, and
    position [k] of the i-side and of the j-side hold the frame indices,
    points and depths of one correspondence: one position of the feature set
    of one sampled frame pair that [_get_image_features] accepted. *)
Theorem C7_parallel_lists `{V : Vision} (self : FeatureExtractor)
        (tr : Trace) (out : FeatureSet (list nat)) (tr' : Trace) :
  Extractor.extract_feature_points self tr = (inr out, tr') ->
  let fd := Extractor._get_frame_data self in
  let n := length (index (frame_i out)) in
  (length (points (frame_i out)) = n /\ length (depth (frame_i out)) = n
   /\ length (index (frame_j out)) = n /\ length (points (frame_j out)) = n
   /\ length (depth (frame_j out)) = n)
  /\ (exists cs,
         out = Extractor.feature_set_of_correspondences cs
         /\ Forall (Extractor.accepted_correspondence self fd) cs)
  /\ (forall k, k < n ->
        exists c,
          Extractor.accepted_correspondence self fd c
          /\ nth_error (index (frame_i out)) k = Some (fst (fst c))
          /\ nth_error (points (frame_i out)) k = Some (Extractor.ep_point_i (snd c))
          /\ nth_error (depth (frame_i out)) k = Some (Extractor.ep_depth_i (snd c))
          /\ nth_error (index (frame_j out)) k = Some (snd (fst c))
          /\ nth_error (points (frame_j out)) k = Some (Extractor.ep_point_j (snd c))
          /\ nth_error (depth (frame_j out)) k = Some (Extractor.ep_depth_j (snd c))).
Proof.
  intros H fd.
  apply extract_feature_points_correspondences in H as [cs [-> [Hacc _]]].
  fold fd in Hacc. intro n. subst n.
  cbn [Extractor.feature_set_of_correspondences frame_i frame_j index points depth].
  rewrite !length_map.
  split; [repeat split; reflexivity|].
  split; [exists cs; auto|].
  intros k Hk.
  destruct (nth_error cs k) as [c|] eqn:Hc.
  - exists c. split.
    + eapply Forall_forall; [exact Hacc|]. eapply nth_error_In; exact Hc.
    + repeat split;
        match goal with
        | |- nth_error (map ?f _) _ = _ => exact (map_nth_error f k cs Hc)
        end.
  - apply nth_error_None in Hc. exfalso. apply Nat.lt_nge in Hk. apply Hk. exact Hc.
Qed.

Lemma C7_parallel_lists_witness :
  Extractor.extract_feature_points Scene.extractor []
  = (inr (Scene.aggregate 7), Scene.events Scene.final_mask)
  /\ exists cs,
      Scene.aggregate 7 = Extractor.feature_set_of_correspondences cs
      /\ Forall (Extractor.accepted_correspondence
                   Scene.extractor (Extractor._get_frame_data Scene.extractor)) cs.
Proof.
  assert (H : Extractor.extract_feature_points Scene.extractor []
              = (inr (Scene.aggregate 7), Scene.events Scene.final_mask))
    by (vm_compute; reflexivity).
  split; [exact H|].
  exact (proj1 (proj2 (@C7_parallel_lists Scene.vision Scene.extractor [] _ _ H))).
Defined.

Section RejectionFacts.
Context `{V : Vision}.
Import Extractor.

Variables (self : FeatureExtractor) (fd : FrameData).

Lemma get_key_points_trace (idx : nat) (tr : Trace) (r : list Point * Descriptors)
      (tr' : Trace) :
  _get_key_points_and_descriptors self fd idx tr = (inr r, tr') ->
  tr' = tr ++ [EvDetectAndCompute idx].
Proof.
  unfold _get_key_points_and_descriptors. intro H. repeat step_m. reflexivity.
Qed.

Lemma too_few_true (n : nat) :
  too_few self n = true <-> (Z.of_nat n < min_features self)%Z.
Proof. unfold too_few. apply Z.ltb_lt. Qed.

(** The two later sufficiency checks reject in the same way: the pair yields
    [None], no exception. *)
Lemma rejected_after_filter (i j : nat) (tr : Trace)
      (key_points_i key_points_j : list Point) (descriptors_i descriptors_j : Descriptors)
      (tr1 tr2 : Trace) (st : Filtered) :
  _get_key_points_and_descriptors self fd i tr = (inr (key_points_i, descriptors_i), tr1) ->
  _get_key_points_and_descriptors self fd j tr1 = (inr (key_points_j, descriptors_j), tr2) ->
  too_few self (Nat.min (length key_points_i) (length key_points_j)) = false ->
  _filter_matches fd i j key_points_i key_points_j (knnMatch descriptors_i descriptors_j)
  = inr st ->
  too_few self (length (f_points_i st)) = true ->
  fst (_get_image_features self fd (i, j) tr) = inr None.
Proof.
  intros Hi Hj Hmin Hst Hfew.
  unfold _get_image_features, bind. rewrite Hi, Hj, Hmin.
  unfold emit, lift. rewrite Hst, Hfew.
  unfold _save_matches_visualisation, emit, ret. destruct (debug_path_set fd); reflexivity.
Qed.

Lemma rejected_after_ransac (i j : nat) (tr : Trace)
      (key_points_i key_points_j : list Point) (descriptors_i descriptors_j : Descriptors)
      (tr1 tr2 tr3 : Trace) (st st' : Filtered) :
  _get_key_points_and_descriptors self fd i tr = (inr (key_points_i, descriptors_i), tr1) ->
  _get_key_points_and_descriptors self fd j tr1 = (inr (key_points_j, descriptors_j), tr2) ->
  too_few self (Nat.min (length key_points_i) (length key_points_j)) = false ->
  _filter_matches fd i j key_points_i key_points_j (knnMatch descriptors_i descriptors_j)
  = inr st ->
  too_few self (length (f_points_i st)) = false ->
  _filter_matches_ransac st (tr2 ++ [EvKnnMatch]) = (inr st', tr3) ->
  too_few self (length (f_points_i st')) = true ->
  fst (_get_image_features self fd (i, j) tr) = inr None.
Proof.
  intros Hi Hj Hmin Hst Hfew Hransac Hfew'.
  unfold _get_image_features, bind. rewrite Hi, Hj, Hmin.
  unfold emit at 1. unfold lift. rewrite Hst, Hfew, Hransac, Hfew'.
  unfold _save_matches_visualisation, emit, ret. destruct (debug_path_set fd); reflexivity.
Qed.

End RejectionFacts.

(** C9: when the smaller of the two key point counts is below [min_features],
    [_get_image_features] returns [None] (no exception) and the only events of
    the pair are the two detections: the matcher is not invoked, nothing is
    fitted or saved.  The sweep goes on with the remaining pairs, and the
    accumulation loop skips the [None]: the aggregate lists and the count of
    good pairs are as without the pair. *)
Theorem C9_too_few_key_points `{V : Vision} (self : FeatureExtractor) (fd : FrameData)
        (i j : nat) (tr : Trace)
        (key_points_i key_points_j : list Point) (descriptors_i descriptors_j : Descriptors)
        (tr1 tr2 : Trace) :
  Extractor._get_key_points_and_descriptors self fd i tr
  = (inr (key_points_i, descriptors_i), tr1) ->
  Extractor._get_key_points_and_descriptors self fd j tr1
  = (inr (key_points_j, descriptors_j), tr2) ->
  (Z.of_nat (Nat.min (length key_points_i) (length key_points_j)) < min_features self)%Z ->
  Extractor._get_image_features self fd (i, j) tr = (inr None, tr2)
  /\ tr2 = tr ++ [EvDetectAndCompute i; EvDetectAndCompute j]
  /\ ~ In EvKnnMatch [EvDetectAndCompute i; EvDetectAndCompute j]
  /\ (forall rest,
         tqdm_imap (Extractor._get_image_features self fd) ((i, j) :: rest) tr
         = let '(r, tr3) := tqdm_imap (Extractor._get_image_features self fd) rest tr2 in
           (match r with
            | inl e => inl e
            | inr results => inr (None :: results)
            end, tr3))
  /\ (forall results acc,
         Py.for_each (None :: results) Extractor.accumulate acc
         = Py.for_each results Extractor.accumulate acc).
Proof.
  intros Hi Hj Hmin.
  assert (Hget : Extractor._get_image_features self fd (i, j) tr = (inr None, tr2)).
  { unfold Extractor._get_image_features, bind. rewrite Hi, Hj.
    apply too_few_true in Hmin. rewrite Hmin. reflexivity. }
  split; [exact Hget|].
  split.
  { apply get_key_points_trace in Hi, Hj. subst. rewrite <- app_assoc. reflexivity. }
  split.
  { intros [H|[H|[]]]; discriminate. }
  split.
  - intro rest. cbn [tqdm_imap]. unfold bind at 1. rewrite Hget.
    unfold bind.
    destruct (tqdm_imap (Extractor._get_image_features self fd) rest tr2)
      as [[e|results] tr3]; reflexivity.
  - reflexivity.
Qed.

Lemma C9_too_few_key_points_witness :
  let fd := Extractor._get_frame_data Scene.extractor in
  Extractor._get_key_points_and_descriptors Scene.extractor fd 1 []
  = (inr (Scene.key_points8, 1), [EvDetectAndCompute 1])
  /\ Extractor._get_key_points_and_descriptors Scene.extractor fd 2 [EvDetectAndCompute 1]
     = (inr (Scene.key_points2, 2), [EvDetectAndCompute 1; EvDetectAndCompute 2])
  /\ (Z.of_nat (Nat.min (length Scene.key_points8) (length Scene.key_points2))
      < min_features Scene.extractor)%Z
  /\ Extractor._get_image_features Scene.extractor fd (1, 2) []
     = (inr None, [EvDetectAndCompute 1; EvDetectAndCompute 2]).
Proof.
  intro fd.
  assert (H1 : Extractor._get_key_points_and_descriptors Scene.extractor fd 1 []
               = (inr (Scene.key_points8, 1), [EvDetectAndCompute 1])) by reflexivity.
  assert (H2 : Extractor._get_key_points_and_descriptors Scene.extractor fd 2
                 [EvDetectAndCompute 1]
               = (inr (Scene.key_points2, 2), [EvDetectAndCompute 1; EvDetectAndCompute 2]))
    by reflexivity.
  assert (H3 : (Z.of_nat (Nat.min (length Scene.key_points8) (length Scene.key_points2))
                < min_features Scene.extractor)%Z) by reflexivity.
  repeat (split; [assumption|]).
  exact (proj1 (@C9_too_few_key_points Scene.vision Scene.extractor fd 1 2 []
                  _ _ _ _ _ _ H1 H2 H3)).
Defined.

(** C10: [__init__] raises [ValueError] (the specification's
    ConfigurationError) when [min_features] is not an integer or is below 5
    (for instance 3), and when [max_features] is given and is not an integer
    or does not exceed [min_features].  When an extractor is produced, it
    stores the arguments as given: nothing is clamped. *)
Theorem C10_invalid_configuration `{V : Vision} (ds : Dataset) (pairs : FramePairs)
        (ignore_dynamic : bool) :
  (forall (z : Z) (max_arg : PyArg),
      (z < 5)%Z -> Extractor.init ds pairs (PyInt z) max_arg ignore_dynamic = inl ValueError)
  /\ (forall max_arg : PyArg,
         Extractor.init ds pairs (PyInt 3) max_arg ignore_dynamic = inl ValueError
         /\ Extractor.init ds pairs PyNone max_arg ignore_dynamic = inl ValueError
         /\ Extractor.init ds pairs PyOther max_arg ignore_dynamic = inl ValueError)
  /\ (forall (mn mx : Z),
         (mx <= mn)%Z ->
         Extractor.init ds pairs (PyInt mn) (PyInt mx) ignore_dynamic = inl ValueError)
  /\ (forall min_arg : PyArg,
         Extractor.init ds pairs min_arg PyOther ignore_dynamic = inl ValueError)
  /\ (forall (min_arg max_arg : PyArg) (ex : FeatureExtractor) (ws : list Warning),
         Extractor.init ds pairs min_arg max_arg ignore_dynamic = inr (ex, ws) ->
         exists mn,
           min_arg = PyInt mn /\ (5 <= mn)%Z /\ min_features ex = mn
           /\ ((max_arg = PyNone /\ max_features ex = None)
               \/ exists mx, max_arg = PyInt mx /\ (mn < mx)%Z /\ max_features ex = Some mx)
           /\ dataset ex = ds /\ frame_pairs ex = pairs
           /\ ignore_dynamic_objects ex = ignore_dynamic).
Proof.
  split; [|split; [|split; [|split]]].
  - intros z max_arg Hz. unfold Extractor.init.
    apply Z.ltb_lt in Hz. now rewrite Hz.
  - intro max_arg. repeat split; reflexivity.
  - intros mn mx Hle. unfold Extractor.init.
    destruct (mn <? 5)%Z; [reflexivity|].
    apply Z.leb_le in Hle. now rewrite Hle.
  - intro min_arg. unfold Extractor.init.
    destruct min_arg as [mn| |]; try reflexivity.
    destruct (mn <? 5)%Z; reflexivity.
  - intros min_arg max_arg ex ws. unfold Extractor.init.
    destruct min_arg as [mn| |]; try discriminate.
    destruct (Z.ltb_spec mn 5); [discriminate|].
    destruct max_arg as [mx| |]; cbn [exc_bind]; try discriminate.
    + destruct (Z.leb_spec mx mn); cbn [exc_bind]; [discriminate|].
      destruct (SIFT_create (Some mx)); cbn [exc_bind]; [discriminate|].
      intro Hex. inversion Hex; subst. exists mn. cbn.
      repeat split; auto. right. exists mx. auto.
    + destruct (SIFT_create None); cbn [exc_bind]; [discriminate|].
      intro Hex. inversion Hex; subst. exists mn. cbn.
      repeat split; auto.
Qed.

Example init_scene :
  Scene.extractor_and_warnings = inr (Scene.extractor, [WarnMinFeaturesBelow20]).
Proof. reflexivity. Qed.

Example init_min_features_3 :
  Extractor.init Scene.data [] (PyInt 3) PyNone true = inl ValueError.
Proof. reflexivity. Qed.

(** ** More about the frame pair sampler *)

Lemma filter_all {A : Type} (p : A -> bool) (l : list A) :
  (forall x, In x l -> p x = true) -> filter p l = l.
Proof.
  induction l as [|a l IH]; intro H; simpl; [reflexivity|].
  rewrite (H a (or_introl eq_refl)), IH; [reflexivity|].
  intros; apply H; now right.
Qed.

Lemma filter_map_comm {A B : Type} (p : B -> bool) (f : A -> B) (l : list A) :
  filter p (map f l) = map f (filter (fun x => p (f x)) l).
Proof.
  induction l as [|a l IH]; simpl; [reflexivity|].
  destruct (p (f a)); simpl; now rewrite IH.
Qed.

(** A predicate that holds exactly below [q] keeps a prefix of [0 .. c - 1]. *)
Lemma filter_seq_prefix (p : nat -> bool) (c q : nat) :
  q <= c ->
  (forall k, k < c -> (p k = true <-> k < q)) ->
  filter p (seq 0 c) = seq 0 q.
Proof.
  revert q. induction c as [|c IH]; intros q Hq Hp.
  - now replace q with 0 by lia.
  - rewrite seq_S, filter_app. cbn [filter plus].
    destruct (Nat.eq_dec q (S c)) as [->|Hne].
    + rewrite (IH c); [|lia|].
      * destruct (p c) eqn:Hc; [now rewrite seq_S|].
        assert (p c = true) by (apply Hp; lia). congruence.
      * intros k Hk. split; [auto|]. intros _. apply Hp; lia.
    + rewrite (IH q); [|lia|].
      * destruct (p c) eqn:Hc; [|now rewrite app_nil_r].
        apply Hp in Hc; lia.
      * intros k Hk. apply Hp. lia.
Qed.

Lemma range3_unit (n : nat) : Py.range3 0 n 1 = seq 0 n.
Proof.
  unfold Py.range3. rewrite Nat.sub_0_r, Nat.add_0_r, Nat.div_1_r.
  rewrite <- (map_id (seq 0 n)) at 2. apply map_ext. intro k. lia.
Qed.

(** Level 0 of the hierarchy is the list of consecutive pairs. *)
Lemma level_spec_0 (n : nat) : Sampler.level_spec n 0 = Sampler.consecutive n.
Proof.
  rewrite consecutive_eq. unfold Sampler.level_spec. cbn [Nat.pow].
  rewrite range3_unit. f_equal.
  apply filter_seq_prefix; [lia|].
  intros k Hk. rewrite Nat.ltb_lt. lia.
Qed.

(** Level [l] holds [floor((n - 1) / 2 ^ l)] pairs. *)
Lemma level_spec_length (n level : nat) :
  1 <= n -> length (Sampler.level_spec n level) = (n - 1) / 2 ^ level.
Proof.
  intro Hn. unfold Sampler.level_spec, Py.range3.
  pose proof (pow2_pos level) as Hs. set (s := 2 ^ level) in *.
  rewrite length_map, filter_map_comm, length_map, Nat.sub_0_r.
  rewrite (filter_seq_prefix _ (q := (n - 1) / s)).
  - apply length_seq.
  - apply Nat.Div0.div_le_mono. lia.
  - intros k _. rewrite Nat.ltb_lt. split.
    + intro H. apply Nat.div_le_lower_bound with (q := S k); lia.
    + intro H. assert (Hle : S k <= (n - 1) / s) by lia.
      apply (Nat.mul_le_mono_l _ _ s) in Hle.
      pose proof (Nat.Div0.mul_div_le (n - 1) s). nia.
Qed.

Lemma levels_length_bound (n levels : nat) :
  1 <= n ->
  length (flat_map (Sampler.level_spec n) (seq 0 (S levels))) + (n - 1) / 2 ^ levels
  <= 2 * (n - 1).
Proof.
  intro Hn. induction levels as [|l IH].
  - cbn [seq flat_map]. rewrite app_nil_r, level_spec_0, consecutive_eq.
    rewrite length_map, length_seq. cbn [Nat.pow]. rewrite Nat.div_1_r. lia.
  - rewrite seq_S, flat_map_app, length_app. cbn [flat_map plus].
    rewrite app_nil_r, level_spec_length by assumption.
    assert (H2 : 2 * ((n - 1) / 2 ^ S l) <= (n - 1) / 2 ^ l).
    { cbn [Nat.pow]. rewrite (Nat.mul_comm 2 (2 ^ l)), <- Nat.Div0.div_div.
      apply Nat.Div0.mul_div_le. }
    lia.
Qed.

(** Bounds of the sampled indices, for the statements below. *)
Lemma sample_frame_pairs_bounds (n : nat) (mode : option FrameSamplingMode)
        (pairs : FramePairs) :
  Sampler.sample_frame_pairs n mode = inr pairs ->
  forall i j, In (i, j) pairs -> i < j < n.
Proof.
  destruct mode as [[| |]|]; cbn [Sampler.sample_frame_pairs]; intro H.
  - inversion H; subst. intros i j Hin. now apply in_exhaustive.
  - inversion H; subst. intros i j Hin. rewrite consecutive_eq in Hin.
    apply in_map_iff in Hin as [k [Hk Hin]]. inversion Hk; subst.
    apply in_seq in Hin. lia.
  - destruct (le_lt_dec 2 n) as [Hn|Hn].
    + rewrite (hierarchical_eq Hn) in H. inversion H; subst.
      intros i j. apply hierarchical_spec_lt.
    + unfold Sampler.hierarchical, Sampler.max_level in H.
      destruct n as [|[|n]]; [discriminate|discriminate|lia].
  - discriminate.
Qed.

(** X1: every pair the sampler returns, in any mode and for any frame
    count, consists of two valid frame indices in increasing order. *)
Theorem sampled_indices_valid (n : nat) (mode : option FrameSamplingMode)
        (pairs : FramePairs) :
  Sampler.sample_frame_pairs n mode = inr pairs ->
  forall i j, In (i, j) pairs -> i < j < n.
Proof. eapply sample_frame_pairs_bounds; eassumption. Qed.

Lemma sampled_indices_valid_witness :
  Sampler.sample_frame_pairs 4 (Some CONSECUTIVE) = inr [(0, 1); (1, 2); (2, 3)]
  /\ forall i j, In (i, j) [(0, 1); (1, 2); (2, 3)] -> i < j < 4.
Proof.
  split; [reflexivity|].
  exact (@sampled_indices_valid 4 (Some CONSECUTIVE) [(0, 1); (1, 2); (2, 3)] eq_refl).
Defined.

(** X2: a supported mode returns at least one pair exactly when there are at
    least two frames.  With fewer, EXHAUSTIVE and CONSECUTIVE return the empty
    list, while HIERARCHICAL raises ([ValueError] without frames,
    [OverflowError] with one); a value that is no sampling mode raises
    [RuntimeError] for every frame count. *)
Theorem sampler_needs_two_frames (n : nat) :
  (forall mode,
      (exists pairs, Sampler.sample_frame_pairs n (Some mode) = inr pairs /\ pairs <> [])
      <-> 2 <= n)
  /\ (n < 2 ->
      Sampler.sample_frame_pairs n (Some EXHAUSTIVE) = inr []
      /\ Sampler.sample_frame_pairs n (Some CONSECUTIVE) = inr []
      /\ Sampler.sample_frame_pairs n (Some HIERARCHICAL)
         = inl (if n =? 0 then ValueError else OverflowError))
  /\ Sampler.sample_frame_pairs n None = inl RuntimeError.
Proof.
  assert (Hsmall : n < 2 ->
                   Sampler.sample_frame_pairs n (Some EXHAUSTIVE) = inr []
                   /\ Sampler.sample_frame_pairs n (Some CONSECUTIVE) = inr []
                   /\ Sampler.sample_frame_pairs n (Some HIERARCHICAL)
                      = inl (if n =? 0 then ValueError else OverflowError)).
  { intro Hn. destruct n as [|[|n]]; [repeat split..|lia]. }
  split; [|split; [exact Hsmall | reflexivity]].
  intro mode. split.
  - intros [pairs [Hp Hne]].
    destruct (le_lt_dec 2 n) as [Hn|Hn]; [assumption|].
    destruct (Hsmall Hn) as [He [Hc Hh]].
    destruct mode; congruence.
  - intro Hn. destruct mode; cbn [Sampler.sample_frame_pairs].
    + exists (Sampler.exhaustive n). split; [reflexivity|].
      intro E. assert (Hin : In (0, 1) (Sampler.exhaustive n)) by (apply in_exhaustive; lia).
      rewrite E in Hin. contradiction.
    + exists (Sampler.consecutive n). split; [reflexivity|].
      intro E. apply (f_equal (@length _)) in E.
      rewrite consecutive_eq, length_map, length_seq in E. simpl in E. lia.
    + exists (Sampler.hierarchical_spec n). split; [now apply hierarchical_eq|].
      intro E. assert (Hin : In (0, 1) (Sampler.hierarchical_spec n)).
      { apply in_hierarchical_spec. exists 0, 0. simpl. lia. }
      rewrite E in Hin. contradiction.
Qed.

(** X3: the hierarchical output starts with the consecutive pairs, followed
    by the more distant ones, and every pair of it is among the exhaustive
    pairs. *)
Theorem sampling_modes_nested (n : nat) (hierarchical : FramePairs) :
  Sampler.sample_frame_pairs n (Some HIERARCHICAL) = inr hierarchical ->
  exists consecutive exhaustive distant,
    Sampler.sample_frame_pairs n (Some CONSECUTIVE) = inr consecutive
    /\ Sampler.sample_frame_pairs n (Some EXHAUSTIVE) = inr exhaustive
    /\ hierarchical = consecutive ++ distant
    /\ (forall i j, In (i, j) distant -> i + 2 <= j)
    /\ incl hierarchical exhaustive.
Proof.
  intro H.
  assert (Hn : 2 <= n).
  { destruct (le_lt_dec 2 n) as [Hn|Hn]; [assumption|].
    cbn in H. unfold Sampler.hierarchical, Sampler.max_level in H.
    destruct n as [|[|n]]; [discriminate|discriminate|lia]. }
  cbn [Sampler.sample_frame_pairs] in H. rewrite (hierarchical_eq Hn) in H.
  inversion H; subst; clear H.
  exists (Sampler.consecutive n), (Sampler.exhaustive n),
    (flat_map (Sampler.level_spec n) (seq 1 (Nat.log2 (n - 1)))).
  split; [reflexivity|]. split; [reflexivity|].
  split; [|split].
  - unfold Sampler.hierarchical_spec. rewrite Nat.add_1_r. cbn [seq flat_map].
    now rewrite level_spec_0.
  - intros i j Hin. apply in_flat_map in Hin as [level [Hl Hin]].
    apply in_seq in Hl. apply in_level_spec in Hin as [k [_ [Hj _]]].
    assert (2 ^ 1 <= 2 ^ level) by (apply Nat.pow_le_mono_r; lia).
    simpl in *. lia.
  - intros [i j] Hin. apply hierarchical_spec_lt in Hin. now apply in_exhaustive.
Qed.

Lemma sampling_modes_nested_witness :
  Sampler.sample_frame_pairs 5 (Some HIERARCHICAL)
  = inr [(0, 1); (1, 2); (2, 3); (3, 4); (0, 2); (2, 4); (0, 4)]
  /\ exists consecutive exhaustive distant,
      Sampler.sample_frame_pairs 5 (Some CONSECUTIVE) = inr consecutive
      /\ Sampler.sample_frame_pairs 5 (Some EXHAUSTIVE) = inr exhaustive
      /\ [(0, 1); (1, 2); (2, 3); (3, 4); (0, 2); (2, 4); (0, 4)] = consecutive ++ distant
      /\ (forall i j, In (i, j) distant -> i + 2 <= j)
      /\ incl [(0, 1); (1, 2); (2, 3); (3, 4); (0, 2); (2, 4); (0, 4)] exhaustive.
Proof.
  split; [reflexivity|].
  exact (@sampling_modes_nested 5 _ eq_refl).
Defined.

(** X4: for [n >= 2] frames the hierarchical mode returns at least [n - 1]
    and at most [2 n - 3] pairs: linearly many, where the exhaustive mode
    returns [n (n - 1) / 2]. *)
Theorem hierarchical_size (n : nat) (pairs : FramePairs) :
  Sampler.sample_frame_pairs n (Some HIERARCHICAL) = inr pairs ->
  n - 1 <= length pairs <= 2 * n - 3.
Proof.
  intro H.
  assert (Hn : 2 <= n).
  { destruct (le_lt_dec 2 n) as [Hn|Hn]; [assumption|].
    cbn in H. unfold Sampler.hierarchical, Sampler.max_level in H.
    destruct n as [|[|n]]; [discriminate|discriminate|lia]. }
  cbn [Sampler.sample_frame_pairs] in H. rewrite (hierarchical_eq Hn) in H.
  inversion H; subst; clear H.
  unfold Sampler.hierarchical_spec. rewrite Nat.add_1_r. split.
  - cbn [seq flat_map]. rewrite length_app, level_spec_0, consecutive_eq.
    rewrite length_map, length_seq. lia.
  - pose proof (@levels_length_bound n (Nat.log2 (n - 1)) ltac:(lia)) as Hb.
    assert (Hlast : 1 <= (n - 1) / 2 ^ Nat.log2 (n - 1)).
    { apply Nat.div_le_lower_bound; [apply Nat.pow_nonzero; discriminate|].
      rewrite Nat.mul_1_r. apply Nat.log2_spec. lia. }
    lia.
Qed.

Lemma hierarchical_size_witness :
  Sampler.sample_frame_pairs 9 (Some HIERARCHICAL)
  = inr (Sampler.hierarchical_spec 9)
  /\ 9 - 1 <= length (Sampler.hierarchical_spec 9) <= 2 * 9 - 3.
Proof.
  split; [reflexivity|].
  exact (@hierarchical_size 9 (Sampler.hierarchical_spec 9) eq_refl).
Defined.

(** ** More about the extractor: one frame pair *)

Section PairSteps.
Context `{V : Vision}.
Import Extractor.

Variables (self : FeatureExtractor) (fd : FrameData).

Lemma index_of_nat_lt {A : Type} (l : list A) (i : nat) (a : A) :
  Seq.index l (Z.of_nat i) = inr a -> i < length l.
Proof.
  unfold Seq.index.
  destruct (Z.ltb_spec (Z.of_nat i) 0) as [Hneg|_]; [lia|].
  destruct (Z.ltb_spec (Z.of_nat i) (Z.of_nat (length l))) as [Hlt|_].
  - intros _. lia.
  - rewrite andb_false_r. discriminate.
Qed.

Lemma index_of_nat_total {A : Type} (l : list A) (i : nat) :
  i < length l -> exists a, Seq.index l (Z.of_nat i) = inr a.
Proof.
  intro Hi. unfold Seq.index.
  destruct (Z.ltb_spec (Z.of_nat i) 0) as [Hneg|_]; [lia|].
  destruct (Z.leb_spec 0 (Z.of_nat i)) as [_|Hneg]; [|lia].
  destruct (Z.ltb_spec (Z.of_nat i) (Z.of_nat (length l))) as [_|Hge]; [|lia].
  cbn [andb]. rewrite Nat2Z.id.
  destruct (nth_error l i) as [a|] eqn:E; [eauto|].
  apply nth_error_None in E. lia.
Qed.

Lemma detection_index_valid (idx : nat) (tr : Trace) (r : list Point * Descriptors)
      (tr' : Trace) :
  _get_key_points_and_descriptors self fd idx tr = (inr r, tr') ->
  idx < length (frames fd).
Proof.
  unfold _get_key_points_and_descriptors. intro H. repeat step_m.
  eapply index_of_nat_lt; eassumption.
Qed.

Lemma save_visualisation_trace (i j : nat) (mask : list MaskEntry) (accepted : bool)
      (tr : Trace) (u : unit) (tr' : Trace) :
  _save_matches_visualisation fd i j mask accepted tr = (inr u, tr') ->
  tr' = tr ++ Pair.viz_events fd i j mask accepted.
Proof.
  unfold _save_matches_visualisation, Pair.viz_events.
  destruct (debug_path_set fd); intro H; step_m; [reflexivity|now rewrite app_nil_r].
Qed.

Lemma ransac_trace (st st' : Filtered) (tr tr' : Trace) :
  _filter_matches_ransac st tr = (inr st', tr') -> tr' = tr ++ [EvFindHomography].
Proof.
  unfold _filter_matches_ransac. intro H. repeat step_m.
  destruct a0 as [mask|]; [|discriminate]. repeat step_m. reflexivity.
Qed.

(** Every way [_get_image_features] returns. *)
Lemma get_image_features_cases (i j : nat) (tr : Trace) (r : option (FeatureSet nat))
      (tr' : Trace) :
  _get_image_features self fd (i, j) tr = (inr r, tr') ->
  exists key_points_i descriptors_i key_points_j descriptors_j,
    _get_key_points_and_descriptors self fd i tr
    = (inr (key_points_i, descriptors_i), tr ++ [EvDetectAndCompute i])
    /\ _get_key_points_and_descriptors self fd j (tr ++ [EvDetectAndCompute i])
       = (inr (key_points_j, descriptors_j),
          tr ++ [EvDetectAndCompute i; EvDetectAndCompute j])
    /\ ((too_few self (Nat.min (length key_points_i) (length key_points_j)) = true
         /\ r = None
         /\ tr' = tr ++ [EvDetectAndCompute i; EvDetectAndCompute j])
        \/ (too_few self (Nat.min (length key_points_i) (length key_points_j)) = false
            /\ exists st,
                _filter_matches fd i j key_points_i key_points_j
                                (knnMatch descriptors_i descriptors_j) = inr st
                /\ ((too_few self (length (f_points_i st)) = true
                     /\ r = None
                     /\ tr' = tr ++ [EvDetectAndCompute i; EvDetectAndCompute j; EvKnnMatch]
                                 ++ Pair.viz_events fd i j (f_matches_mask st) false)
                    \/ (too_few self (length (f_points_i st)) = false
                        /\ exists st',
                            _filter_matches_ransac st
                              (tr ++ [EvDetectAndCompute i; EvDetectAndCompute j; EvKnnMatch])
                            = (inr st',
                               tr ++ [EvDetectAndCompute i; EvDetectAndCompute j;
                                      EvKnnMatch; EvFindHomography])
                            /\ tr' = tr ++ [EvDetectAndCompute i; EvDetectAndCompute j;
                                            EvKnnMatch; EvFindHomography]
                                        ++ Pair.viz_events fd i j (f_matches_mask st')
                                             (negb (too_few self (length (f_points_i st'))))
                            /\ r = if too_few self (length (f_points_i st')) then None
                                   else Some (mkFeatureSet
                                                (mkFeatureData i (f_points_i st') (f_depth_i st'))
                                                (mkFeatureData j (f_points_j st') (f_depth_j st'))))))).
Proof.
  unfold _get_image_features. intro H.
  step_m. destruct a as [key_points_i descriptors_i].
  step_m. destruct a as [key_points_j descriptors_j].
  pose proof (get_key_points_trace _ _ _ _ Hm) as E1. subst tr0.
  pose proof (get_key_points_trace _ _ _ _ Hm0) as E2. subst tr1.
  rewrite <- app_assoc in *. cbn [app] in *.
  exists key_points_i, descriptors_i, key_points_j, descriptors_j.
  split; [exact Hm|]. split; [exact Hm0|].
  destruct (too_few self (Nat.min _ _)) eqn:Hmin.
  { left. step_m. auto. }
  right. split; [reflexivity|].
  repeat step_m. rewrite <- ?app_assoc in *. cbn [app] in *.
  match goal with
  | Hf : _filter_matches _ _ _ _ _ _ = inr ?st |- _ => exists st; split; [exact Hf|]
  end.
  match goal with
  | H : context [too_few self (length (f_points_i ?st))] |- _ =>
      destruct (too_few self (length (f_points_i st))) eqn:Hfew
  end.
  { left. repeat step_m.
    match goal with
    | Hv : _save_matches_visualisation _ _ _ _ _ _ = _ |- _ =>
        apply save_visualisation_trace in Hv; subst
    end.
    rewrite <- ?app_assoc. auto. }
  right. split; [reflexivity|].
  step_m.
  match goal with
  | Hr : _filter_matches_ransac _ _ = (inr ?st', _) |- _ =>
      pose proof (ransac_trace _ _ Hr) as E3; subst; exists st'
  end.
  rewrite <- ?app_assoc in *. cbn [app] in *.
  split; [assumption|].
  match goal with
  | H : context [too_few self (length (f_points_i ?st))] |- _ =>
      destruct (too_few self (length (f_points_i st))) eqn:Hfew'
  end;
    repeat step_m;
    match goal with
    | Hv : _save_matches_visualisation _ _ _ _ _ _ = _ |- _ =>
        apply save_visualisation_trace in Hv; subst
    end;
    rewrite <- ?app_assoc; auto.
Qed.

End PairSteps.

Section PairProperties.
Context `{V : Vision}.
Import Extractor.

Lemma somes_length_le {A : Type} (cs : list (option A)) : length (somes cs) <= length cs.
Proof. induction cs as [|[a|] cs IH]; simpl; lia. Qed.

Lemma good_matches_of_classified (cs : list (option Endpoints)) :
  Pair.good_matches (map mask_entry_of cs) = length (somes cs).
Proof.
  unfold Pair.good_matches. induction cs as [|[e|] cs IH]; simpl; auto.
Qed.

Lemma endpoints_are_key_points (fd : FrameData) (i j : nat)
      (key_points_i key_points_j : list Point) (m : DMatch) (e : Endpoints) :
  endpoints fd i j key_points_i key_points_j m = inr e ->
  In (ep_point_i e) key_points_i /\ In (ep_point_j e) key_points_j.
Proof.
  unfold endpoints.
  repeat match goal with
         | |- context [exc_bind ?x _] =>
             match x with
             | exc_bind _ _ => fail 1
             | _ => let E := fresh "E" in
                    destruct x as [?e|?a] eqn:E; cbn [exc_bind]; [discriminate|]
             end
         end.
  intro H. inversion H; subst. unfold ep_point_i, ep_point_j. cbn [fst snd].
  split; eapply index_In; eassumption.
Qed.

(** What [_filter_matches] returns, for the statements below. *)
Lemma filter_matches_lengths (fd : FrameData) (i j : nat)
        (key_points_i key_points_j : list Point) (matches : list (DMatch * DMatch))
        (res : Filtered) :
  _filter_matches fd i j key_points_i key_points_j matches = inr res ->
  length (f_points_j res) = length (f_points_i res)
  /\ length (f_depth_i res) = length (f_points_i res)
  /\ length (f_depth_j res) = length (f_points_i res)
  /\ length (f_points_i res) <= length matches
  /\ length (f_matches_mask res) = length matches
  /\ Forall (fun e => e = (1, 0)%Z \/ e = (0, 0)%Z) (f_matches_mask res)
  /\ Pair.good_matches (f_matches_mask res) = length (f_points_i res)
  /\ Forall (fun p => In p key_points_i) (f_points_i res)
  /\ Forall (fun p => In p key_points_j) (f_points_j res).
Proof.
  rewrite filter_matches_classified.
  destruct (Seq.exc_map _ matches) as [err|cs] eqn:E; cbn [exc_bind]; [discriminate|].
  intro H. inversion H; subst; clear H.
  cbn [f_points_i f_points_j f_depth_i f_depth_j f_matches_mask].
  rewrite !length_map, good_matches_of_classified.
  apply exc_map_inr in E.
  pose proof (Forall2_length E) as Hlen.
  pose proof (somes_length_le cs) as Hle.
  repeat split; try reflexivity; try lia.
  - apply Forall_map, Forall_forall. intros [e|] _; cbn; auto.
  - apply Forall_map. clear Hlen Hle.
    induction E as [|[m n] c matches cs Hc _ IH]; cbn [somes]; [constructor|].
    destruct c as [e|]; [|exact IH].
    constructor; [|exact IH].
    destruct (proj1 (classify_inr _ _ _ _ _ _ _ Hc e) eq_refl) as [_ [He _]].
    now apply endpoints_are_key_points in He.
  - apply Forall_map. clear Hlen Hle.
    induction E as [|[m n] c matches cs Hc _ IH]; cbn [somes]; [constructor|].
    destruct c as [e|]; [|exact IH].
    constructor; [|exact IH].
    destruct (proj1 (classify_inr _ _ _ _ _ _ _ Hc e) eq_refl) as [_ [He _]].
    now apply endpoints_are_key_points in He.
Qed.

(** X5: when [_filter_matches] returns, its four lists have one length, at
    most the number of candidates; the mask has one entry per candidate, each
    [[1, 0]] or [[0, 0]], and marks as many good matches as points were kept;
    every kept point is a key point of its frame. *)
Theorem filter_matches_shape (fd : FrameData) (i j : nat)
        (key_points_i key_points_j : list Point) (matches : list (DMatch * DMatch))
        (res : Filtered) :
  _filter_matches fd i j key_points_i key_points_j matches = inr res ->
  length (f_points_j res) = length (f_points_i res)
  /\ length (f_depth_i res) = length (f_points_i res)
  /\ length (f_depth_j res) = length (f_points_i res)
  /\ length (f_points_i res) <= length matches
  /\ length (f_matches_mask res) = length matches
  /\ Forall (fun e => e = (1, 0)%Z \/ e = (0, 0)%Z) (f_matches_mask res)
  /\ Pair.good_matches (f_matches_mask res) = length (f_points_i res)
  /\ Forall (fun p => In p key_points_i) (f_points_i res)
  /\ Forall (fun p => In p key_points_j) (f_points_j res).
Proof. eapply filter_matches_lengths; eassumption. Qed.

Lemma select_length {A : Type} (l : list A) (mask : list bool) :
  length l = length mask -> length (Seq.select l mask) = length (filter (fun b => b) mask).
Proof.
  revert mask. induction l as [|a l IH]; intros [|b mask] H; simpl in *; try lia.
  destruct b; simpl; rewrite IH; lia.
Qed.

Lemma bool_index_length {A : Type} (l : list A) (mask : list bool) (l' : list A) :
  Seq.bool_index l mask = inr l' -> length l = length mask.
Proof.
  unfold Seq.bool_index. destruct (Nat.eqb_spec (length l) (length mask)); [auto|discriminate].
Qed.

Lemma bool_index_mismatch {A : Type} (l : list A) (mask : list bool) :
  length l <> length mask -> Seq.bool_index l mask = inl IndexError.
Proof.
  unfold Seq.bool_index. destruct (Nat.eqb_spec (length l) (length mask)); [contradiction|auto].
Qed.

Lemma inliers_count (mask : list Z) :
  Pair.inliers mask = length (filter (fun b => b) (map (fun v => (0 <? v)%Z) mask)).
Proof. unfold Pair.inliers. now rewrite filter_map_comm, length_map. Qed.

(** What [_filter_matches_ransac] returns, for the statements below. *)
Lemma ransac_outcome (st : Filtered) (tr : Trace) :
  (forall st' tr',
      _filter_matches_ransac st tr = (inr st', tr') ->
      exists mask,
        findHomography (f_points_i st) (f_points_j st) = inr (Some mask)
        /\ length (f_points_i st) = length mask
        /\ length (f_points_j st) = length mask
        /\ length (f_depth_i st) = length mask
        /\ length (f_depth_j st) = length mask
        /\ f_points_i st' = Seq.select (f_points_i st) (map (fun v => (0 <? v)%Z) mask)
        /\ f_points_j st' = Seq.select (f_points_j st) (map (fun v => (0 <? v)%Z) mask)
        /\ f_depth_i st' = Seq.select (f_depth_i st) (map (fun v => (0 <? v)%Z) mask)
        /\ f_depth_j st' = Seq.select (f_depth_j st) (map (fun v => (0 <? v)%Z) mask)
        /\ length (f_points_i st') = Pair.inliers mask)
  /\ (findHomography (f_points_i st) (f_points_j st) = inr None ->
      _filter_matches_ransac st tr = (inl AttributeError, tr ++ [EvFindHomography]))
  /\ (forall mask,
         findHomography (f_points_i st) (f_points_j st) = inr (Some mask) ->
         length (f_points_i st) <> length mask ->
         _filter_matches_ransac st tr = (inl IndexError, tr ++ [EvFindHomography])).
Proof.
  split; [|split].
  - intros st' tr' H. unfold _filter_matches_ransac in H.
    repeat step_m.
    match goal with
    | Hf : findHomography _ _ = inr ?found |- _ => destruct found as [mask|]; [|discriminate]
    end.
    repeat step_m. exists mask.
    repeat match goal with
           | Hb : Seq.bool_index _ _ = inr _ |- _ =>
               pose proof (bool_index_length _ _ Hb); apply bool_index_inr in Hb
           end.
    subst. cbn [f_points_i f_points_j f_depth_i f_depth_j].
    rewrite length_map in *.
    repeat split; try assumption.
    rewrite select_length, inliers_count; [reflexivity|]. now rewrite length_map.
  - intro Hf. unfold _filter_matches_ransac, bind, emit, lift. rewrite Hf. reflexivity.
  - intros mask Hf Hlen. unfold _filter_matches_ransac, bind, emit, lift. rewrite Hf.
    destruct (Seq.bool_index (Seq.argwhere _ _) _) as [e|rejected] eqn:E.
    + unfold Seq.bool_index in E. destruct (_ =? _); inversion E. reflexivity.
    + rewrite bool_index_mismatch; [reflexivity|]. now rewrite !length_map.
Qed.

(** X6: [_filter_matches_ransac] keeps exactly the inliers: when it returns,
    the homography mask has one flag per point, the four lists are the
    entries at the positive flags, in order, and their length is the number
    of inliers.  Without a homography (the mask is [None]) it raises
    [AttributeError]; with a mask of another length it raises [IndexError]. *)
Theorem ransac_keeps_inliers (st : Filtered) (tr : Trace) :
  (forall st' tr',
      _filter_matches_ransac st tr = (inr st', tr') ->
      exists mask,
        findHomography (f_points_i st) (f_points_j st) = inr (Some mask)
        /\ length (f_points_i st) = length mask
        /\ length (f_points_j st) = length mask
        /\ length (f_depth_i st) = length mask
        /\ length (f_depth_j st) = length mask
        /\ f_points_i st' = Seq.select (f_points_i st) (map (fun v => (0 <? v)%Z) mask)
        /\ f_points_j st' = Seq.select (f_points_j st) (map (fun v => (0 <? v)%Z) mask)
        /\ f_depth_i st' = Seq.select (f_depth_i st) (map (fun v => (0 <? v)%Z) mask)
        /\ f_depth_j st' = Seq.select (f_depth_j st) (map (fun v => (0 <? v)%Z) mask)
        /\ length (f_points_i st') = Pair.inliers mask)
  /\ (findHomography (f_points_i st) (f_points_j st) = inr None ->
      _filter_matches_ransac st tr = (inl AttributeError, tr ++ [EvFindHomography]))
  /\ (forall mask,
         findHomography (f_points_i st) (f_points_j st) = inr (Some mask) ->
         length (f_points_i st) <> length mask ->
         _filter_matches_ransac st tr = (inl IndexError, tr ++ [EvFindHomography])).
Proof. eapply ransac_outcome; eassumption. Qed.

Lemma undo_outliers_nil (mm : list MaskEntry) : Pair.undo_outliers mm [] = mm.
Proof.
  induction mm as [|e mm IH]; simpl; [reflexivity|].
  destruct (is_accepted_entry e); [reflexivity|now rewrite IH].
Qed.

(** The assignment [matches_mask[accepted_match_indices[is_outlier]] = [0, 0]]
    walks the good matches and the inlier flags side by side. *)
Lemma undo_loop (mm : list MaskEntry) :
  forall (done : list MaskEntry) (is_inlier : list bool),
    Py.for_each
      (Seq.select
         (map fst (filter (fun kx : nat * MaskEntry => is_accepted_entry (snd kx))
                          (combine (seq (length done) (length mm)) mm)))
         (map negb is_inlier))
      (fun mm k => Seq.update k (fun _ => (0%Z, 0%Z)) mm) (done ++ mm)
    = done ++ Pair.undo_outliers mm is_inlier.
Proof.
  unfold Py.for_each.
  induction mm as [|e mm IH]; intros done is_inlier.
  - reflexivity.
  - cbn [length seq combine filter snd Pair.undo_outliers].
    assert (Hstep : forall x is_inlier,
               fold_left (fun mm k => Seq.update k (fun _ => (0%Z, 0%Z)) mm)
                 (Seq.select
                    (map fst (filter (fun kx : nat * MaskEntry => is_accepted_entry (snd kx))
                                     (combine (seq (S (length done)) (length mm)) mm)))
                    (map negb is_inlier))
                 (done ++ x :: mm)
               = done ++ x :: Pair.undo_outliers mm is_inlier).
    { intros x flags. pose proof (IH (done ++ [x]) flags) as IH'.
      rewrite length_app, Nat.add_1_r, <- !app_assoc in IH'. exact IH'. }
    destruct (is_accepted_entry e) eqn:He.
    + cbn [map fst]. destruct is_inlier as [|b is_inlier]; cbn [map Seq.select].
      * reflexivity.
      * destruct b; cbn [negb fold_left].
        -- apply Hstep.
        -- rewrite update_app_length. apply Hstep.
    + apply Hstep.
Qed.

Lemma undo_outliers_good (mm : list MaskEntry) :
  forall is_inlier,
    length is_inlier = Pair.good_matches mm ->
    Pair.good_matches (Pair.undo_outliers mm is_inlier)
    = length (filter (fun b => b) is_inlier)
    /\ length (Pair.undo_outliers mm is_inlier) = length mm
    /\ Forall2 (fun e e' => e' = e \/ (is_accepted_entry e = true /\ e' = (0, 0)%Z))
               mm (Pair.undo_outliers mm is_inlier).
Proof.
  unfold Pair.good_matches.
  induction mm as [|e mm IH]; intros is_inlier Hlen.
  - destruct is_inlier; [|discriminate]. simpl. auto.
  - cbn [Pair.undo_outliers filter] in *. destruct (is_accepted_entry e) eqn:He.
    + destruct is_inlier as [|b is_inlier]; [discriminate|].
      cbn [length] in Hlen. injection Hlen as Hlen.
      destruct (IH _ Hlen) as [Hgood [Hl Hall]].
      destruct b; cbn [filter length]; [rewrite He|]; cbn [is_accepted_entry fst snd];
        cbn; rewrite ?Hgood, ?Hl; repeat split; auto.
    + destruct (IH _ Hlen) as [Hgood [Hl Hall]].
      cbn [filter length]. rewrite He, Hgood, Hl. repeat split; auto.
Qed.

(** The mask after [_filter_matches_ransac], for the statements below. *)
Lemma ransac_mask_marks (st st' : Filtered) (tr tr' : Trace) :
  _filter_matches_ransac st tr = (inr st', tr') ->
  Pair.good_matches (f_matches_mask st) = length (f_points_i st) ->
  Pair.good_matches (f_matches_mask st') = length (f_points_i st')
  /\ length (f_matches_mask st') = length (f_matches_mask st)
  /\ Forall2 (fun e e' => e' = e \/ (is_accepted_entry e = true /\ e' = (0, 0)%Z))
             (f_matches_mask st) (f_matches_mask st').
Proof.
  intros H Hgood.
  destruct (proj1 (ransac_outcome st tr) _ _ H)
    as [mask [_ [Hlen [_ [_ [_ [_ [_ [_ [_ Hin]]]]]]]]]].
  unfold _filter_matches_ransac in H. repeat step_m.
  match goal with
  | Hf : findHomography _ _ = inr ?found |- _ => destruct found as [mask'|]; [|discriminate]
  end.
  repeat step_m.
  cbn [f_points_i f_matches_mask] in *.
  match goal with
  | Hb : Seq.bool_index (Seq.argwhere _ _) _ = inr _ |- _ =>
      pose proof (bool_index_length _ _ Hb) as Hacc; apply bool_index_inr in Hb; subst
  end.
  match goal with
  | Hb : Seq.bool_index (f_points_i st) _ = inr _ |- _ =>
      pose proof (bool_index_length _ _ Hb) as Hpts; apply bool_index_inr in Hb
  end.
  unfold Seq.argwhere, Seq.enumerate in *.
  pose proof (undo_loop (f_matches_mask st) [] (map (fun v => (0 <? v)%Z) mask')) as Hloop.
  cbn [length app] in Hloop. rewrite Hloop.
  rewrite !length_map in *.
  destruct (@undo_outliers_good (f_matches_mask st) (map (fun v => (0 <? v)%Z) mask'))
    as [Hg [Hl Hall]].
  { rewrite length_map, Hgood. symmetry. exact Hpts. }
  split; [|split; assumption].
  rewrite Hg. subst. rewrite select_length; [reflexivity|]. now rewrite length_map.
Qed.

(** X7: the mask handed to the visualisation stays in step with the matches:
    if [matches_mask] marks as many good matches as there are points (as it
    does after [_filter_matches]), then after [_filter_matches_ransac] it
    marks as many good matches as inliers were kept; it keeps its length and
    its entries are unchanged or reset from a good match to [[0, 0]]. *)
Theorem ransac_mask_in_step (st st' : Filtered) (tr tr' : Trace) :
  _filter_matches_ransac st tr = (inr st', tr') ->
  Pair.good_matches (f_matches_mask st) = length (f_points_i st) ->
  Pair.good_matches (f_matches_mask st') = length (f_points_i st')
  /\ length (f_matches_mask st') = length (f_matches_mask st)
  /\ Forall2 (fun e e' => e' = e \/ (is_accepted_entry e = true /\ e' = (0, 0)%Z))
             (f_matches_mask st) (f_matches_mask st').
Proof. eapply ransac_mask_marks; eassumption. Qed.

Lemma too_few_false (self : FeatureExtractor) (n : nat) :
  too_few self n = false <-> (min_features self <= Z.of_nat n)%Z.
Proof. unfold too_few. apply Z.ltb_ge. Qed.

(** The contents of an accepted pair, for the statements below. *)
Lemma accepted_pair_contents (self : FeatureExtractor) (fd : FrameData)
        (i j : nat) (tr : Trace) (fs : FeatureSet nat) (tr' : Trace) :
  _get_image_features self fd (i, j) tr = (inr (Some fs), tr') ->
  index (frame_i fs) = i /\ index (frame_j fs) = j
  /\ i < length (frames fd) /\ j < length (frames fd)
  /\ (min_features self <= Z.of_nat (length (points (frame_i fs))))%Z
  /\ length (depth (frame_i fs)) = length (points (frame_i fs))
  /\ length (points (frame_j fs)) = length (points (frame_i fs))
  /\ length (depth (frame_j fs)) = length (points (frame_i fs))
  /\ exists key_points_i descriptors_i key_points_j descriptors_j mask,
      _get_key_points_and_descriptors self fd i tr
      = (inr (key_points_i, descriptors_i), tr ++ [EvDetectAndCompute i])
      /\ _get_key_points_and_descriptors self fd j (tr ++ [EvDetectAndCompute i])
         = (inr (key_points_j, descriptors_j),
            tr ++ [EvDetectAndCompute i; EvDetectAndCompute j])
      /\ Forall (fun p => In p key_points_i) (points (frame_i fs))
      /\ Forall (fun p => In p key_points_j) (points (frame_j fs))
      /\ Pair.good_matches mask = length (points (frame_i fs))
      /\ tr' = tr ++ [EvDetectAndCompute i; EvDetectAndCompute j; EvKnnMatch;
                      EvFindHomography]
                  ++ Pair.viz_events fd i j mask true.
Proof.
  intro H.
  destruct (get_image_features_cases _ _ _ _ _ H)
    as [kpi [di [kpj [dj [Hi [Hj Hcases]]]]]].
  destruct Hcases as [[_ [Hr _]]|[_ [st [Hst [[_ [Hr _]]|[_ [st' [Hst' [Htr Hr]]]]]]]]];
    try discriminate.
  destruct (too_few self (length (f_points_i st'))) eqn:Hfew; [discriminate|].
  inversion Hr; subst fs; clear Hr.
  cbn [index points depth frame_i frame_j negb] in *.
  pose proof Hst as Hshape. apply filter_matches_lengths in Hshape.
  destruct Hshape as [Lpj [Ldi [Ldj [_ [_ [_ [Hgood [Hki Hkj]]]]]]]].
  destruct (proj1 (ransac_outcome st _) _ _ Hst')
    as [mask [_ [Li [Lj [Lk [Ll [Spi [Spj [Sdi [Sdj _]]]]]]]]]].
  destruct (@ransac_mask_marks st st' _ _ Hst' Hgood) as [Hgood' _].
  apply detection_index_valid in Hi as Hvi. apply detection_index_valid in Hj as Hvj.
  apply too_few_false in Hfew.
  assert (Hsel : forall (A B : Type) (l : list A) (l' : list B) (m : list bool),
             length l = length m -> length l' = length m ->
             length (Seq.select l m) = length (Seq.select l' m)).
  { intros A B l l' m Hl Hl'. rewrite !select_length; auto. }
  repeat split; try assumption; try reflexivity.
  - rewrite Sdi, Spi. apply Hsel; now rewrite length_map.
  - rewrite Spj, Spi. apply Hsel; now rewrite length_map.
  - rewrite Sdj, Spi. apply Hsel; now rewrite length_map.
  - exists kpi, di, kpj, dj, (f_matches_mask st').
    repeat split; try assumption.
    + rewrite Spi. now apply select_Forall.
    + rewrite Spj. now apply select_Forall.
Qed.

(** X8: an accepted frame pair holds at least [min_features] matches: its
    feature set carries the two frame indices, both below the number of
    loaded frames, and four lists of one length, at least [min_features];
    every point is a key point detected on its frame, and in the mask handed
    to the visualisation the good matches are as many as the points. *)
Theorem accepted_pair_guarantee (self : FeatureExtractor) (fd : FrameData)
        (i j : nat) (tr : Trace) (fs : FeatureSet nat) (tr' : Trace) :
  _get_image_features self fd (i, j) tr = (inr (Some fs), tr') ->
  index (frame_i fs) = i /\ index (frame_j fs) = j
  /\ i < length (frames fd) /\ j < length (frames fd)
  /\ (min_features self <= Z.of_nat (length (points (frame_i fs))))%Z
  /\ length (depth (frame_i fs)) = length (points (frame_i fs))
  /\ length (points (frame_j fs)) = length (points (frame_i fs))
  /\ length (depth (frame_j fs)) = length (points (frame_i fs))
  /\ exists key_points_i descriptors_i key_points_j descriptors_j mask,
      _get_key_points_and_descriptors self fd i tr
      = (inr (key_points_i, descriptors_i), tr ++ [EvDetectAndCompute i])
      /\ _get_key_points_and_descriptors self fd j (tr ++ [EvDetectAndCompute i])
         = (inr (key_points_j, descriptors_j),
            tr ++ [EvDetectAndCompute i; EvDetectAndCompute j])
      /\ Forall (fun p => In p key_points_i) (points (frame_i fs))
      /\ Forall (fun p => In p key_points_j) (points (frame_j fs))
      /\ Pair.good_matches mask = length (points (frame_i fs))
      /\ tr' = tr ++ [EvDetectAndCompute i; EvDetectAndCompute j; EvKnnMatch;
                      EvFindHomography]
                  ++ Pair.viz_events fd i j mask true.
Proof. eapply accepted_pair_contents; eassumption. Qed.

(** The events of one frame pair, for the statements below. *)
Lemma get_image_features_trace (self : FeatureExtractor) (fd : FrameData)
        (i j : nat) (tr : Trace) (r : option (FeatureSet nat)) (tr' : Trace) :
  _get_image_features self fd (i, j) tr = (inr r, tr') ->
  exists rest,
    tr' = tr ++ [EvDetectAndCompute i; EvDetectAndCompute j] ++ rest
    /\ match r with
       | Some _ =>
           exists mask,
             rest = [EvKnnMatch; EvFindHomography] ++ Pair.viz_events fd i j mask true
       | None =>
           rest = []
           \/ exists mask,
               rest = [EvKnnMatch] ++ Pair.viz_events fd i j mask false
               \/ rest = [EvKnnMatch; EvFindHomography] ++ Pair.viz_events fd i j mask false
       end.
Proof.
  intro H.
  destruct (get_image_features_cases _ _ _ _ _ H)
    as [kpi [di [kpj [dj [_ [_ Hcases]]]]]].
  destruct Hcases as [[_ [-> ->]]|[_ [st [_ [[_ [-> ->]]|[_ [st' [_ [-> ->]]]]]]]]].
  - exists []. split; [reflexivity|]. now left.
  - eexists. split; [reflexivity|]. right. exists (f_matches_mask st). now left.
  - eexists. split; [reflexivity|].
    destruct (too_few self (length (f_points_i st'))); cbn [negb].
    + right. exists (f_matches_mask st'). now right.
    + exists (f_matches_mask st'). reflexivity.
Qed.

(** X9: what one frame pair costs: whenever [_get_image_features] returns, it
    has run the detector once on either frame, the matcher at most once and
    the homography fit at most once, in this order, and has saved at most one
    visualisation, at the end; the fit is run only if the matcher was, and an
    accepted pair has run both.  The visualisation is flagged as accepted
    exactly for an accepted pair. *)
Theorem pair_events (self : FeatureExtractor) (fd : FrameData)
        (i j : nat) (tr : Trace) (r : option (FeatureSet nat)) (tr' : Trace) :
  _get_image_features self fd (i, j) tr = (inr r, tr') ->
  exists rest,
    tr' = tr ++ [EvDetectAndCompute i; EvDetectAndCompute j] ++ rest
    /\ match r with
       | Some _ =>
           exists mask,
             rest = [EvKnnMatch; EvFindHomography] ++ Pair.viz_events fd i j mask true
       | None =>
           rest = []
           \/ exists mask,
               rest = [EvKnnMatch] ++ Pair.viz_events fd i j mask false
               \/ rest = [EvKnnMatch; EvFindHomography] ++ Pair.viz_events fd i j mask false
       end.
Proof. eapply get_image_features_trace; eassumption. Qed.

End PairProperties.

Lemma filter_matches_shape_witness :
  Extractor._filter_matches (Extractor._get_frame_data Scene.extractor) 0 1
                            Scene.key_points8 Scene.key_points8 Scene.candidates
  = inr (mkFiltered
           [(2 # 10, 1 # 10); (14 # 10, 0); (2, 4 # 10); (0, 1); (5 # 2, 12 # 10); (3, 16 # 10)]%Q
           [(2 # 10, 1 # 10); (14 # 10, 0); (2, 4 # 10); (0, 1); (5 # 2, 12 # 10); (3, 16 # 10)]%Q
           [1; 2; 3; 5; 7; 12]%Q
           [1; 2; 3; 5; 7; 12]%Q
           [(1, 0); (1, 0); (1, 0); (0, 0); (1, 0); (0, 0); (1, 0); (1, 0)]%Z)
  /\ Pair.good_matches [(1, 0); (1, 0); (1, 0); (0, 0); (1, 0); (0, 0); (1, 0); (1, 0)]%Z = 6.
Proof.
  split; [reflexivity|].
  exact (proj1 (proj2 (proj2 (proj2 (proj2 (proj2 (proj2
           (@filter_matches_shape Scene.vision (Extractor._get_frame_data Scene.extractor)
              0 1 Scene.key_points8 Scene.key_points8 Scene.candidates _ eq_refl)))))))).
Defined.

Lemma ransac_mask_in_step_witness :
  Extractor._filter_matches_ransac (V := Scene.vision) SceneSteps.filtered []
  = (inr SceneSteps.inliers, [EvFindHomography])
  /\ Pair.good_matches (f_matches_mask SceneSteps.filtered)
     = length (f_points_i SceneSteps.filtered)
  /\ Pair.good_matches (f_matches_mask SceneSteps.inliers)
     = length (f_points_i SceneSteps.inliers).
Proof.
  assert (H : Extractor._filter_matches_ransac (V := Scene.vision) SceneSteps.filtered []
              = (inr SceneSteps.inliers, [EvFindHomography])) by reflexivity.
  assert (Hgood : Pair.good_matches (f_matches_mask SceneSteps.filtered)
                  = length (f_points_i SceneSteps.filtered)) by reflexivity.
  split; [exact H|]. split; [exact Hgood|].
  exact (proj1 (@ransac_mask_in_step Scene.vision _ _ _ _ H Hgood)).
Defined.

Lemma accepted_pair_guarantee_witness :
  Extractor._get_image_features Scene.extractor
    (Extractor._get_frame_data Scene.extractor) (0, 1) []
  = (inr (Some SceneSteps.accepted), SceneSteps.accepted_events)
  /\ (min_features Scene.extractor
      <= Z.of_nat (length (points (frame_i SceneSteps.accepted))))%Z.
Proof.
  assert (H : Extractor._get_image_features Scene.extractor
                (Extractor._get_frame_data Scene.extractor) (0, 1) []
              = (inr (Some SceneSteps.accepted), SceneSteps.accepted_events))
    by (vm_compute; reflexivity).
  split; [exact H|].
  exact (proj1 (proj2 (proj2 (proj2 (proj2
           (@accepted_pair_guarantee Scene.vision _ _ _ _ _ _ _ H)))))).
Defined.

Lemma pair_events_witness :
  Extractor._get_image_features Scene.extractor
    (Extractor._get_frame_data Scene.extractor) (0, 1) []
  = (inr (Some SceneSteps.accepted), SceneSteps.accepted_events)
  /\ exists rest,
      SceneSteps.accepted_events = [] ++ [EvDetectAndCompute 0; EvDetectAndCompute 1] ++ rest
      /\ exists mask,
          rest = [EvKnnMatch; EvFindHomography]
                   ++ Pair.viz_events (Extractor._get_frame_data Scene.extractor) 0 1 mask true.
Proof.
  assert (H : Extractor._get_image_features Scene.extractor
                (Extractor._get_frame_data Scene.extractor) (0, 1) []
              = (inr (Some SceneSteps.accepted), SceneSteps.accepted_events))
    by (vm_compute; reflexivity).
  split; [exact H|].
  exact (@pair_events Scene.vision _ _ _ _ _ _ _ H).
Defined.

(** ** More about the extractor: the sweep and its statistics *)

Section SweepProperties.
Context `{V : Vision}.
Import Extractor.

Lemma frames_loaded (self : FeatureExtractor) :
  length (frames (_get_frame_data self)) = num_frames (dataset self)
  /\ length (depth_maps (_get_frame_data self)) = num_frames (dataset self)
  /\ match masks (_get_frame_data self) with
     | Some ms => ignore_dynamic_objects self = true
                  /\ length ms = num_frames (dataset self)
     | None => ignore_dynamic_objects self = false
     end.
Proof.
  unfold _get_frame_data, Py.range. cbn [frames depth_maps masks].
  rewrite !length_map, !length_seq.
  destruct (ignore_dynamic_objects self); rewrite ?length_map, ?length_seq; auto.
Qed.

Lemma get_image_features_extends (self : FeatureExtractor) (fd : FrameData)
      (p : FramePair) (tr : Trace) (r : option (FeatureSet nat)) (tr' : Trace) :
  _get_image_features self fd p tr = (inr r, tr') -> exists evs, tr' = tr ++ evs.
Proof.
  destruct p as [i j]. intro H. apply get_image_features_trace in H as [rest [-> _]]. eauto.
Qed.

Lemma tqdm_imap_extends {A B : Type} (f : A -> M B) (xs : list A) :
  (forall x tr y tr', f x tr = (inr y, tr') -> exists evs, tr' = tr ++ evs) ->
  forall tr ys tr', tqdm_imap f xs tr = (inr ys, tr') -> exists evs, tr' = tr ++ evs.
Proof.
  intro Hf. induction xs as [|x xs IH]; intros tr ys tr' H; cbn [tqdm_imap] in H.
  - step_m. exists []. now rewrite app_nil_r.
  - repeat step_m.
    match goal with
    | H1 : f x tr = _, H2 : tqdm_imap f xs _ = _ |- _ =>
        apply Hf in H1 as [e1 ->]; apply IH in H2 as [e2 ->]
    end.
    exists (e1 ++ e2). now rewrite app_assoc.
Qed.

Lemma accumulate_sweep_inv (self : FeatureExtractor) (pairs : list FramePair)
      (results : list (option (FeatureSet nat))) :
  Forall2 (fun p r => exists tr0 tr1,
               _get_image_features self (_get_frame_data self) p tr0 = (inr r, tr1))
          pairs results ->
  forall c acc,
    Sweep.sweep_inv self c acc ->
    Sweep.sweep_inv self (c + length results) (Py.for_each results accumulate acc).
Proof.
  induction 1 as [|p r pairs results [tr0 [tr1 Hp]] _ IH]; intros c acc Hinv.
  - cbn. now rewrite Nat.add_0_r.
  - unfold Py.for_each. cbn [fold_left length].
    fold (Py.for_each results accumulate (accumulate acc r)).
    replace (c + S (length results)) with (S c + length results) by lia.
    apply IH. destruct Hinv as [Hgood Hsize Hi Hj].
    destruct r as [fs|]; cbn [accumulate].
    + destruct p as [i j].
      apply accepted_pair_contents in Hp
        as [Ei [Ej [Hvi [Hvj [Hmin _]]]]].
      destruct (frames_loaded self) as [Hframes _]. rewrite Hframes in Hvi, Hvj.
      constructor; cbn [num_good_frame_pairs index_i index_j].
      * lia.
      * rewrite length_app, repeat_length. lia.
      * apply Forall_app. split; [assumption|].
        apply Forall_forall. intros x Hx. apply repeat_spec in Hx. lia.
      * apply Forall_app. split; [assumption|].
        apply Forall_forall. intros x Hx. apply repeat_spec in Hx. lia.
    + constructor; auto.
Qed.

Lemma coverage_in_unit_interval (matched n : nat) :
  matched <= n -> 0 < n ->
  (0 <= inject_Z (Z.of_nat matched) / inject_Z (Z.of_nat n) <= 1)%Q.
Proof.
  intros Hle Hn.
  assert (Hpos : (0 < inject_Z (Z.of_nat n))%Q).
  { change 0%Q with (inject_Z 0). rewrite <- Zlt_Qlt. lia. }
  split.
  - apply Qle_shift_div_l; [assumption|]. rewrite Qmult_0_l.
    change 0%Q with (inject_Z 0). rewrite <- Zle_Qle. lia.
  - apply Qle_shift_div_r; [assumption|]. rewrite Qmult_1_l.
    rewrite <- Zle_Qle. lia.
Qed.

Lemma matched_below (n : nat) (index_i index_j : list nat) :
  Forall (fun i => i < n) index_i -> Forall (fun j => j < n) index_j ->
  length (frames_with_matched_features index_i index_j) <= n.
Proof.
  intros Hi Hj. unfold frames_with_matched_features.
  assert (Hle : length (nodup Nat.eq_dec (index_i ++ index_j)) <= length (seq 0 n));
    [|now rewrite length_seq in Hle].
  apply NoDup_incl_length; [apply NoDup_nodup|].
  intros x Hx. apply nodup_In, in_app_or in Hx. apply in_seq.
  rewrite Forall_forall in Hi, Hj. destruct Hx as [Hx|Hx]; [apply Hi in Hx|apply Hj in Hx]; lia.
Qed.

(** The result and the trace of a sweep, for the statements below. *)
Lemma extract_feature_points_summary (self : FeatureExtractor) (tr : Trace)
        (out : FeatureSet (list nat)) (tr' : Trace) :
  extract_feature_points self tr = (inr out, tr') ->
  exists evs stats,
    tr' = tr ++ EvSetupDebugFolder :: evs ++ [EvLogStats stats]
    /\ total_frame_pairs stats = length (frame_pairs self)
    /\ good_frame_pairs stats <= total_frame_pairs stats
    /\ (0 <= coverage stats <= 1)%Q
    /\ groups stats <= num_frames (dataset self)
    /\ Forall (fun i => i < num_frames (dataset self)) (index (frame_i out))
    /\ Forall (fun j => j < num_frames (dataset self)) (index (frame_j out))
    /\ (min_features self * Z.of_nat (good_frame_pairs stats)
        <= Z.of_nat (length (index (frame_i out))))%Z.
Proof.
  unfold extract_feature_points. intro H. repeat step_m.
  match goal with
  | Hs : tqdm_imap _ _ _ = (inr ?results, _) |- _ =>
      pose proof (tqdm_imap_extends _ _ (get_image_features_extends self _) _ Hs) as [evs Hevs];
      apply tqdm_imap_inr in Hs; rename Hs into Hsweep; set (rs := results) in *
  end.
  pose proof (Forall2_length Hsweep) as Hlen.
  pose proof (@accumulate_sweep_inv self _ _ Hsweep 0 (mkAccum [] [] [] [] [] [] 0)) as Hinv.
  destruct Hinv as [Hgood Hsize Hi Hj].
  { constructor; cbn; auto. lia. }
  set (acc := Py.for_each rs accumulate (mkAccum [] [] [] [] [] [] 0)) in *.
  match goal with
  | Hp : _print_results_stats _ _ _ _ _ = inr ?stats |- _ =>
      exists evs, stats; unfold _print_results_stats in Hp;
      destruct (Nat.eqb_spec (num_frames (dataset self)) 0) as [|Hn]; [discriminate|];
      inversion Hp; subst stats; clear Hp
  end.
  cbn [total_frame_pairs good_frame_pairs coverage groups feature_set_of frame_i frame_j index].
  split.
  { rewrite Hevs. rewrite <- !app_assoc. reflexivity. }
  split; [reflexivity|].
  split; [cbn in Hgood; lia|].
  split.
  { apply coverage_in_unit_interval; [|lia]. now apply matched_below. }
  split.
  { destruct (frame_chunks_runs
                (in_set (frames_with_matched_features (index_i acc) (index_j acc)))
                (num_frames (dataset self))) as [_ [_ ->]].
    unfold run_starts. etransitivity; [apply filter_length_le|]. now rewrite length_seq. }
  auto.
Qed.

(** X10: whenever [extract_feature_points] returns, the run began by setting
    up the debug folder and ended by logging the statistics; the logged total
    is the number of frame pairs given, the logged number of good pairs is at
    most that, and the coverage lies between 0 and 1.  Every frame index in
    the returned feature set is below [num_frames], and the feature set holds
    at least [min_features] entries per good pair. *)
Theorem extraction_summary (self : FeatureExtractor) (tr : Trace)
        (out : FeatureSet (list nat)) (tr' : Trace) :
  extract_feature_points self tr = (inr out, tr') ->
  exists evs stats,
    tr' = tr ++ EvSetupDebugFolder :: evs ++ [EvLogStats stats]
    /\ total_frame_pairs stats = length (frame_pairs self)
    /\ good_frame_pairs stats <= total_frame_pairs stats
    /\ (0 <= coverage stats <= 1)%Q
    /\ groups stats <= num_frames (dataset self)
    /\ Forall (fun i => i < num_frames (dataset self)) (index (frame_i out))
    /\ Forall (fun j => j < num_frames (dataset self)) (index (frame_j out))
    /\ (min_features self * Z.of_nat (good_frame_pairs stats)
        <= Z.of_nat (length (index (frame_i out))))%Z.
Proof. eapply extract_feature_points_summary; eassumption. Qed.

End SweepProperties.

Lemma extraction_summary_witness :
  Extractor.extract_feature_points Scene.extractor []
  = (inr (Scene.aggregate 7), Scene.events Scene.final_mask)
  /\ exists evs stats,
      Scene.events Scene.final_mask = [] ++ EvSetupDebugFolder :: evs ++ [EvLogStats stats]
      /\ total_frame_pairs stats = 2
      /\ good_frame_pairs stats <= total_frame_pairs stats
      /\ (0 <= coverage stats <= 1)%Q.
Proof.
  assert (H : Extractor.extract_feature_points Scene.extractor []
              = (inr (Scene.aggregate 7), Scene.events Scene.final_mask))
    by (vm_compute; reflexivity).
  split; [exact H|].
  destruct (@extraction_summary Scene.vision _ _ _ _ H)
    as [evs [stats [Htr [Htotal [Hgood [Hcov _]]]]]].
  exists evs, stats. auto.
Defined.

Section DegenerateRuns.
Context `{V : Vision}.
Import Extractor.

Lemma index_empty {A : Type} (i : Z) : Seq.index (@nil A) i = inl IndexError.
Proof.
  unfold Seq.index. destruct (_ && _); [|reflexivity].
  now destruct (Z.to_nat _).
Qed.

Lemma detection_without_frames (self : FeatureExtractor) (idx : nat) (tr : Trace) :
  num_frames (dataset self) = 0 ->
  _get_key_points_and_descriptors self (_get_frame_data self) idx tr = (inl IndexError, tr).
Proof.
  intro Hn. unfold _get_key_points_and_descriptors, _get_frame_data, Py.range.
  rewrite Hn. cbn [seq map masks frames].
  unfold bind, lift.
  destruct (ignore_dynamic_objects self); repeat rewrite index_empty; reflexivity.
Qed.

(** X11: on a dataset without frames [extract_feature_points] never returns
    a feature set: with no frame pairs it raises [ZeroDivisionError] when it
    computes the coverage, with any frame pair it raises [IndexError] at the
    first frame it looks up. *)
Theorem extraction_needs_frames (self : FeatureExtractor) (tr : Trace) :
  num_frames (dataset self) = 0 ->
  exists e tr',
    extract_feature_points self tr = (inl e, tr')
    /\ e = match frame_pairs self with
           | [] => ZeroDivisionError
           | _ :: _ => IndexError
           end.
Proof.
  intro Hn. unfold extract_feature_points, bind at 1. unfold emit at 1.
  destruct (frame_pairs self) as [|[i j] rest] eqn:Hpairs.
  - cbn [tqdm_imap]. unfold bind, ret, lift. cbn [Py.for_each fold_left length].
    unfold Py.for_each. cbn [fold_left index_i index_j num_good_frame_pairs].
    unfold _print_results_stats. rewrite Hn. cbn [Nat.eqb]. eauto.
  - cbn [tqdm_imap]. unfold bind at 1. unfold bind at 1.
    unfold _get_image_features, bind at 1.
    rewrite detection_without_frames by assumption. eauto.
Qed.

Lemma no_run_starts (covered : nat -> bool) (n : nat) :
  (forall k, k < n -> covered k = false) -> run_starts covered n = [].
Proof.
  intro H. unfold run_starts.
  induction n as [|n IH]; [reflexivity|].
  rewrite seq_S, filter_app, IH by (intros; apply H; lia).
  cbn [filter plus app]. unfold starts_run. rewrite (H n) by lia. reflexivity.
Qed.

(** X12: with no frame pairs, on a dataset with frames, the extractor
    returns the empty feature set without detecting anything, and logs zero
    good pairs out of zero, a coverage of zero and no group. *)
Theorem extraction_without_pairs (self : FeatureExtractor) (tr : Trace) :
  frame_pairs self = [] ->
  0 < num_frames (dataset self) ->
  exists stats,
    extract_feature_points self tr
    = (inr (mkFeatureSet (mkFeatureData [] [] []) (mkFeatureData [] [] [])),
       tr ++ [EvSetupDebugFolder; EvLogStats stats])
    /\ good_frame_pairs stats = 0 /\ total_frame_pairs stats = 0
    /\ (coverage stats == 0)%Q /\ groups stats = 0.
Proof.
  intros Hpairs Hn. unfold extract_feature_points. rewrite Hpairs.
  cbn [tqdm_imap]. unfold bind, emit, ret, lift, Py.for_each.
  cbn [fold_left index_i index_j num_good_frame_pairs length].
  unfold _print_results_stats.
  destruct (Nat.eqb_spec (num_frames (dataset self)) 0) as [|_]; [lia|].
  eexists. split.
  - rewrite <- app_assoc. reflexivity.
  - cbn [good_frame_pairs total_frame_pairs coverage groups].
    split; [reflexivity|]. split; [reflexivity|]. split.
    + unfold frames_with_matched_features. cbn [app nodup length Z.of_nat].
      unfold Qdiv. apply Qmult_0_l.
    + destruct (frame_chunks_runs (in_set (frames_with_matched_features [] []))
                                  (num_frames (dataset self))) as [_ [_ ->]].
      rewrite no_run_starts; reflexivity.
Qed.

End DegenerateRuns.

Lemma extraction_needs_frames_witness :
  num_frames (dataset EdgeScenes.unloaded) = 0
  /\ Extractor.extract_feature_points EdgeScenes.unloaded []
     = (inl IndexError, [EvSetupDebugFolder]).
Proof.
  assert (Hn : num_frames (dataset EdgeScenes.unloaded) = 0) by reflexivity.
  split; [exact Hn|].
  destruct (@extraction_needs_frames Scene.vision EdgeScenes.unloaded [] Hn)
    as [e [tr' [He ->]]].
  reflexivity.
Defined.

Lemma extraction_without_pairs_witness :
  frame_pairs EdgeScenes.idle = []
  /\ 0 < num_frames (dataset EdgeScenes.idle)
  /\ exists stats,
      Extractor.extract_feature_points EdgeScenes.idle []
      = (inr (mkFeatureSet (mkFeatureData [] [] []) (mkFeatureData [] [] [])),
         [] ++ [EvSetupDebugFolder; EvLogStats stats])
      /\ groups stats = 0.
Proof.
  assert (Hp : frame_pairs EdgeScenes.idle = []) by reflexivity.
  assert (Hn : 0 < num_frames (dataset EdgeScenes.idle)) by (cbn; lia).
  split; [exact Hp|]. split; [exact Hn|].
  destruct (@extraction_without_pairs Scene.vision EdgeScenes.idle [] Hp Hn)
    as [stats [Hrun [_ [_ [_ Hgroups]]]]].
  exists stats. auto.
Defined.

(** ** More about the statistics *)

Lemma in_set_ext (s s' : list nat) :
  (forall x, In x s <-> In x s') -> forall x, Extractor.in_set s x = Extractor.in_set s' x.
Proof.
  intros H x. unfold Extractor.in_set.
  destruct (in_dec Nat.eq_dec x s) as [Hin|Hin], (in_dec Nat.eq_dec x s') as [Hin'|Hin'];
    try reflexivity; exfalso; [apply Hin'|apply Hin]; now apply H.
Qed.

Lemma frame_chunks_ext (covered covered' : nat -> bool) (n : nat) :
  (forall k, covered k = covered' k) ->
  Extractor.frame_chunks covered n = Extractor.frame_chunks covered' n.
Proof.
  intro H. unfold Extractor.frame_chunks.
  rewrite (for_each_ext (Extractor.chunk_step covered) (Extractor.chunk_step covered')).
  - reflexivity.
  - intros [chunks chunk] k _. unfold Extractor.chunk_step. now rewrite H.
Qed.

(** X13: the logged statistics depend only on the set of frame indices that
    occur on either side: the order of the correspondences, repetitions and
    the side an index occurs on do not matter. *)
Theorem statistics_depend_on_index_set (n_frames n_pairs num_good : nat)
        (index_i index_j index_i' index_j' : list nat) :
  (forall x, In x index_i \/ In x index_j <-> In x index_i' \/ In x index_j') ->
  Extractor._print_results_stats n_frames n_pairs index_i index_j num_good
  = Extractor._print_results_stats n_frames n_pairs index_i' index_j' num_good.
Proof.
  intro Hset.
  assert (Hmatched :
            forall x, In x (Extractor.frames_with_matched_features index_i index_j)
                      <-> In x (Extractor.frames_with_matched_features index_i' index_j')).
  { intro x. unfold Extractor.frames_with_matched_features.
    rewrite !nodup_In, !in_app_iff. apply Hset. }
  assert (Hlen : length (Extractor.frames_with_matched_features index_i index_j)
                 = length (Extractor.frames_with_matched_features index_i' index_j')).
  { apply Nat.le_antisymm; apply NoDup_incl_length;
      try apply NoDup_nodup; intros x Hx; now apply Hmatched. }
  unfold Extractor._print_results_stats.
  destruct (n_frames =? 0); [reflexivity|].
  rewrite Hlen.
  rewrite (@frame_chunks_ext _ _ n_frames (@in_set_ext _ _ Hmatched)). reflexivity.
Qed.

Lemma statistics_depend_on_index_set_witness :
  (forall x, In x [0; 1; 5] \/ In x [1; 2; 6] <-> In x [6; 5; 2; 1; 0; 0] \/ In x [1])
  /\ Extractor._print_results_stats 8 3 [0; 1; 5] [1; 2; 6] 3
     = Extractor._print_results_stats 8 3 [6; 5; 2; 1; 0; 0] [1] 3.
Proof.
  assert (H : forall x, In x [0; 1; 5] \/ In x [1; 2; 6]
                        <-> In x [6; 5; 2; 1; 0; 0] \/ In x [1]) by (cbn; intuition).
  split; [exact H|].
  exact (@statistics_depend_on_index_set 8 3 3 _ _ _ _ H).
Defined.

Lemma run_starts_spread (covered : nat -> bool) (n : nat) :
  2 * length (Extractor.run_starts covered n) <= n + 1
  /\ (match n with
      | 0 => True
      | S n' => Extractor.starts_run covered n' = false ->
                2 * length (Extractor.run_starts covered n) <= n
      end).
Proof.
  induction n as [|n [IH1 IH2]]; [cbn; lia|].
  rewrite run_starts_S, length_app.
  destruct (Extractor.starts_run covered n) eqn:Hs; cbn [length].
  - split; [|discriminate].
    destruct n as [|n']; [cbn; lia|].
    assert (Extractor.starts_run covered n' = false).
    { unfold Extractor.starts_run in *. apply andb_prop in Hs as [_ Hprev].
      apply negb_true_iff in Hprev. rewrite Hprev. reflexivity. }
    specialize (IH2 H). lia.
  - split; [lia|]. intros _. lia.
Qed.

(** X14: the number of groups is at most the number of covered frames and at
    most half the frame count, rounded up; there is no group exactly when no
    frame below the frame count is covered. *)
Theorem group_count_bounds (covered : nat -> bool) (n : nat) :
  length (Extractor.frame_chunks covered n) <= length (filter covered (seq 0 n))
  /\ 2 * length (Extractor.frame_chunks covered n) <= n + 1
  /\ (length (Extractor.frame_chunks covered n) = 0
      <-> forall k, k < n -> covered k = false).
Proof.
  destruct (frame_chunks_runs covered n) as [Hcat [Hruns Hlen]].
  assert (Hle : length (Extractor.frame_chunks covered n)
                <= length (concat (Extractor.frame_chunks covered n))).
  { clear Hcat Hlen. induction Hruns as [|c chunks [a [len [[Hc [Hpos _]] _]]] _ IH];
      [cbn; lia|].
    cbn [concat length]. rewrite length_app. subst c. rewrite length_seq. lia. }
  rewrite Hcat in Hle.
  split; [exact Hle|].
  split; [rewrite Hlen; apply run_starts_spread|].
  split.
  - intros Hzero k Hk. destruct (covered k) eqn:Hc; [|reflexivity].
    apply length_zero_iff_nil in Hzero. rewrite Hzero in Hcat. cbn in Hcat.
    assert (Hin : In k (filter covered (seq 0 n))) by (apply filter_In; split; [apply in_seq; lia|assumption]).
    rewrite <- Hcat in Hin. contradiction.
  - intro Hnone. rewrite Hlen, no_run_starts; auto.
Qed.

(** ** The constructor and the driver *)

Section Construction.
Context `{V : Vision}.

Lemma init_inr (ds : Dataset) (pairs : FramePairs) (min_arg max_arg : PyArg)
      (ignore_dynamic : bool) (ex : FeatureExtractor) (ws : list Warning) :
  Extractor.init ds pairs min_arg max_arg ignore_dynamic = inr (ex, ws) ->
  exists mn mx,
    min_arg = PyInt mn /\ (5 <= mn)%Z
    /\ (max_arg = PyNone /\ mx = None
        \/ exists z, max_arg = PyInt z /\ (mn < z)%Z /\ mx = Some z)
    /\ SIFT_create mx = inr tt
    /\ ex = mkFeatureExtractor ds pairs mn mx ignore_dynamic
    /\ ws = Extractor.when_warn (mn <? 20)%Z WarnMinFeaturesBelow20
            ++ Extractor.when_warn match mx with
                                   | Some z => (z <? 2 * mn)%Z
                                   | None => false
                                   end WarnMaxFeaturesBelowTwiceMin.
Proof.
  unfold Extractor.init.
  destruct min_arg as [mn| |]; try discriminate.
  destruct (Z.ltb_spec mn 5); [discriminate|].
  destruct max_arg as [z| |]; cbn [exc_bind]; try discriminate.
  - destruct (Z.leb_spec z mn); cbn [exc_bind]; [discriminate|].
    destruct (SIFT_create (Some z)) as [e|[]] eqn:Hs; cbn [exc_bind]; [discriminate|].
    intro Hex. inversion Hex; subst. exists mn, (Some z). repeat split; auto.
    right. exists z. auto.
  - destruct (SIFT_create None) as [e|[]] eqn:Hs; cbn [exc_bind]; [discriminate|].
    intro Hex. inversion Hex; subst. exists mn, None. repeat split; auto.
Qed.

(** What [__init__] does with arguments that pass its two checks. *)
Lemma init_checked (ds : Dataset) (pairs : FramePairs) (min_arg max_arg : PyArg)
      (ignore_dynamic : bool) (mn : Z) (mx : option Z) :
  Checks.checked_arguments min_arg max_arg mn mx ->
  Extractor.init ds pairs min_arg max_arg ignore_dynamic
  = let? _ := SIFT_create mx in
    inr (mkFeatureExtractor ds pairs mn mx ignore_dynamic,
         Extractor.when_warn (mn <? 20)%Z WarnMinFeaturesBelow20
         ++ Extractor.when_warn match mx with
                                | Some z => (z <? 2 * mn)%Z
                                | None => false
                                end WarnMaxFeaturesBelowTwiceMin).
Proof.
  intros [-> [Hge Hmax]]. unfold Extractor.init.
  destruct (Z.ltb_spec mn 5); [lia|].
  destruct Hmax as [[-> ->]|[z [-> [Hlt ->]]]]; cbn [exc_bind]; [reflexivity|].
  destruct (Z.leb_spec z mn); [lia|]. reflexivity.
Qed.

(** What [__init__] does with arguments that fail one of its two checks. *)
Lemma init_unchecked (ds : Dataset) (pairs : FramePairs) (min_arg max_arg : PyArg)
      (ignore_dynamic : bool) :
  (forall mn mx, ~ Checks.checked_arguments min_arg max_arg mn mx) ->
  Extractor.init ds pairs min_arg max_arg ignore_dynamic = inl ValueError.
Proof.
  intro Hno. unfold Extractor.init, Checks.checked_arguments in *.
  destruct min_arg as [mn| |]; try reflexivity.
  destruct (Z.ltb_spec mn 5); [reflexivity|].
  destruct max_arg as [z| |]; cbn [exc_bind]; try reflexivity.
  - destruct (Z.leb_spec z mn); cbn [exc_bind]; [reflexivity|].
    exfalso. apply (Hno mn (Some z)). repeat split; [lia|]. right. exists z. auto.
  - exfalso. apply (Hno mn None). repeat split; [lia|]. left. auto.
Qed.

Lemma in_when_warn (b : bool) (w w' : Warning) :
  In w (Extractor.when_warn b w') <-> b = true /\ w' = w.
Proof.
  unfold Extractor.when_warn. destruct b; cbn; intuition discriminate.
Qed.

(** X15: [__init__] produces an extractor exactly when [min_features] is an
    integer of at least 5, [max_features] is [None] or an integer above
    [min_features], and [cv2.SIFT_create] accepts [max_features].  When one
    of the two checks fails it raises [ValueError]; when they pass and
    [cv2.SIFT_create] raises, it raises that exception.  A constructed
    extractor was warned about [min_features] exactly when it is below 20 and
    about [max_features] exactly when it is given and below twice
    [min_features]; a warning never prevents the construction. *)
Theorem init_accepts_exactly (ds : Dataset) (pairs : FramePairs) (min_arg max_arg : PyArg)
        (ignore_dynamic : bool) :
  ((exists ex ws, Extractor.init ds pairs min_arg max_arg ignore_dynamic = inr (ex, ws))
   <-> exists mn mx,
      Checks.checked_arguments min_arg max_arg mn mx /\ SIFT_create mx = inr tt)
  /\ (forall mn mx e,
         Checks.checked_arguments min_arg max_arg mn mx ->
         SIFT_create mx = inl e ->
         Extractor.init ds pairs min_arg max_arg ignore_dynamic = inl e)
  /\ ((forall mn mx, ~ Checks.checked_arguments min_arg max_arg mn mx) ->
      Extractor.init ds pairs min_arg max_arg ignore_dynamic = inl ValueError)
  /\ (forall ex ws,
         Extractor.init ds pairs min_arg max_arg ignore_dynamic = inr (ex, ws) ->
         (In WarnMinFeaturesBelow20 ws <-> (min_features ex < 20)%Z)
         /\ (In WarnMaxFeaturesBelowTwiceMin ws
             <-> exists mx, max_features ex = Some mx /\ (mx < 2 * min_features ex)%Z)).
Proof.
  split; [|split; [|split]].
  - split.
    + intros [ex [ws H]]. apply init_inr in H as [mn [mx [Hmin [Hge [Hmax [Hs _]]]]]].
      exists mn, mx. unfold Checks.checked_arguments. auto.
    + intros [mn [mx [Hc Hs]]]. rewrite (init_checked ds pairs ignore_dynamic Hc), Hs.
      cbn [exc_bind]. eauto.
  - intros mn mx e Hc Hs. rewrite (init_checked ds pairs ignore_dynamic Hc), Hs.
    reflexivity.
  - apply init_unchecked.
  - intros ex ws H. apply init_inr in H as [mn [mx [_ [_ [_ [_ [-> ->]]]]]]].
    cbn [min_features max_features]. rewrite !in_app_iff, !in_when_warn. split.
    + rewrite Z.ltb_lt. split; [intros [[Hlt _]|[_ Hw]]; [exact Hlt|discriminate]|].
      intro Hlt. left. auto.
    + split.
      * intros [[_ Hw]|[Hlt _]]; [discriminate|].
        destruct mx as [z|]; [|discriminate]. exists z. apply Z.ltb_lt in Hlt. auto.
      * intros [z [-> Hlt]]. right. split; [now apply Z.ltb_lt|reflexivity].
Qed.

End Construction.

(** In the scene the binding refuses [2**31] with an [OverflowError], and so
    does [__init__], after both checks have passed. *)
Example init_scene_sift_refuses :
  Extractor.init Scene.data [] (PyInt 20) (PyInt (2 ^ 31)) true = inl OverflowError
  /\ Checks.checked_arguments (PyInt 20) (PyInt (2 ^ 31)) 20 (Some (2 ^ 31)%Z).
Proof.
  split; [reflexivity|]. unfold Checks.checked_arguments.
  split; [reflexivity|]. split; [discriminate|].
  right. exists (2 ^ 31)%Z. repeat split.
Qed.

Section Driver.
Context `{V : Vision}.

Lemma detection_on_loaded_frame (self : FeatureExtractor) (idx : nat) (tr : Trace) :
  idx < num_frames (dataset self) ->
  exists r,
    Extractor._get_key_points_and_descriptors self (Extractor._get_frame_data self) idx tr
    = (inr r, tr ++ [EvDetectAndCompute idx]).
Proof.
  intro Hidx. destruct (frames_loaded self) as [Hframes [_ Hmasks]].
  unfold Extractor._get_key_points_and_descriptors.
  destruct (index_of_nat_total (frames (Extractor._get_frame_data self)) (i := idx))
    as [frame Hframe]; [lia|].
  unfold bind, lift, emit, ret. rewrite Hframe.
  destruct (masks (Extractor._get_frame_data self)) as [ms|].
  - destruct Hmasks as [-> Hlen].
    destruct (index_of_nat_total ms (i := idx)) as [m Hm]; [lia|].
    rewrite Hm. cbn [exc_bind]. eauto.
  - rewrite Hmasks. eauto.
Qed.

(** X16: the sampler and the extractor fit together: for the frame pairs
    [run] samples and the extractor it constructs for them, both frames of
    every pair are among the loaded frames, so the detector runs on either
    frame without an [IndexError], and both frames have a depth map. *)
Theorem sampled_frames_are_loaded (ds : Dataset) (frame_sampling : option FrameSamplingMode)
        (min_arg max_arg : PyArg) (mask_features : bool)
        (pairs : FramePairs) (ex : FeatureExtractor) (ws : list Warning) :
  Sampler.sample_frame_pairs (num_frames ds) frame_sampling = inr pairs ->
  Extractor.init ds pairs min_arg max_arg mask_features = inr (ex, ws) ->
  forall i j,
    In (i, j) (frame_pairs ex) ->
    forall tr,
      (exists r, Extractor._get_key_points_and_descriptors
                   ex (Extractor._get_frame_data ex) i tr
                 = (inr r, tr ++ [EvDetectAndCompute i]))
      /\ (exists r, Extractor._get_key_points_and_descriptors
                      ex (Extractor._get_frame_data ex) j tr
                    = (inr r, tr ++ [EvDetectAndCompute j]))
      /\ (exists depth_map,
             Seq.index (depth_maps (Extractor._get_frame_data ex)) (Z.of_nat i)
             = inr depth_map)
      /\ (exists depth_map,
             Seq.index (depth_maps (Extractor._get_frame_data ex)) (Z.of_nat j)
             = inr depth_map).
Proof.
  intros Hs Hinit i j Hin tr.
  apply init_inr in Hinit as [mn [mx [_ [_ [_ [_ [-> _]]]]]]].
  cbn [frame_pairs] in Hin.
  pose proof (sample_frame_pairs_bounds _ _ Hs _ _ Hin) as Hij.
  set (ex := mkFeatureExtractor ds pairs mn mx mask_features) in *.
  assert (Hn : num_frames (dataset ex) = num_frames ds) by reflexivity.
  destruct (frames_loaded ex) as [_ [Hdepth _]].
  split; [apply detection_on_loaded_frame; lia|].
  split; [apply detection_on_loaded_frame; lia|].
  split; apply index_of_nat_total; lia.
Qed.

(** X17: [run] samples, then constructs the extractor, then extracts: when
    the sampler or the constructor raises, it raises the same exception
    before anything is set up or detected.  When it returns, it returns the
    camera parameters it was given, and the run logged, last, the statistics
    of as many frame pairs as were sampled, each a pair of valid frame
    indices [i < j]. *)
Theorem run_outcome {Camera : Type} (camera : Camera) (ds : Dataset)
        (frame_sampling : option FrameSamplingMode) (mask_features : bool)
        (min_arg max_arg : PyArg) (tr : Trace) :
  (forall e,
      Sampler.sample_frame_pairs (num_frames ds) frame_sampling = inl e ->
      Optimiser.run camera ds frame_sampling mask_features min_arg max_arg tr = (inl e, tr))
  /\ (forall pairs e,
         Sampler.sample_frame_pairs (num_frames ds) frame_sampling = inr pairs ->
         Extractor.init ds pairs min_arg max_arg mask_features = inl e ->
         Optimiser.run camera ds frame_sampling mask_features min_arg max_arg tr
         = (inl e, tr))
  /\ (forall result tr',
         Optimiser.run camera ds frame_sampling mask_features min_arg max_arg tr
         = (inr result, tr') ->
         fst result = camera
         /\ exists pairs evs stats,
             Sampler.sample_frame_pairs (num_frames ds) frame_sampling = inr pairs
             /\ (forall i j, In (i, j) pairs -> i < j < num_frames ds)
             /\ tr' = tr ++ EvSetupDebugFolder :: evs ++ [EvLogStats stats]
             /\ total_frame_pairs stats = length pairs
             /\ good_frame_pairs stats <= length pairs).
Proof.
  split; [|split].
  - intros e Hs. unfold Optimiser.run, bind, lift. now rewrite Hs.
  - intros pairs e Hs Hinit.
    unfold Optimiser.run, Optimiser.extract_feature_points, bind, lift.
    now rewrite Hs, Hinit.
  - intros [camera' ws] tr' H. unfold Optimiser.run in H.
    repeat step_m.
    match goal with
    | Hx : Optimiser.extract_feature_points _ _ _ _ _ _ = (inr ?p, _) |- _ =>
        destruct p as [feature_set ws']; unfold Optimiser.extract_feature_points in Hx;
        repeat step_m
    end.
    inversion H; subst; clear H.
    split; [reflexivity|].
    match goal with
    | Hi : Extractor.init _ ?pairs _ _ _ = inr ?p |- _ =>
        destruct p as [ex ws'']; apply init_inr in Hi as [mn [mx [_ [_ [_ [_ [-> _]]]]]]];
        exists pairs
    end.
    repeat step_m.
    match goal with
    | Hx : Extractor.extract_feature_points _ _ = _ |- _ =>
        apply extract_feature_points_summary in Hx
          as [evs [stats [Htr [Htotal [Hgood _]]]]]; exists evs, stats
    end.
    cbn [frame_pairs] in *.
    split; [assumption|].
    split; [eapply sample_frame_pairs_bounds; eassumption|].
    split; [assumption|]. split; [assumption|]. lia.
Qed.

End Driver.

Lemma sampled_frames_are_loaded_witness :
  Sampler.sample_frame_pairs (num_frames Scene.data) (Some CONSECUTIVE)
  = inr [(0, 1); (1, 2)]
  /\ Extractor.init Scene.data [(0, 1); (1, 2)] (PyInt 5) PyNone true
     = inr (Scene.extractor, [WarnMinFeaturesBelow20])
  /\ exists r,
      Extractor._get_key_points_and_descriptors
        Scene.extractor (Extractor._get_frame_data Scene.extractor) 2 []
      = (inr r, [] ++ [EvDetectAndCompute 2]).
Proof.
  assert (Hs : Sampler.sample_frame_pairs (num_frames Scene.data) (Some CONSECUTIVE)
               = inr [(0, 1); (1, 2)]) by reflexivity.
  assert (Hi : Extractor.init Scene.data [(0, 1); (1, 2)] (PyInt 5) PyNone true
               = inr (Scene.extractor, [WarnMinFeaturesBelow20])) by reflexivity.
  split; [exact Hs|]. split; [exact Hi|].
  exact (proj1 (proj2 (@sampled_frames_are_loaded Scene.vision _ _ _ _ _ _ _ _ Hs Hi
                         1 2 (or_intror (or_introl eq_refl)) []))).
Defined.

(** ** More about the camera geometry *)

Section Rounding.
Local Open Scope Q_scope.

(** Python's [round] and [np.round] return a nearest integer, the even one
    at a tie. *)
Lemma round_half_even_nearest (x : Q) :
  Pixel.nearest (Num.round_half_even x) x
  /\ (Pixel.halfway x -> Z.even (Num.round_half_even x) = true).
Proof.
  unfold Pixel.nearest, Pixel.halfway, Num.round_half_even.
  pose proof (Qfloor_le x) as Hlo. pose proof (Qlt_floor x) as Hhi.
  rewrite inject_Z_plus in Hhi. change (inject_Z 1) with 1 in Hhi.
  set (f := Qfloor x) in *.
  destruct (Qcompare (x - inject_Z f) (1 # 2)) eqn:Hc.
  - apply Qeq_alt in Hc.
    destruct (Z.even f) eqn:He.
    + split; [split; lra | auto].
    + rewrite inject_Z_plus. change (inject_Z 1) with 1.
      split; [split; lra|]. intros _.
      rewrite Z.add_1_r, Z.even_succ, <- Z.negb_even, He. reflexivity.
  - apply Qlt_alt in Hc. split; [split; lra|]. intro Hh. lra.
  - apply Qgt_alt in Hc. rewrite inject_Z_plus. change (inject_Z 1) with 1.
    split; [split; lra|]. intro Hh. lra.
Qed.

End Rounding.

Section Projection.
Local Open Scope Q_scope.

(** The cast keeps a rounded coordinate that is in the range of the type. *)
Lemma int32_cast_fits (x : Q) :
  Pixel.fits_int32 x ->
  Geometry.int32_cast (Num.round_half_even x) = Num.round_half_even x.
Proof.
  unfold Pixel.fits_int32, Geometry.int32_cast. intros [Hlo Hhi].
  apply Z.leb_le in Hlo. apply Z.ltb_lt in Hhi. now rewrite Hlo, Hhi.
Qed.

(** Out of the range of [np.int32] the cast does not round: the pixel
    coordinate 6000000005 becomes [-2**31]. *)
Example int32_cast_out_of_range :
  Geometry.to_dtype Geometry.Int32 6000000005 = inject_Z (-2147483648).
Proof. reflexivity. Qed.

(** X18: with the dtype [np.int32], [world2image] rounds: for a non-zero
    scale factor and points of non-zero depth (where the divisions are
    defined), and where the rounded floating coordinates are in the range of
    the type, the depths are those of the floating result, and every pixel
    coordinate is an integer nearest to the floating coordinate (at most one
    half away), the even one when the floating coordinate lies halfway
    between two integers.  Out of the range of the type the cast does not
    give a nearest integer. *)
Theorem world2image_rounds_to_nearest (points : list Geometry.Vec3)
        (K R : Geometry.Mat3) (t : Geometry.Vec3) (s : Q) :
  ~ s == 0 ->
  Forall (fun p => ~ Geometry.depth_of K R t p == 0) points ->
  Forall (fun xy : Q * Q => Pixel.fits_int32 (fst xy) /\ Pixel.fits_int32 (snd xy))
         (fst (Geometry.world2image points K R t s Geometry.Float64)) ->
  snd (Geometry.world2image points K R t s Geometry.Int32)
  = snd (Geometry.world2image points K R t s Geometry.Float64)
  /\ Forall2 (fun rounded exact =>
                exists zx zy,
                  rounded = (inject_Z zx, inject_Z zy)
                  /\ Pixel.nearest zx (fst exact) /\ Pixel.nearest zy (snd exact)
                  /\ (Pixel.halfway (fst exact) -> Z.even zx = true)
                  /\ (Pixel.halfway (snd exact) -> Z.even zy = true))
             (fst (Geometry.world2image points K R t s Geometry.Int32))
             (fst (Geometry.world2image points K R t s Geometry.Float64)).
Proof.
  intros _ _ Hfit. unfold Geometry.world2image in *. cbn [fst snd] in *.
  split; [reflexivity|].
  induction points as [|p points IH]; cbn [map] in *; [constructor|].
  inversion Hfit as [|? ? [Hfx Hfy] Hrest]; subst.
  constructor; [|exact (IH Hrest)].
  unfold Geometry.to_dtype in *. cbn [Geometry.is_integer fst snd] in *.
  destruct (Geometry.camera_space K R t p) as [[x y] d]. cbn [fst snd] in *.
  rewrite (int32_cast_fits Hfx), (int32_cast_fits Hfy).
  exists (Num.round_half_even (x / d / s)), (Num.round_half_even (y / d / s)).
  destruct (round_half_even_nearest (x / d / s)) as [Hx Hxe].
  destruct (round_half_even_nearest (y / d / s)) as [Hy Hye].
  auto.
Qed.

End Projection.

Lemma world2image_rounds_to_nearest_witness :
  (~ (1 == 0)%Q)
  /\ Forall (fun p => ~ (Geometry.depth_of GeometryScene.K GeometryScene.R
                                           GeometryScene.t p == 0)%Q)
            GeometryScene.cloud
  /\ Forall (fun xy : Q * Q => Pixel.fits_int32 (fst xy) /\ Pixel.fits_int32 (snd xy))
            (fst (Geometry.world2image GeometryScene.cloud GeometryScene.K GeometryScene.R
                                       GeometryScene.t 1 Geometry.Float64))
  /\ fst (Geometry.world2image GeometryScene.cloud GeometryScene.K GeometryScene.R
                               GeometryScene.t 1 Geometry.Int32)
     = [(1, 2); (1, 2)]%Q
  /\ Forall2 Pixel.pixel_eq
             (fst (Geometry.world2image GeometryScene.cloud GeometryScene.K GeometryScene.R
                                        GeometryScene.t 1 Geometry.Float64))
             [(1, 5 # 2); (3 # 4, 3 # 2)]%Q
  /\ snd (Geometry.world2image GeometryScene.cloud GeometryScene.K GeometryScene.R
                               GeometryScene.t 1 Geometry.Int32)
     = snd (Geometry.world2image GeometryScene.cloud GeometryScene.K GeometryScene.R
                                 GeometryScene.t 1 Geometry.Float64).
Proof.
  assert (Hs : ~ (1 == 0)%Q) by (intro H; vm_compute in H; discriminate).
  assert (Hd : Forall (fun p => ~ (Geometry.depth_of GeometryScene.K GeometryScene.R
                                                     GeometryScene.t p == 0)%Q)
                      GeometryScene.cloud)
    by (repeat constructor; intro H; vm_compute in H; discriminate).
  assert (Hf : Forall (fun xy : Q * Q =>
                         Pixel.fits_int32 (fst xy) /\ Pixel.fits_int32 (snd xy))
                      (fst (Geometry.world2image GeometryScene.cloud GeometryScene.K
                                                 GeometryScene.R GeometryScene.t 1
                                                 Geometry.Float64)))
    by (repeat constructor; vm_compute; intro H; discriminate H).
  split; [exact Hs|]. split; [exact Hd|]. split; [exact Hf|]. split; [reflexivity|].
  split; [repeat constructor|].
  exact (proj1 (@world2image_rounds_to_nearest GeometryScene.cloud GeometryScene.K
                  GeometryScene.R GeometryScene.t 1 Hs Hd Hf)).
Defined.

Module BackProjectionFacts.
Import Geometry.
Local Open Scope Q_scope.

Lemma combine_map_r {A B C : Type} (f : B -> C) (l : list A) (l' : list B) :
  combine l (map f l') = map (fun ab : A * B => (fst ab, f (snd ab))) (combine l l').
Proof.
  revert l'. induction l as [|a l IH]; intros [|b l']; cbn; [reflexivity..|].
  now rewrite IH.
Qed.

(** What [image2world] returns for the pixel [uv] with depth [d], whatever
    the inversion of [K] returned. *)
Lemma image2world_with_closed_form (linalg_inv : Mat3 -> Exc Mat3)
      (pixels : list (Q * Q)) (depths : list Q)
      (K K_inv R : Mat3) (t : Vec3) (s : Q) :
  length depths = length pixels ->
  linalg_inv K = inr K_inv ->
  image2world_with linalg_inv pixels depths K R t s
  = inr (map (fun d_uv : Q * (Q * Q) => BackProjection.unprojected K_inv R t s (fst d_uv) (snd d_uv))
             (combine depths pixels)).
Proof.
  intros Hlen HK. unfold image2world_with, validate_depth_shape.
  rewrite Hlen, Nat.eqb_refl. cbn [exc_bind]. rewrite HK. cbn [exc_bind].
  rewrite map_map, combine_map_r, map_map. reflexivity.
Qed.

(** An exception of the inversion is the exception of [image2world]. *)
Lemma image2world_with_error (linalg_inv : Mat3 -> Exc Mat3)
      (pixels : list (Q * Q)) (depths : list Q)
      (K R : Mat3) (t : Vec3) (s : Q) (e : PyError) :
  length depths = length pixels ->
  linalg_inv K = inl e ->
  image2world_with linalg_inv pixels depths K R t s = inl e.
Proof.
  intros Hlen HK. unfold image2world_with, validate_depth_shape.
  rewrite Hlen, Nat.eqb_refl. cbn [exc_bind]. now rewrite HK.
Qed.







Lemma inv_singular (K : Mat3) : det K == 0 -> inv K = inl LinAlgError.
Proof.
  intro HK. unfold inv.
  destruct K as [[[[k00 k01] k02] [[k10 k11] k12]] [[k20 k21] k22]].
  now rewrite (Qeq_eq_bool _ _ HK).
Qed.


End BackProjectionFacts.



(** X20: given as many depths as pixels, [image2world] raises exactly when
    [np.linalg.inv(K)] raises, and then that exception: the check of the
    depth count does not fail.  Otherwise it returns one point per pixel,
    whatever the depths, [R], [t] and the scale factor are.  The inversion is
    a parameter of the statement, which therefore holds for the inversion
    numpy computes in binary64 as for the exact one. *)
Theorem image2world_outcome (linalg_inv : Geometry.Mat3 -> Exc Geometry.Mat3)
        (pixels : list (Q * Q)) (depths : list Q)
        (K R : Geometry.Mat3) (t : Geometry.Vec3) (s : Q) :
  length depths = length pixels ->
  (forall e,
      linalg_inv K = inl e ->
      Geometry.image2world_with linalg_inv pixels depths K R t s = inl e)
  /\ (forall K_inv,
         linalg_inv K = inr K_inv ->
         exists cloud,
           Geometry.image2world_with linalg_inv pixels depths K R t s = inr cloud
           /\ length cloud = length pixels).
Proof.
  intro Hlen. split.
  - intros e HK. now apply BackProjectionFacts.image2world_with_error.
  - intros K_inv HK.
    rewrite (@BackProjectionFacts.image2world_with_closed_form
               linalg_inv pixels depths K K_inv R t s Hlen HK).
    eexists. split; [reflexivity|].
    now rewrite length_map, length_combine, Hlen, Nat.min_id.
Qed.

Lemma image2world_outcome_witness :
  length GeometryEdges.depths = length GeometryEdges.pixels
  /\ Geometry.inv GeometryEdges.singular = inl LinAlgError
  /\ Geometry.image2world_with Geometry.inv GeometryEdges.pixels GeometryEdges.depths
                               GeometryEdges.singular GeometryScene.R GeometryScene.t 1
     = inl LinAlgError.
Proof.
  assert (Hlen : length GeometryEdges.depths = length GeometryEdges.pixels) by reflexivity.
  assert (HK : Geometry.inv GeometryEdges.singular = inl LinAlgError) by reflexivity.
  split; [exact Hlen|]. split; [exact HK|].
  exact (proj1 (@image2world_outcome Geometry.inv GeometryEdges.pixels GeometryEdges.depths
                  GeometryEdges.singular GeometryScene.R GeometryScene.t 1 Hlen)
               LinAlgError HK).
Defined.

(** X21: splitting a pose matrix built from a pose vector gives back its
    parts: for a vector of six entries [pose_vec2mat] returns a matrix whose
    last row is [[0, 0, 0, 1]] and from which [get_pose_components] returns
    the rotation matrix [cv2.Rodrigues] gave for the first three entries and
    the last three entries as a column. *)
Theorem pose_components_of_pose_matrix (Rodrigues : list Q -> Geometry.Mat3)
        (pose : list Q) :
  length pose = 6 ->
  exists M,
    Pose.pose_vec2mat Rodrigues pose = inr M
    /\ Pose.get_pose_components M
       = inr (Pose.rows (Rodrigues (firstn 3 pose)), map (fun x => [x]) (skipn 3 pose))
    /\ nth_error M 3 = Some [0; 0; 0; 1]%Q
    /\ length M = 4.
Proof.
  intro Hlen.
  destruct pose as [|r0 [|r1 [|r2 [|t0 [|t1 [|t2 [|]]]]]]]; try discriminate.
  unfold Pose.pose_vec2mat. cbn [Pose.validate_shape_6 length Nat.eqb exc_bind firstn skipn].
  destruct (Rodrigues [r0; r1; r2]) as [[[[a b] c] [[d e] f]] [[g h] i]].
  eexists. split; [reflexivity|]. repeat split; reflexivity.
Qed.

Lemma pose_components_of_pose_matrix_witness :
  length GeometryEdges.pose = 6
  /\ Pose.pose_vec2mat GeometryEdges.quarter_turn GeometryEdges.pose
     = inr [[0; -1; 0; 1]; [1; 0; 0; 2]; [0; 0; 1; 3]; [0; 0; 0; 1]]%Q
  /\ exists M,
      Pose.pose_vec2mat GeometryEdges.quarter_turn GeometryEdges.pose = inr M
      /\ Pose.get_pose_components M
         = inr (Pose.rows (GeometryEdges.quarter_turn (firstn 3 GeometryEdges.pose)),
                map (fun x => [x]) (skipn 3 GeometryEdges.pose))
      /\ nth_error M 3 = Some [0; 0; 0; 1]%Q
      /\ length M = 4.
Proof.
  assert (Hlen : length GeometryEdges.pose = 6) by reflexivity.
  split; [exact Hlen|]. split; [reflexivity|].
  exact (@pose_components_of_pose_matrix GeometryEdges.quarter_turn GeometryEdges.pose Hlen).
Defined.

(** ** Point clouds from depth maps *)

Module CloudFacts.

Local Open Scope Q_scope.

Lemma filter_enumerated_length (A : Type) (p : A -> bool) (l : list A) (off : nat) :
  length (filter (fun kx : nat * A => p (snd kx)) (combine (seq off (length l)) l))
  = length (filter p l).
Proof.
  revert off. induction l as [|a l IH]; intro off; [reflexivity|].
  cbn [length seq combine filter snd].
  destruct (p a); cbn [length]; now rewrite IH.
Qed.

Lemma argwhere_length (A : Type) (p : A -> bool) (l : list A) :
  length (Seq.argwhere p l) = length (filter p l).
Proof.
  unfold Seq.argwhere, Seq.enumerate. rewrite length_map.
  apply filter_enumerated_length.
Qed.

Lemma valid_row_length (drow : list Q) (mrow : list bool) :
  length drow = length mrow ->
  length (map (fun m_d : bool * Q => fst m_d && Num.gt (snd m_d) 0) (combine mrow drow))
  = length drow.
Proof.
  intro Hlen. rewrite length_map, length_combine, Hlen. apply Nat.min_id.
Qed.

(** As many pixel coordinates as depths are handed to [image2world]. *)
Lemma points_and_depths (depth : list (list Q)) (mask : list (list bool)) :
  Cloud.same_shape depth mask ->
  length (Cloud.masked depth (Cloud.valid_pixels depth mask))
  = length (Cloud.points2d (Cloud.valid_pixels depth mask)).
Proof.
  intro Hshape. unfold Cloud.points2d, Cloud.nonzero, Seq.enumerate.
  rewrite length_map.
  generalize 0%nat as off.
  unfold Cloud.masked, Cloud.valid_pixels.
  induction Hshape as [|drow mrow depth mask Hrow Hshape IH]; intro off; [reflexivity|].
  cbn [combine map length seq flat_map fst snd].
  rewrite !length_app, length_map, argwhere_length.
  rewrite select_length by (symmetry; now apply valid_row_length).
  f_equal. apply IH.
Qed.




(** The entries counted: those that are set in the mask and whose depth is
    positive. *)
Lemma masked_length (depth : list (list Q)) (mask : list (list bool)) :
  Cloud.same_shape depth mask ->
  length (Cloud.masked depth (Cloud.valid_pixels depth mask))
  = length (filter (fun m_d : bool * Q => fst m_d && Num.gt (snd m_d) 0)
                   (flat_map (fun md : list bool * list Q => combine (fst md) (snd md))
                             (combine mask depth))).
Proof.
  intro Hshape. unfold Cloud.masked, Cloud.valid_pixels.
  induction Hshape as [|drow mrow depth mask Hrow Hshape IH]; [reflexivity|].
  cbn [combine map flat_map fst snd].
  rewrite filter_app, !length_app, IH. f_equal.
  rewrite select_length by (symmetry; now apply valid_row_length).
  clear. generalize (combine mrow drow) as l.
  induction l as [|[m d] l IHl]; [reflexivity|].
  cbn [map filter fst snd]. destruct (m && Num.gt d 0)%bool; cbn [length]; now rewrite IHl.
Qed.

End CloudFacts.

(** X22: for a mask of the depth map's shape, [point_cloud_from_depth]
    raises exactly when [np.linalg.inv(K)] raises, and then that exception:
    the check of the depth count in [image2world] does not fail.  Otherwise
    the cloud has one point for each pixel that is set in the mask and has a
    positive depth, so pixels of zero or negative depth give no point.  The
    inversion is a parameter of the statement, which therefore holds for the
    inversion numpy computes in binary64 as for the exact one. *)
Theorem point_cloud_outcome (linalg_inv : Geometry.Mat3 -> Exc Geometry.Mat3)
        (depth : list (list Q)) (mask : list (list bool))
        (K R : Geometry.Mat3) (t : Geometry.Vec3) (s : Q) :
  Cloud.same_shape depth mask ->
  (forall e,
      linalg_inv K = inl e ->
      Cloud.point_cloud_from_depth_with linalg_inv depth mask K R t s = inl e)
  /\ (forall K_inv,
         linalg_inv K = inr K_inv ->
         exists cloud,
           Cloud.point_cloud_from_depth_with linalg_inv depth mask K R t s = inr cloud
           /\ length cloud
              = length (filter (fun m_d : bool * Q => fst m_d && Num.gt (snd m_d) 0)
                               (flat_map (fun md : list bool * list Q =>
                                            combine (fst md) (snd md))
                                         (combine mask depth)))).
Proof.
  intro Hshape. unfold Cloud.point_cloud_from_depth_with.
  pose proof (CloudFacts.points_and_depths Hshape) as Hlen.
  split.
  - intros e HK. now apply BackProjectionFacts.image2world_with_error.
  - intros K_inv HK.
    rewrite (@BackProjectionFacts.image2world_with_closed_form
               linalg_inv _ _ K K_inv R t s Hlen HK).
    eexists. split; [reflexivity|].
    rewrite length_map, length_combine, <- Hlen, Nat.min_id.
    now apply CloudFacts.masked_length.
Qed.

Lemma point_cloud_outcome_witness :
  Cloud.same_shape GeometryEdges.depth GeometryEdges.mask
  /\ Geometry.inv GeometryEdges.singular = inl LinAlgError
  /\ Cloud.point_cloud_from_depth_with Geometry.inv GeometryEdges.depth GeometryEdges.mask
       GeometryEdges.singular GeometryScene.R GeometryScene.t 1
     = inl LinAlgError
  /\ exists cloud,
      Cloud.point_cloud_from_depth_with Geometry.inv GeometryEdges.depth GeometryEdges.mask
        GeometryScene.K GeometryScene.R GeometryScene.t 1
      = inr cloud
      /\ length cloud = 3%nat.
Proof.
  assert (Hshape : Cloud.same_shape GeometryEdges.depth GeometryEdges.mask)
    by (repeat constructor).
  assert (HS : Geometry.inv GeometryEdges.singular = inl LinAlgError) by reflexivity.
  split; [exact Hshape|]. split; [exact HS|]. split.
  - exact (proj1 (@point_cloud_outcome Geometry.inv GeometryEdges.depth GeometryEdges.mask
                    GeometryEdges.singular GeometryScene.R GeometryScene.t 1 Hshape)
                 LinAlgError HS).
  - exact (proj2 (@point_cloud_outcome Geometry.inv GeometryEdges.depth GeometryEdges.mask
                    GeometryScene.K GeometryScene.R GeometryScene.t 1 Hshape)
                 _ eq_refl).
Defined.


